(** * brainweb/utils.py: label masks, modality synthesis and noise

    A shallow embedding of [python/brainweb/utils.py]: the tissue classes
    [Act], [Pet], [T1], [T2], the geometry tables [Res] and [Shape], the mask
    generator [Act.indices], the synthesizer [toPetMmr], the noise injector
    [noise], the reader [getRaw] and the axis reversal [matify].

    Conventions of the embedding.
    - A numpy array is a record of a shape, a dtype and a flat buffer in C
      order.  Integer buffers hold [Z] with the wrap-around of the dtype
      written out; floating buffers hold exact rationals [Q] (rounding of
      binary floating point is not represented).
    - Arrays that the program names, writes into or returns live in a store
      and are handled by reference; the value of an array expression such as
      [im - 16] is a temporary that nothing else can reach and is passed by
      value.
    - A Python exception is a [Raise] result; the store, the generator state
      and the log survive it.
    - [skimage.transform.resize], [skimage.filters.gaussian] and the
      attributes every class receives from the interpreter are not part of
      [utils.py]; they are variables of the section. *)

From Stdlib Require Import ZArith QArith Qround Qabs List String Ascii Bool.
From Stdlib Require Import Lia Lqa Permutation DecimalString.
Import ListNotations.

Local Open Scope string_scope.
Local Open Scope list_scope.
Local Open Scope Z_scope.

(** ** Exceptions and results *)

Inductive exn : Type :=
| AttributeError (name : string)
| TypeError
| ValueError (msg : string)
| IndexError
| DanglingRef.

Inductive result (A : Type) : Type :=
| Ok (a : A)
| Raise (e : exn).

Arguments Ok {A} a.
Arguments Raise {A} e.

Definition rbind {A B} (r : result A) (k : A -> result B) : result B :=
  match r with
  | Ok a => k a
  | Raise e => Raise e
  end.

(** ** Python objects stored in class namespaces *)

Inductive pyobj : Type :=
| PyNone
| PyInt (z : Z)
| PyFloat (q : Q)
| PyStr (s : string)
| PyList (l : list string)
| PyArray (v : list Q)
| PyMethod (name : string)
| PyOpaque.

Definition namespace := list (string * pyobj).

Fixpoint ns_lookup (name : string) (ns : namespace) : option pyobj :=
  match ns with
  | [] => None
  | (k, v) :: rest => if String.eqb name k then Some v else ns_lookup name rest
  end.

Definition ns_int (name : string) (ns : namespace) : Z :=
  match ns_lookup name ns with
  | Some (PyInt z) => z
  | _ => 0
  end.

Definition range (n : nat) : list Z := map Z.of_nat (seq 0 n).

(** Elementwise arithmetic of 1-D arrays with numpy's broadcasting of a
    length-one operand; other length mismatches raise. *)
Definition broadcast2 (f : Q -> Q -> Q) (xs ys : list Q) : result (list Q) :=
  if Nat.eqb (List.length xs) (List.length ys) then Ok (map (fun p => f (fst p) (snd p)) (combine xs ys))
  else match xs, ys with
       | [x], _ => Ok (map (f x) ys)
       | _, [y] => Ok (map (fun x => f x y) xs)
       | _, _ => Raise (ValueError "operands could not be broadcast together")
       end.

Definition vec_or_nil (r : result (list Q)) : list Q :=
  match r with
  | Ok v => v
  | Raise _ => []
  end.

(** ** The classes of utils.py *)

Inductive class : Type := Act | Pet | T1 | T2 | Res | Shape.

Module Body.

(** [class Act]: the twelve names receive [[i << 4 for i in range(12)]]. *)
Definition Act_labels : list string :=
  ["background"; "csf"; "greyMatter"; "whiteMatter"; "fat"; "muscle"; "skin";
   "skull"; "vessels"; "aroundFat"; "dura"; "marrow"].

Definition Act_codes : list Z := map (fun i => Z.shiftl i 4) (range 12).

Definition Act : namespace :=
  let base := combine Act_labels (map PyInt Act_codes) in
  let skull := ns_int "skull" base in
  let marrow := ns_int "marrow" base in
  let dura := ns_int "dura" base in
  let bone := Z.lor (Z.lor skull marrow) dura in
  ("__doc__", PyStr "careful: occasionally other bits may be set")
    :: base ++ [("bone", PyInt bone); ("indices", PyMethod "indices")].

Definition Pet : namespace :=
  let whiteMatter := 32 in
  let greyMatter := whiteMatter * 4 in
  let skin := whiteMatter / 2 in
  [("__doc__", PyNone);
   ("whiteMatter", PyInt whiteMatter);
   ("greyMatter", PyInt greyMatter);
   ("skin", PyInt skin);
   ("attrs", PyList ["whiteMatter"; "greyMatter"; "skin"])].

Definition T1 : namespace :=
  [("__doc__", PyNone);
   ("whiteMatter", PyInt 154);
   ("greyMatter", PyInt 106);
   ("skin", PyInt 92);
   ("skull", PyInt 48);
   ("marrow", PyInt 180);
   ("bone", PyInt 48);
   ("csf", PyInt 48);
   ("attrs", PyList ["whiteMatter"; "greyMatter"; "skin"; "skull"; "marrow";
                     "bone"; "csf"])].

Definition T2 : namespace :=
  [("__doc__", PyNone);
   ("whiteMatter", PyInt 70);
   ("greyMatter", PyInt 100);
   ("skin", PyInt 70);
   ("skull", PyInt 100);
   ("marrow", PyInt 250);
   ("csf", PyInt 250);
   ("bone", PyInt 200)].

Definition Res_mMR : list Q := [2.0312; 2.0863; 2.0863]%Q.
Definition Res_MR : list Q := [1.0; 1.0; 1.0]%Q.
Definition Res_brainweb : list Q := [0.5; 0.5; 0.5]%Q.

Definition Res : namespace :=
  [("__doc__", PyNone);
   ("mMR", PyArray Res_mMR);
   ("MR", PyArray Res_MR);
   ("brainweb", PyArray Res_brainweb)].

Definition Shape_mMR : list Q := [127; 344; 344]%Q.

Definition scaled (res : list Q) : list Q :=
  vec_or_nil (rbind (broadcast2 Qmult Shape_mMR Res_mMR)
                    (fun t => broadcast2 Qdiv t res)).

Definition Shape : namespace :=
  [("__doc__", PyNone);
   ("mMR", PyArray Shape_mMR);
   ("MR", PyArray (scaled Res_MR));
   ("brainweb", PyArray (scaled Res_brainweb))].

End Body.

Definition body (c : class) : namespace :=
  match c with
  | Act => Body.Act
  | Pet => Body.Pet
  | T1 => Body.T1
  | T2 => Body.T2
  | Res => Body.Res
  | Shape => Body.Shape
  end.

(** Method resolution order, [object] left out (see [builtin_attr] below). *)
Definition mro (c : class) : list class :=
  match c with
  | Act => [Act]
  | Pet => [Pet; Act]
  | T1 => [T1; Act]
  | T2 => [T2; T1; Act]
  | Res => [Res]
  | Shape => [Shape]
  end.

Fixpoint mro_lookup (name : string) (cs : list class) : option pyobj :=
  match cs with
  | [] => None
  | c :: rest =>
      match ns_lookup name (body c) with
      | Some v => Some v
      | None => mro_lookup name rest
      end
  end.

(** ** numpy arrays *)

Inductive dtype : Type := uint16 | float32 | float64.

Definition dtype_eqb (a b : dtype) : bool :=
  match a, b with
  | uint16, uint16 | float32, float32 | float64, float64 => true
  | _, _ => false
  end.

Inductive buffer : Type :=
| Ints (xs : list Z)
| Floats (xs : list Q).

Record ndarray : Type := mkarr { shape : list Z; dtype_of : dtype; buf : buffer }.

Record mask : Type := mkmask { mask_shape : list Z; bits : list bool }.

Definition size (sh : list Z) : nat := Z.to_nat (fold_right Z.mul 1 sh).

Definition buf_length (b : buffer) : nat :=
  match b with
  | Ints xs => List.length xs
  | Floats xs => List.length xs
  end.

(** Reduction modulo 2^16, the wrap-around of uint16 arithmetic. *)
Definition wrap16 (z : Z) : Z := z mod 65536.

(** Truncation toward zero, the float-to-int conversion of numpy. *)
Definition Qtrunc (q : Q) : Z :=
  if Qle_bool 0 q then Qfloor q else Qceiling q.

Definition is_float (dt : dtype) : bool :=
  match dt with
  | uint16 => false
  | _ => true
  end.

Definition shape_eqb (a b : list Z) : bool :=
  if list_eq_dec Z.eq_dec a b then true else false.

Module Np.

(** [np.zeros(shape, dtype)] *)
Definition zeros (sh : list Z) (dt : dtype) : ndarray :=
  mkarr sh dt (if is_float dt then Floats (repeat 0%Q (size sh))
               else Ints (repeat 0 (size sh))).

(** [np.zeros_like(a)] *)
Definition zeros_like (a : ndarray) : ndarray := zeros (shape a) (dtype_of a).

(** [a - k] for a Python integer [k]: an unsigned array keeps its dtype and
    wraps. *)
Definition sub_int (a : ndarray) (k : Z) : ndarray :=
  mkarr (shape a) (dtype_of a)
        (match buf a with
         | Ints xs => Ints (map (fun x => wrap16 (x - k)) xs)
         | Floats xs => Floats (map (fun x => (x - inject_Z k)%Q) xs)
         end).

(** [abs(a)]; on an unsigned array it is the identity. *)
Definition absolute (a : ndarray) : ndarray :=
  mkarr (shape a) (dtype_of a)
        (match buf a with
         | Ints xs => Ints (map (fun x => wrap16 (Z.abs x)) xs)
         | Floats xs => Floats (map Qabs xs)
         end).

(** [a < k] *)
Definition less_int (a : ndarray) (k : Z) : mask :=
  mkmask (shape a)
         (match buf a with
          | Ints xs => map (fun x => x <? k) xs
          | Floats xs => map (fun x => negb (Qle_bool (inject_Z k) x)) xs
          end).

(** [a != k] *)
Definition not_equal_int (a : ndarray) (k : Z) : mask :=
  mkmask (shape a)
         (match buf a with
          | Ints xs => map (fun x => negb (x =? k)) xs
          | Floats xs => map (fun x => negb (Qeq_bool x (inject_Z k))) xs
          end).

(** [m1 + m2] on boolean arrays is the logical or.  The operands of this
    program always come from the same volume, so no broadcasting arises. *)
Definition add_bool (m1 m2 : mask) : mask :=
  mkmask (mask_shape m1)
         (map (fun p => orb (fst p) (snd p)) (combine (bits m1) (bits m2))).

(** [m > 0] on a boolean array: [True] counts as 1. *)
Definition greater_zero (m : mask) : mask :=
  mkmask (mask_shape m) (map (fun b => 0 <? Z.b2z b) (bits m)).

Fixpoint put {A} (xs : list A) (bs : list bool) (v : A) : list A :=
  match xs, bs with
  | x :: xs', b :: bs' => (if b then v else x) :: put xs' bs' v
  | _, _ => xs
  end.

(** [a[m] = v] for a scalar [v], returned as the new contents of [a]. *)
Definition setitem (a : ndarray) (m : mask) (v : pyobj) : result ndarray :=
  if negb (shape_eqb (shape a) (mask_shape m)) then Raise IndexError
  else
    match buf a, v with
    | Ints xs, PyInt z => Ok (mkarr (shape a) (dtype_of a) (Ints (put xs (bits m) (wrap16 z))))
    | Ints xs, PyFloat q =>
        Ok (mkarr (shape a) (dtype_of a) (Ints (put xs (bits m) (wrap16 (Qtrunc q)))))
    | Floats xs, PyInt z =>
        Ok (mkarr (shape a) (dtype_of a) (Floats (put xs (bits m) (inject_Z z))))
    | Floats xs, PyFloat q => Ok (mkarr (shape a) (dtype_of a) (Floats (put xs (bits m) q)))
    | _, _ => Raise TypeError
    end.

(** [a.astype(dt)], element by element.  Floating buffers hold exact
    rationals, so a conversion between floating dtypes keeps every value
    (the rounding of float64 to float32 is not represented); a float
    converted to uint16 is truncated toward zero and reduced modulo 2^16
    (for values outside the range numpy leaves the result to the
    platform). *)
Definition astype (a : ndarray) (dt : dtype) : ndarray :=
  mkarr (shape a) dt
        (match buf a with
         | Ints xs => if is_float dt then Floats (map inject_Z xs) else Ints (map wrap16 xs)
         | Floats xs => if is_float dt then Floats xs
                        else Ints (map (fun q => wrap16 (Qtrunc q)) xs)
         end).

(** [a * k] for a float scalar [k] of a floating dtype. *)
Definition mul_float (a : ndarray) (k : Q) : ndarray :=
  mkarr (shape a) (dtype_of a)
        (match buf a with
         | Ints xs => Floats (map (fun x => (inject_Z x * k)%Q) xs)
         | Floats xs => Floats (map (fun x => (x * k)%Q) xs)
         end).

(** [f] applied to every element, the result a float64 array: the scalar
    arithmetic [2 * r - 1], [n * x], [1 + x] of [noise]. *)
Definition map_float (f : Q -> Q) (a : ndarray) : ndarray :=
  mkarr (shape a) float64
        (match buf a with
         | Ints xs => Floats (map (fun x => f (inject_Z x)) xs)
         | Floats xs => Floats (map f xs)
         end).

Definition to_floats (b : buffer) : list Q :=
  match b with
  | Ints xs => map inject_Z xs
  | Floats xs => xs
  end.

(** [a * b] for arrays of one shape, [b] floating. *)
Definition multiply (a b : ndarray) : result ndarray :=
  if shape_eqb (shape a) (shape b) then
    Ok (mkarr (shape a) float64
              (Floats (map (fun p => (fst p * snd p)%Q)
                           (combine (to_floats (buf a)) (to_floats (buf b))))))
  else Raise (ValueError "operands could not be broadcast together").

(** Position of a flat index in an array of shape [sh] (C order) and back. *)
Fixpoint unravel (sh : list Z) (t : Z) : list Z :=
  match sh with
  | [] => []
  | _ :: rest =>
      let stride := fold_right Z.mul 1 rest in
      (t / stride) :: unravel rest (t mod stride)
  end.

Fixpoint ravel (sh idx : list Z) : Z :=
  match sh, idx with
  | _ :: rest, i :: idx' => i * fold_right Z.mul 1 rest + ravel rest idx'
  | _, _ => 0
  end.

Definition padded_shape (sh : list Z) (widths : list (Z * Z)) : list Z :=
  map (fun p => fst p + fst (snd p) + snd (snd p)) (combine sh widths).

(** Where the element at flat position [t] of the padded array comes from:
    [None] in the padding. *)
Definition pad_source (sh : list Z) (widths : list (Z * Z)) (t : Z) : option Z :=
  let idx := unravel (padded_shape sh widths) t in
  let src := map (fun p => fst p - fst (snd p)) (combine idx widths) in
  if forallb (fun p => (0 <=? fst p) && (fst p <? snd p)) (combine src sh)
  then Some (ravel sh src) else None.

Definition pad_buffer {A} (zero : A) (xs : list A) (sh : list Z)
           (widths : list (Z * Z)) : list A :=
  map (fun t => match pad_source sh widths t with
                | Some j => nth (Z.to_nat j) xs zero
                | None => zero
                end)
      (range (size (padded_shape sh widths))).

(** [np.pad(a, widths, mode="constant")] with one pair per axis. *)
Definition pad (a : ndarray) (widths : list (Z * Z)) : result ndarray :=
  if negb (Nat.eqb (List.length widths) (List.length (shape a))) then
    Raise (ValueError "unable to broadcast pad_width")
  else if existsb (fun w => (fst w <? 0) || (snd w <? 0)) widths then
    Raise (ValueError "index can't contain negative values")
  else
    Ok (mkarr (padded_shape (shape a) widths) (dtype_of a)
              (match buf a with
               | Ints xs => Ints (pad_buffer 0 xs (shape a) widths)
               | Floats xs => Floats (pad_buffer 0%Q xs (shape a) widths)
               end)).

(** [np.rint]: round to nearest, ties to even. *)
Definition rint (q : Q) : Z :=
  let f := Qfloor q in
  match ((q - inject_Z f) ?= 1 # 2)%Q with
  | Lt => f
  | Gt => f + 1
  | Eq => if Z.even f then f else f + 1
  end.

(** [divmod(x, 2)] on floats: floored quotient and the remainder. *)
Definition divmod2 (x : Q) : Z * Q :=
  let q := Qfloor (x / 2) in
  (q, (x - 2 * inject_Z q)%Q).

End Np.

(** ** The world: array store, generator state, log *)

Record world : Type := mkworld {
  heap : list ndarray;
  rng : nat -> Q;
  journal : list (string * string)
}.

Definition M (A : Type) : Type := world -> result A * world.

Definition ret {A} (a : A) : M A := fun w => (Ok a, w).

Definition bind {A B} (c : M A) (k : A -> M B) : M B :=
  fun w => match c w with
           | (Ok a, w') => k a w'
           | (Raise e, w') => (Raise e, w')
           end.

Definition raise {A} (e : exn) : M A := fun w => (Raise e, w).

Definition lift {A} (r : result A) : M A := fun w => (r, w).

Declare Scope prog_scope.
Delimit Scope prog_scope with prog.
Notation "x <- c ;; k" := (bind c (fun x => k))
  (at level 61, c at next level, right associativity) : prog_scope.
Notation "c ;;; k" := (bind c (fun _ => k))
  (at level 61, right associativity) : prog_scope.

Fixpoint replace_nth {A} (n : nat) (x : A) (l : list A) : list A :=
  match l, n with
  | [], _ => []
  | _ :: t, O => x :: t
  | h :: t, S n' => h :: replace_nth n' x t
  end.

(** A new array object; its reference is the next free slot of the store. *)
Definition alloc (a : ndarray) : M nat :=
  fun w => (Ok (List.length (heap w)),
            mkworld (heap w ++ [a]) (rng w) (journal w)).

Definition load (r : nat) : M ndarray :=
  fun w => match nth_error (heap w) r with
           | Some a => (Ok a, w)
           | None => (Raise DanglingRef, w)
           end.

Definition store (r : nat) (a : ndarray) : M unit :=
  fun w => if Nat.ltb r (List.length (heap w))
           then (Ok tt, mkworld (replace_nth r a (heap w)) (rng w) (journal w))
           else (Raise DanglingRef, w).

(** [log.debug(msg)], [log.warn(msg)] *)
Definition log_call (level msg : string) : M unit :=
  fun w => (Ok tt, mkworld (heap w) (rng w) (journal w ++ [(level, msg)])).

(** [np.random.rand] with the dimensions [sh]: the next [size sh] draws of
    the generator. *)
Definition random_rand (sh : list Z) : M ndarray :=
  fun w => (Ok (mkarr sh float64 (Floats (map (rng w) (seq 0 (size sh))))),
            mkworld (heap w) (fun i => rng w (i + size sh)%nat) (journal w)).

Fixpoint for_each {A} (xs : list A) (body : A -> M unit) : M unit :=
  match xs with
  | [] => ret tt
  | x :: rest => bind (body x) (fun _ => for_each rest body)
  end.

Fixpoint map_m {A B} (f : A -> M B) (xs : list A) : M (list B) :=
  match xs with
  | [] => ret []
  | x :: rest => bind (f x) (fun y => bind (map_m f rest) (fun ys => ret (y :: ys)))
  end.

(** [arr[m] = v] on the array behind [r]. *)
Definition setitem_at (r : nat) (m : mask) (v : pyobj) : M unit :=
  bind (load r) (fun a => bind (lift (Np.setitem a m v)) (store r)).

Definition as_names (v : pyobj) : result (list string) :=
  match v with
  | PyList l => Ok l
  | _ => Raise TypeError
  end.

Definition as_vector (v : pyobj) : result (list Q) :=
  match v with
  | PyArray xs => Ok xs
  | PyInt z => Ok [inject_Z z]
  | PyFloat q => Ok [q]
  | _ => Raise TypeError
  end.

(** The ["%d"] conversion of a format string. *)
Definition format_d (v : pyobj) : result string :=
  match v with
  | PyInt z => Ok (NilZero.string_of_int (Z.to_int z))
  | PyFloat q => Ok (NilZero.string_of_int (Z.to_int (Qtrunc q)))
  | _ => Raise TypeError
  end.

Definition mu_bone_1_cm : Q := 0.13%Q.
Definition mu_tissue_1_cm : Q := 0.0975%Q.

(** ** Layout of arrays and raw files *)

(** The exceptions of the operating system that opening or reading a file
    raises; [OSError] stands for those without a class of their own. *)
Inductive os_error : Type :=
| FileNotFoundError
| IsADirectoryError
| PermissionError
| OSError.

(** What a call that reads a file comes to: a value, a Python exception of
    [exn], or an exception of the operating system for the file name. *)
Inductive outcome (A : Type) : Type :=
| Returned (a : A)
| Raised (e : exn)
| Failed (e : os_error) (fname : string).

Arguments Returned {A} a.
Arguments Raised {A} e.
Arguments Failed {A} e fname.

(** A file name either cannot be read, for the reason given, or holds
    bytes. *)
Inductive file_state : Type :=
| Unreadable (e : os_error)
| Contents (bytes : list Byte.byte).

Definition file_system := string -> file_state.

(** The byte at offset [off] of a file, as a number. *)
Definition byte_at (bytes : list Byte.byte) (off : Z) : Z :=
  Z.of_N (Byte.to_N (nth (Z.to_nat off) bytes Byte.x00)).

Module Nd.

(** Number of elements of a shape, as an integer. *)
Definition count (sh : list Z) : Z := fold_right Z.mul 1 sh.

(** The text of a shape in an error message, [(362,434,362)]. *)
Definition show_shape (sh : list Z) : string :=
("(" ++ String.concat "," (map (fun s => NilZero.string_of_int (Z.to_int s)) sh)
     ++ ")")%string.

(** [a.reshape(sh)] for a shape without the placeholder -1: the elements
  stay in order, their number has to agree. *)
Definition reshape (a : ndarray) (sh : list Z) : result ndarray :=
if Z.of_nat (buf_length (buf a)) =? count sh
then Ok (mkarr sh (dtype_of a) (buf a))
else Raise (ValueError
              ("cannot reshape array of size "
                 ++ NilZero.string_of_int (Z.to_int (Z.of_nat (buf_length (buf a))))
                 ++ " into shape " ++ show_shape sh)%string).

(** The unsigned 16-bit items of a byte sequence in the byte order of the
  machine, taken little-endian; an odd last byte is dropped. *)
Fixpoint uint16_items (bs : list Byte.byte) : list Z :=
match bs with
| lo :: hi :: rest =>
    (Z.of_N (Byte.to_N lo) + 256 * Z.of_N (Byte.to_N hi)) :: uint16_items rest
| _ => []
end.

(** [np.fromfile(fname, dtype=np.uint16)] on the bytes of the file. *)
Definition fromfile_uint16 (bs : list Byte.byte) : ndarray :=
let xs := uint16_items bs in
mkarr [Z.of_nat (List.length xs)] uint16 (Ints xs).

(** The axes of a transposition, checked one after the other as numpy does:
  each in [-ndim, ndim), negative ones counted from the end, none twice.
  numpy's [AxisError] is a [ValueError]. *)
Fixpoint checked_axes (ndim : Z) (seen axes : list Z) : result (list Z) :=
match axes with
| [] => Ok []
| ax :: rest =>
    if (- ndim <=? ax) && (ax <? ndim) then
      let ax' := if ax <? 0 then ax + ndim else ax in
      if existsb (Z.eqb ax') seen
      then Raise (ValueError "repeated axis in transpose")
      else rbind (checked_axes ndim (ax' :: seen) rest)
                 (fun tl => Ok (ax' :: tl))
    else Raise (ValueError
                  ("axis " ++ NilZero.string_of_int (Z.to_int ax)
                     ++ " is out of bounds for array of dimension "
                     ++ NilZero.string_of_int (Z.to_int ndim))%string)
end.

(** Position of the first [j] in [perm]. *)
Fixpoint index_of (j : Z) (perm : list Z) : nat :=
match perm with
| [] => O
| p :: rest => if j =? p then O else S (index_of j rest)
end.

(** Where the element at flat position [t] of the transposed array comes
  from: axis [i] of the result is axis [perm[i]] of the source. *)
Definition transpose_source (sh perm : list Z) (t : Z) : Z :=
let new_sh := map (fun p => nth (Z.to_nat p) sh 0) perm in
let idx := Np.unravel new_sh t in
let src := map (fun j => nth (index_of j perm) idx 0)
               (range (List.length sh)) in
Np.ravel sh src.

Definition transpose_buffer {A} (zero : A) (xs : list A) (sh perm : list Z)
: list A :=
map (fun t => nth (Z.to_nat (transpose_source sh perm t)) xs zero)
    (range (size (map (fun p => nth (Z.to_nat p) sh 0) perm))).

(** [a.transpose(axes)] *)
Definition transpose (a : ndarray) (axes : list Z) : result ndarray :=
if negb (Nat.eqb (List.length axes) (List.length (shape a))) then
  Raise (ValueError "axes don't match array")
else
  rbind (checked_axes (Z.of_nat (List.length (shape a))) [] axes) (fun perm =>
  Ok (mkarr (map (fun p => nth (Z.to_nat p) (shape a) 0) perm) (dtype_of a)
            (match buf a with
             | Ints xs => Ints (transpose_buffer 0 xs (shape a) perm)
             | Floats xs => Floats (transpose_buffer 0%Q xs (shape a) perm)
             end))).

End Nd.

(** ** getRaw and matify *)

Definition raw_shape : list Z := [362; 434; 362].

(** [getRaw(fname)]: the array is a new object of the store. *)
Definition getRaw (fs : file_system) (fname : string)
  : world -> outcome nat * world :=
  fun w =>
    match fs fname with
    | Unreadable e => (Failed e fname, w)
    | Contents bytes =>
        match Nd.reshape (Nd.fromfile_uint16 bytes) raw_shape with
        | Ok a =>
            match alloc a w with
            | (Ok r, w') => (Returned r, w')
            | (Raise e, w') => (Raised e, w')
            end
        | Raise e => (Raised e, w)
        end
    end.

(** [matify(mat, dtype, transpose)]; [None] stands for the default, all axes
    reversed.  [transpose] gives a view, [astype] a new array. *)
Definition matify (mat : nat) (dt : dtype) (transpose : option (list Z)) : M nat :=
  (a <- load mat ;;
   let axes := match transpose with
               | None => rev (range (List.length (shape a)))
               | Some t => t
               end in
   t <- lift (Nd.transpose a axes) ;;
   alloc (Np.astype t dt))%prog.

(** ** Stand-ins for what lies outside utils.py, used to run the model *)

(** An interpreter that adds no attribute to a class. *)
Definition no_builtins : string -> option pyobj := fun _ => None.

(** A resize that delivers a blank floating array of the requested shape,
    and refuses an empty input or output. *)
Definition resize_blank (a : ndarray) (s : list Z) : result ndarray :=
  if forallb (fun n => 0 <? n) (shape a) && forallb (fun n => 0 <? n) s
  then Ok (Np.zeros s float64)
  else Raise (ValueError "empty image").

(** A smoothing filter of width zero. *)
Definition gaussian_delta (u : ndarray) (sigma : Q) : ndarray := u.

(** ** Small inputs *)

(** Six voxels: background, greyMatter, whiteMatter, skull, marrow, dura. *)
Definition demo_voxels : list Z := [0; 32; 48; 112; 176; 160].
Definition demo_volume : ndarray := mkarr [1; 2; 3] uint16 (Ints demo_voxels).
Definition demo_world : world := mkworld [demo_volume] (fun _ => 1 # 2)%Q [].

(** A 10 x 10 x 10 volume of white matter. *)
Definition cube_voxels : list Z := repeat 48 (Z.to_nat 1000).
Definition cube_volume : ndarray := mkarr [10; 10; 10] uint16 (Ints cube_voxels).
Definition cube_world : world := mkworld [cube_volume] (fun _ => 1 # 2)%Q [].

(** A 600 x 3 x 3 volume, longer than the mMR grid after resampling. *)
Definition long_volume : ndarray := mkarr [600; 3; 3] uint16 (Ints (repeat 48 (Z.to_nat 5400))).
Definition long_world : world := mkworld [long_volume] (fun _ => 1 # 2)%Q [].

(** One marrow voxel, and a second array to paint into. *)
Definition marrow_volume : ndarray := mkarr [1; 1; 1] uint16 (Ints [176]).
Definition marrow_world : world :=
  mkworld [marrow_volume; Np.zeros_like marrow_volume] (fun _ => 1 # 2)%Q [].

(** Two voxels: a skull code with a low bit set, and white matter. *)
Definition stray_voxels : list Z := [113; 48].
Definition stray_volume : ndarray := mkarr [1; 1; 2] uint16 (Ints stray_voxels).
Definition stray_world : world := mkworld [stray_volume] (fun _ => 1 # 2)%Q [].

(** Files: none; and one of the size of a BrainWeb volume, all bytes zero,
    under every name. *)
Definition no_files : file_system := fun _ => Unreadable FileNotFoundError.
Definition short_files : file_system :=
  fun _ => Contents [Byte.x30; Byte.x00; Byte.x70; Byte.x00; Byte.xb0].
Definition blank_bytes : list Byte.byte :=
  repeat Byte.x00 (Z.to_nat (2 * 56873096)).
Definition blank_files : file_system := fun _ => Contents blank_bytes.
Definition blank_volume : ndarray :=
  mkarr [362; 434; 362] uint16 (Ints (Nd.uint16_items blank_bytes)).
Definition blank_world : world :=
  mkworld [demo_volume; blank_volume] (fun _ => 1 # 2)%Q [].

Section Program.

(** Attributes that the interpreter gives to every class (those of
    [object] and of [type]); the source declares none of them. *)
Variable builtin_attr : string -> option pyobj.

(** [getattr(cls, name)] *)
Definition getattr (c : class) (name : string) : result pyobj :=
  match mro_lookup name (mro c) with
  | Some v => Ok v
  | None =>
      match builtin_attr name with
      | Some v => Ok v
      | None => Raise (AttributeError name)
      end
  end.

(** [im - obj] for what [getattr] returned. *)
Definition sub_obj (im : ndarray) (v : pyobj) : result ndarray :=
  match v with
  | PyInt k => Ok (Np.sub_int im k)
  | PyFloat q => Ok (mkarr (shape im) float64
                           (match buf im with
                            | Ints xs => Floats (map (fun x => (inject_Z x - q)%Q) xs)
                            | Floats xs => Floats (map (fun x => (x - q)%Q) xs)
                            end))
  | _ => Raise TypeError
  end.

(** The last line of [Act.indices]: [abs(im - getattr(cls, attr)) < 1]. *)
Definition indices_leaf (cls : class) (im : ndarray) (attr : string) : result mask :=
  rbind (getattr cls attr) (fun v =>
  rbind (sub_obj im v) (fun d =>
  Ok (Np.less_int (Np.absolute d) 1))).

(** [Act.indices], a classmethod: [cls] is the class it is called on.  The
    three recursive calls of the "bone" branch pass names other than
    "bone", so each of them runs the last line. *)
Definition indices (cls : class) (im : ndarray) (attr : string) : result mask :=
  if String.eqb attr "bone" then
    rbind (indices_leaf cls im "skull") (fun s =>
    rbind (indices_leaf cls im "marrow") (fun m =>
    rbind (indices_leaf cls im "dura") (fun d =>
    Ok (Np.greater_zero (Np.add_bool (Np.add_bool s m) d)))))
  else indices_leaf cls im attr.

(** ** noise *)

Variable gaussian : ndarray -> Q -> ndarray.

Definition noise (im : nat) (n : Q) (warn_zero : bool) (sigma : Q) : M nat :=
  if Qlt_le_dec n 0 then raise (ValueError "Noise must be positive")
  else if Qeq_bool n 0 then
    ((if warn_zero then log_call "WARNING" "zero noise" else ret tt) ;;;
     ret im)%prog
  else
    (a <- load im ;;
     u <- random_rand (shape a) ;;
     let r := gaussian u sigma in
     out <- lift (Np.multiply a
              (Np.map_float (fun x => 1 + x)%Q
                 (Np.map_float (fun x => n * x)%Q
                    (Np.map_float (fun x => 2 * x - 1)%Q r)))) ;;
     alloc out)%prog.

(** ** toPetMmr *)

(** [resize(arr, new_shape, order=1, mode="constant",
    anti_aliasing=False)]; it may raise. *)
Variable resize : ndarray -> list Z -> result ndarray.

(** One [for attr in P.attrs] loop over the names [attrs], painting into
    the array behind [res]; [tag] is the prefix of the debug message. *)
Definition paint_loop (tag : string) (P : class) (im res : nat)
           (attrs : list string) : M unit :=
  for_each attrs (fun attr =>
    (v <- lift (getattr P attr) ;;
     d <- lift (format_d v) ;;
     log_call "DEBUG" (tag ++ ":" ++ attr ++ ":" ++ d) ;;;
     v <- lift (getattr P attr) ;;
     a <- load im ;;
     m <- lift (indices Act a attr) ;;
     setitem_at res m v)%prog).

(** [res = np.zeros_like(im)] followed by the loop over [P.attrs]
    (lines 186-189, 198-201 and 203-206). *)
Definition paint (tag : string) (P : class) (im : nat) : M nat :=
  (a <- load im ;;
   res <- alloc (Np.zeros_like a) ;;
   attrs <- lift (rbind (getattr P "attrs") as_names) ;;
   paint_loop tag P im res attrs ;;;
   ret res)%prog.

(** Lines 192-194. *)
Definition build_muMap (im : nat) (dt : dtype) : M nat :=
  (a <- load im ;;
   muMap <- alloc (Np.zeros (shape a) dt) ;;
   a <- load im ;;
   setitem_at muMap (Np.not_equal_int a 0) (PyFloat mu_tissue_1_cm) ;;;
   a <- load im ;;
   m <- lift (indices Act a "bone") ;;
   setitem_at muMap m (PyFloat mu_bone_1_cm) ;;;
   ret muMap)%prog.

(** Line 209. *)
Definition new_shape_of (im_shape : list Z) (out_res : list Q) : result (list Z) :=
  rbind (rbind (getattr Res "brainweb") as_vector) (fun bw =>
  rbind (broadcast2 Qmult (map inject_Z im_shape) bw) (fun t =>
  rbind (broadcast2 Qdiv t out_res) (fun u =>
  Ok (map Np.rint u)))).

(** Line 210: [padLR, padR]. *)
Definition pads_of (out_shape : list Q) (new_shape : list Z)
  : result (list Z * list Q) :=
  rbind (broadcast2 Qminus out_shape (map inject_Z new_shape)) (fun d =>
  Ok (map (fun x => fst (Np.divmod2 x)) d, map (fun x => snd (Np.divmod2 x)) d)).

(** The pairs [(p, p + r)] of line 219, after [astype(int)]. *)
Definition pad_widths (padLR : list Z) (padR : list Q) : list (Z * Z) :=
  map (fun pr => (fst pr, fst pr + snd pr)) (combine padLR (map Qtrunc padR)).

(** The nested function [resizeToMmr]. *)
Definition resizeToMmr (pad : bool) (dt : dtype) (new_shape : list Z)
           (padLR : list Z) (padR : list Q) (arr : nat) : M nat :=
  (a <- load arr ;;
   a1 <- lift (resize a new_shape) ;;
   a2 <- (if pad then lift (Np.pad a1 (pad_widths padLR padR)) else ret a1) ;;
   if dtype_eqb (dtype_of a2) uint16
   then alloc (Np.mul_float (Np.astype a2 float32) (inject_Z (2 ^ 16)))
   else alloc (Np.astype a2 dt))%prog.

Definition toPetMmr (im : nat) (pad : bool) (dt : dtype) (outres : string)
  : M (list nat) :=
  (out_res <- lift (getattr Res outres) ;;
   out_shape <- lift (getattr Shape outres) ;;
   res <- paint "PET" Pet im ;;
   muMap <- build_muMap im dt ;;
   t1 <- paint "T1" T1 im ;;
   t2 <- paint "T2" T2 im ;;
   a <- load im ;;
   out_res_v <- lift (as_vector out_res) ;;
   new_shape <- lift (new_shape_of (shape a) out_res_v) ;;
   out_shape_v <- lift (as_vector out_shape) ;;
   pads <- lift (pads_of out_shape_v new_shape) ;;
   map_m (resizeToMmr pad dt new_shape (fst pads) (snd pads))
         [res; muMap; t1; t2])%prog.

(** ** Descriptions used to state the properties *)

(** A labeled volume as [getRaw] delivers it: unsigned 16-bit voxels [xs],
    one for each position of the shape. *)
Definition labeled (a : ndarray) (xs : list Z) : Prop :=
  dtype_of a = uint16 /\ buf a = Ints xs /\
  List.length xs = size (shape a) /\
  Forall (fun x => 0 <= x < 65536) xs.

(** The numeric value the class [Act] defines for a label. *)
Definition act_code (name : string) : Z := ns_int name Body.Act.

(** The match test of a base label on one voxel. *)
Definition near (code v : Z) : bool := Z.abs (v - code) <? 1.

(** Elementwise logical or of two masks. *)
Definition mask_union (m1 m2 : mask) : mask :=
  mkmask (mask_shape m1)
         (map (fun p => orb (fst p) (snd p)) (combine (bits m1) (bits m2))).

(** The composite mask on a labeled volume, voxel by voxel. *)
Definition bone_voxel (v : Z) : bool :=
  near (act_code "skull") v || near (act_code "marrow") v
  || near (act_code "dura") v.

(** The names the class statement of [Act] binds. *)
Definition declared_in_Act (name : string) : bool :=
  existsb (String.eqb name) (map fst Body.Act).

(** Which voxels the loop selects for a name: the test of [Act.indices]
    with the codes of the class [Act]. *)
Definition act_selects (attr : string) (v : Z) : bool :=
  if String.eqb attr "bone" then bone_voxel v else near (act_code attr) v.

(** What the loop writes for a name: the value the profile defines. *)
Definition profile_int (P : class) (attr : string) : Z :=
  match mro_lookup attr (mro P) with
  | Some (PyInt z) => z
  | _ => 0
  end.

(** One voxel [v] through the loop over [attrs], starting from [acc]. *)
Fixpoint painted (P : class) (attrs : list string) (v acc : Z) : Z :=
  match attrs with
  | [] => acc
  | attr :: rest =>
      painted P rest v (if act_selects attr v then wrap16 (profile_int P attr) else acc)
  end.

(** The debug lines one loop logs. *)
Definition paint_messages (tag : string) (P : class) (attrs : list string)
  : list (string * string) :=
  map (fun attr =>
         ("DEBUG",
          (tag ++ ":" ++ attr ++ ":"
               ++ NilZero.string_of_int (Z.to_int (profile_int P attr)))%string))
      attrs.

(** A name the loop can paint: the profile gives it an integer and [Act]
    gives it a code (or it is the composite name). *)
Definition paintable (P : class) (attr : string) : Prop :=
  (exists z, mro_lookup attr (mro P) = Some (PyInt z)) /\
  (attr = "bone" \/
   exists k, mro_lookup attr (mro Act) = Some (PyInt k) /\ 0 <= k < 65536).

(** The three modality profiles. *)
Definition is_profile (P : class) : Prop := P = Pet \/ P = T1 \/ P = T2.

(** The list a profile inherits or defines under the name [attrs]. *)
Definition profile_attrs (P : class) : list string :=
  match mro_lookup "attrs" (mro P) with
  | Some (PyList l) => l
  | _ => []
  end.

(** One voxel of the mu-map. *)
Definition mu_voxel (v : Z) : Q :=
  if bone_voxel v then mu_bone_1_cm
  else if negb (v =? 0) then mu_tissue_1_cm else 0%Q.

(** The buffer of the mu-map for output dtype [dt]; an integer dtype
    truncates the two coefficients. *)
Definition mu_buffer (dt : dtype) (xs : list Z) : buffer :=
  if is_float dt then Floats (map mu_voxel xs)
  else Ints (map (fun v => if bone_voxel v then wrap16 (Qtrunc mu_bone_1_cm)
                           else if negb (v =? 0) then wrap16 (Qtrunc mu_tissue_1_cm)
                                else 0) xs).

(** At voxel value [v], no two different names of [l] are selected. *)
Definition exclusive (l : list string) (v : Z) : Prop :=
  forall a b, In a l -> In b l ->
              act_selects a v = true -> act_selects b v = true -> a = b.

(** The closed interval [0, 1]. *)
Definition unit_interval (x : Q) : Prop := (0 <= x /\ x <= 1)%Q.

(** What is assumed of [skimage.filters.gaussian]: it keeps the shape
    and the number of elements, and a field with values in [0, 1] is
    smoothed to values in [0, 1] (the kernel is a weighted mean). *)
Definition weighted_mean_filter (g : ndarray -> Q -> ndarray) : Prop :=
  forall u sigma xs,
    buf u = Floats xs -> Forall unit_interval xs ->
    shape (g u sigma) = shape u /\
    exists rs, buf (g u sigma) = Floats rs /\
               List.length rs = List.length xs /\
               Forall unit_interval rs.

(** [frames n0 k c P]: started in a store of at least [n0] arrays, [c]
    leaves the first [n0] arrays and the generator as they were, allocates
    at most [k] arrays, and when it returns [x] it has allocated exactly
    [k] and [P n x] holds for the number [n] of arrays at its start. *)
Definition frames (n0 k : nat) {A} (c : M A) (P : nat -> A -> Prop) : Prop :=
  forall w r w',
    (n0 <= List.length (heap w))%nat -> c w = (r, w') ->
    rng w' = rng w /\
    firstn n0 (heap w') = firstn n0 (heap w) /\
    (List.length (heap w) <= List.length (heap w'))%nat /\
    (List.length (heap w') <= List.length (heap w) + k)%nat /\
    forall x, r = Ok x ->
              List.length (heap w') = (List.length (heap w) + k)%nat /\
              P (List.length (heap w)) x.

(** The entry of a geometry table ([Res] or [Shape]) for a system name. *)
Definition table (c : class) (name : string) : list Q :=
  match mro_lookup name (mro c) with
  | Some (PyArray v) => v
  | _ => []
  end.

(** The coordinate systems of the geometry tables. *)
Definition system_names : list string := ["mMR"; "MR"; "brainweb"].

(** What is assumed of [skimage.transform.resize]: for an array without
    an empty axis and a requested shape of as many axes, all of them at
    least 1, it returns a floating array of the requested shape.  Nothing
    is assumed of the other calls, where it may raise. *)
Definition resize_contract (rs : ndarray -> list Z -> result ndarray) : Prop :=
  forall a s,
    List.length s = List.length (shape a) ->
    Forall (fun n => 0 < n) (shape a) -> Forall (fun n => 0 < n) s ->
    exists b, rs a s = Ok b /\ shape b = s /\ dtype_of b <> uint16.

(** The widths of one axis, [D div 2] before and [D div 2 + D mod 2]
    after, for [D] the whole part of the target extent less the resized
    extent. *)
Definition axis_widths (t : Q) (n : Z) : Z * Z :=
  let D := Qfloor t - n in (D / 2, D / 2 + D mod 2).

(** The value each painting loop leaves at a voxel [v], read off the
    tables of [Pet], [T1], [T2] and the codes of [Act]: in T1 and T2 the
    later "bone" covers "skull" and "marrow". *)
Definition pet_value (v : Z) : Z :=
  if v =? 48 then 32 else if v =? 32 then 128 else if v =? 96 then 16 else 0.

Definition t1_value (v : Z) : Z :=
  if (v =? 112) || (v =? 176) || (v =? 160) then 48
  else if v =? 48 then 154
  else if v =? 32 then 106
  else if v =? 96 then 92
  else if v =? 16 then 48 else 0.

Definition t2_value (v : Z) : Z :=
  if (v =? 112) || (v =? 176) || (v =? 160) then 200
  else if v =? 48 then 70
  else if v =? 32 then 100
  else if v =? 96 then 70
  else if v =? 16 then 250 else 0.

Definition profile_table (P : class) : Z -> Z :=
  match P with
  | Pet => pet_value
  | T1 => t1_value
  | T2 => t2_value
  | _ => fun _ => 0
  end.

(** A multi-index within a shape. *)
Definition in_bounds (idx sh : list Z) : Prop :=
  Forall2 (fun i s => 0 <= i < s) idx sh.

(** The element [a[idx]] read as a number. *)
Definition item (a : ndarray) (idx : list Z) : Q :=
  nth (Z.to_nat (Np.ravel (shape a) idx)) (Np.to_floats (buf a)) 0%Q.

(** The resized extents of a volume of [getRaw], per target system. *)
Definition raw_new_shape (outres : string) : list Z :=
  if String.eqb outres "mMR" then [89; 104; 87]
  else if String.eqb outres "MR" then [181; 217; 181]
  else [362; 434; 362].

(** The four volumes of [toPetMmr] before resampling, in the order of
    line 226: PET, mu-map, T1, T2. *)
Definition stage_arrays (dt : dtype) (a : ndarray) (xs : list Z)
  : list ndarray :=
  [mkarr (shape a) uint16
         (Ints (map (fun v => painted Pet (profile_attrs Pet) v 0) xs));
   mkarr (shape a) dt (mu_buffer dt xs);
   mkarr (shape a) uint16
         (Ints (map (fun v => painted T1 (profile_attrs T1) v 0) xs));
   mkarr (shape a) uint16
         (Ints (map (fun v => painted T2 (profile_attrs T2) v 0) xs))].

(** An index of a padded array moved back by the widths before. *)
Definition pad_offset (idx : list Z) (widths : list (Z * Z)) : list Z :=
  map (fun p => fst p - fst (snd p)) (combine idx widths).

(** The test that a multi-index lies within a shape. *)
Definition inside (idx sh : list Z) : bool :=
  forallb (fun p => (0 <=? fst p) && (fst p <? snd p)) (combine idx sh).

(** In the order [l], "bone" comes after "skull" and "marrow". *)
Definition bone_last (l : list string) : Prop :=
  forall l1 l2, l = l1 ++ "bone" :: l2 ->
                ~ In "skull" l2 /\ ~ In "marrow" l2.

(** The composite name together with one of the two listed names whose
    region it contains. *)
Definition bone_and_part (a b : string) : Prop :=
  a = "bone" /\ (b = "skull" \/ b = "marrow").

(** ** Arithmetic of the match test *)

Lemma wrap16_small z : 0 <= z < 65536 -> wrap16 z = z.
Proof. intros H. unfold wrap16. apply Z.mod_small. exact H. Qed.

Lemma wrap16_range z : 0 <= wrap16 z < 65536.
Proof. unfold wrap16. apply Z.mod_pos_bound. lia. Qed.

Lemma wrap16_sub_zero x k :
  0 <= x < 65536 -> 0 <= k < 65536 -> (wrap16 (x - k) = 0 <-> x = k).
Proof.
  intros Hx Hk. unfold wrap16. split.
  - intros H.
    destruct (Z_lt_le_dec x k) as [Hlt | Hge].
    + assert (E : (x - k) mod 65536 = x - k + 65536).
      { symmetry. apply (Z.mod_unique (x - k) 65536 (-1)); lia. }
      lia.
    + rewrite Z.mod_small in H; lia.
  - intros ->. rewrite Z.sub_diag. reflexivity.
Qed.

Lemma uint16_match x k :
  0 <= x < 65536 -> 0 <= k < 65536 ->
  (wrap16 (Z.abs (wrap16 (x - k))) <? 1) = near k x.
Proof.
  intros Hx Hk. unfold near.
  pose proof (wrap16_range (x - k)) as Hr.
  rewrite Z.abs_eq by lia.
  rewrite wrap16_small by exact Hr.
  pose proof (wrap16_sub_zero x k Hx Hk) as Hz.
  destruct (Z.ltb_spec (wrap16 (x - k)) 1) as [H1 | H1];
    destruct (Z.ltb_spec (Z.abs (x - k)) 1) as [H2 | H2];
    try reflexivity; exfalso; lia.
Qed.

Lemma near_iff code v : near code v = true <-> v = code.
Proof. unfold near. rewrite Z.ltb_lt. lia. Qed.

Lemma near_eqb code v : near code v = (v =? code).
Proof.
  destruct (Z.eqb_spec v code) as [E | E].
  - apply near_iff. exact E.
  - destruct (near code v) eqn:N; [apply near_iff in N; contradiction | reflexivity].
Qed.

(** ** Attribute lookup *)

Lemma getattr_declared c name v :
  mro_lookup name (mro c) = Some v -> getattr c name = Ok v.
Proof. intros H. unfold getattr. rewrite H. reflexivity. Qed.

Lemma getattr_undeclared c name :
  mro_lookup name (mro c) = None -> builtin_attr name = None ->
  getattr c name = Raise (AttributeError name).
Proof. intros H1 H2. unfold getattr. rewrite H1, H2. reflexivity. Qed.

Lemma base_label_code (k : nat) :
  (k < 12)%nat ->
  mro_lookup (nth k Body.Act_labels "") (mro Act)
  = Some (PyInt (Z.shiftl (Z.of_nat k) 4)).
Proof.
  intros H.
  do 12 (destruct k as [| k]; [reflexivity |]).
  lia.
Qed.

(** ** Masks of a labeled volume *)

Lemma leaf_mask cls a xs attr k :
  labeled a xs -> getattr cls attr = Ok (PyInt k) -> 0 <= k < 65536 ->
  indices_leaf cls a attr = Ok (mkmask (shape a) (map (near k) xs)).
Proof.
  intros (Hd & Hb & Hl & Hr) Hg Hk.
  unfold indices_leaf. rewrite Hg. simpl.
  unfold Np.less_int, Np.absolute, Np.sub_int. simpl. rewrite Hb. simpl.
  rewrite !map_map. f_equal. f_equal.
  apply map_ext_in. intros x Hx.
  apply uint16_match; [| exact Hk].
  rewrite Forall_forall in Hr. apply Hr. exact Hx.
Qed.

Lemma leaf_total cls a attr k :
  getattr cls attr = Ok (PyInt k) ->
  exists bs, indices_leaf cls a attr = Ok (mkmask (shape a) bs)
             /\ List.length bs = buf_length (buf a).
Proof.
  intros Hg. unfold indices_leaf. rewrite Hg. simpl.
  unfold Np.less_int, Np.absolute, Np.sub_int. simpl.
  destruct (buf a) as [xs | xs]; simpl; eexists; split; try reflexivity;
    rewrite !length_map; reflexivity.
Qed.

Lemma indices_not_bone cls a attr :
  attr <> "bone" -> indices cls a attr = indices_leaf cls a attr.
Proof.
  intros H. unfold indices.
  destruct (String.eqb_spec attr "bone") as [E | E]; [contradiction | reflexivity].
Qed.

Lemma indices_bone cls a :
  indices cls a "bone"
  = rbind (indices_leaf cls a "skull") (fun s =>
    rbind (indices_leaf cls a "marrow") (fun m =>
    rbind (indices_leaf cls a "dura") (fun d =>
    Ok (Np.greater_zero (Np.add_bool (Np.add_bool s m) d))))).
Proof. reflexivity. Qed.

Lemma greater_zero_id m : Np.greater_zero m = m.
Proof.
  destruct m as [sh bs]. unfold Np.greater_zero. simpl. f_equal.
  induction bs as [| b bs IH]; simpl; [reflexivity |].
  rewrite IH. destruct b; reflexivity.
Qed.

Lemma map_combine_map {A B C D} (f : A -> B) (g : A -> C) (h : B * C -> D) xs :
  map h (combine (map f xs) (map g xs)) = map (fun x => h (f x, g x)) xs.
Proof. induction xs as [| x xs IH]; simpl; [reflexivity | rewrite IH; reflexivity]. Qed.

Lemma bone_mask a xs :
  labeled a xs ->
  indices Act a "bone" = Ok (mkmask (shape a) (map bone_voxel xs)).
Proof.
  intros L. rewrite indices_bone.
  rewrite (leaf_mask Act a xs "skull" 112 L) by (reflexivity || lia).
  rewrite (leaf_mask Act a xs "marrow" 176 L) by (reflexivity || lia).
  rewrite (leaf_mask Act a xs "dura" 160 L) by (reflexivity || lia).
  simpl. rewrite greater_zero_id. unfold Np.add_bool. simpl.
  rewrite map_combine_map. simpl. rewrite map_combine_map. reflexivity.
Qed.

(** ** Properties of [Act.indices] *)

(** C5: for the base label [L] at position [k] of the twelve names, the
    class defines the value [k << 4], and on a labeled volume the mask
    [Act.indices(im, L)] is true at exactly the voxels [v] with
    [|v - (k << 4)| < 1]. *)
Theorem base_label_mask_is_unit_ball (k : nat) (im : ndarray) (xs : list Z) :
  (k < 12)%nat -> labeled im xs ->
  let L := nth k Body.Act_labels "" in
  let value := Z.shiftl (Z.of_nat k) 4 in
  getattr Act L = Ok (PyInt value) /\
  exists m,
    indices Act im L = Ok m /\ mask_shape m = shape im /\
    List.length (bits m) = List.length xs /\
    forall i v, nth_error xs i = Some v ->
                nth_error (bits m) i = Some (Z.abs (v - value) <? 1).
Proof.
  intros Hk HL L value.
  assert (Hg : getattr Act L = Ok (PyInt value)).
  { apply getattr_declared. apply base_label_code. exact Hk. }
  split; [exact Hg |].
  assert (Hnb : L <> "bone").
  { subst L. do 12 (destruct k as [| k]; [discriminate |]). lia. }
  assert (Hv : 0 <= value < 65536).
  { subst value. rewrite Z.shiftl_mul_pow2 by lia. lia. }
  exists (mkmask (shape im) (map (near value) xs)).
  rewrite (indices_not_bone _ _ _ Hnb).
  rewrite (leaf_mask Act im xs L value HL Hg Hv).
  simpl. repeat split.
  - apply length_map.
  - intros i v Hi. rewrite nth_error_map, Hi. reflexivity.
Qed.

(** C2: the mask of the composite label "bone" is the elementwise logical
    or of the masks of "skull", "marrow" and "dura", for every array. *)
Theorem bone_mask_is_union (im : ndarray) :
  exists s m d,
    indices Act im "skull" = Ok s /\
    indices Act im "marrow" = Ok m /\
    indices Act im "dura" = Ok d /\
    indices Act im "bone" = Ok (mask_union (mask_union s m) d) /\
    List.length (bits s) = buf_length (buf im) /\
    List.length (bits m) = buf_length (buf im) /\
    List.length (bits d) = buf_length (buf im).
Proof.
  destruct (leaf_total Act im "skull" 112) as (bs & Hs & Ls);
    [apply getattr_declared; reflexivity |].
  destruct (leaf_total Act im "marrow" 176) as (bm & Hm & Lm);
    [apply getattr_declared; reflexivity |].
  destruct (leaf_total Act im "dura" 160) as (bd & Hd & Ld);
    [apply getattr_declared; reflexivity |].
  exists (mkmask (shape im) bs), (mkmask (shape im) bm), (mkmask (shape im) bd).
  rewrite !indices_not_bone by discriminate.
  repeat split; try assumption.
  rewrite indices_bone, Hs, Hm, Hd. simpl.
  rewrite greater_zero_id. reflexivity.
Qed.

Lemma undeclared_lookup name ns :
  existsb (String.eqb name) (map fst ns) = false -> ns_lookup name ns = None.
Proof.
  induction ns as [| [k v] ns IH]; simpl; [reflexivity |].
  intros H. apply orb_false_iff in H. destruct H as [H1 H2].
  rewrite H1. apply IH. exact H2.
Qed.

(** C7: a name that the registry [Act] does not define (neither the class
    statement nor the interpreter binds it) makes [Act.indices] raise
    [AttributeError], whatever the volume; no mask is returned. *)
Theorem unknown_label_raises (attr : string) (im : ndarray) :
  declared_in_Act attr = false -> builtin_attr attr = None ->
  indices Act im attr = Raise (AttributeError attr).
Proof.
  intros Hd Hb.
  assert (Hl : mro_lookup attr (mro Act) = None).
  { cbn [mro mro_lookup body].
    rewrite (undeclared_lookup attr Body.Act Hd). reflexivity. }
  assert (Hnb : attr <> "bone").
  { intros ->. discriminate Hd. }
  rewrite (indices_not_bone _ _ _ Hnb).
  unfold indices_leaf. rewrite (getattr_undeclared _ _ Hl Hb). reflexivity.
Qed.

(** A name the class binds to something that is not a number fails in the
    subtraction instead. *)
Lemma docstring_is_not_a_label (im : ndarray) :
  indices Act im "__doc__" = Raise TypeError.
Proof. reflexivity. Qed.

(** ** The store *)

Lemma nth_error_snoc {A} (l : list A) x : nth_error (l ++ [x]) (List.length l) = Some x.
Proof. induction l as [| h t IH]; simpl; [reflexivity | exact IH]. Qed.

Lemma nth_error_grow {A} (l ext : list A) n x :
  nth_error l n = Some x -> nth_error (l ++ ext) n = Some x.
Proof.
  intros H. rewrite nth_error_app1; [exact H |].
  apply nth_error_Some. rewrite H. discriminate.
Qed.

Lemma replace_nth_length {A} n (x : A) l :
  List.length (replace_nth n x l) = List.length l.
Proof.
  revert n. induction l as [| h t IH]; intros [| n]; simpl; try reflexivity.
  rewrite IH. reflexivity.
Qed.

Lemma replace_nth_hit {A} n (x : A) l :
  (n < List.length l)%nat -> nth_error (replace_nth n x l) n = Some x.
Proof.
  revert n. induction l as [| h t IH]; intros [| n] H; simpl in *; try lia.
  - reflexivity.
  - apply IH. lia.
Qed.

Lemma replace_nth_miss {A} n m (x : A) l :
  n <> m -> nth_error (replace_nth n x l) m = nth_error l m.
Proof.
  revert n m. induction l as [| h t IH]; intros [| n] [| m] H; simpl;
    try reflexivity; try congruence.
  apply IH. congruence.
Qed.

Lemma replace_nth_twice {A} n (x y : A) l :
  replace_nth n y (replace_nth n x l) = replace_nth n y l.
Proof.
  revert n. induction l as [| h t IH]; intros [| n]; simpl; try reflexivity.
  rewrite IH. reflexivity.
Qed.

Lemma replace_nth_same {A} n (x : A) l :
  nth_error l n = Some x -> replace_nth n x l = l.
Proof.
  revert n. induction l as [| h t IH]; intros [| n] H; simpl in *;
    try discriminate.
  - congruence.
  - rewrite IH by exact H. reflexivity.
Qed.

Lemma replace_nth_snoc {A} (l : list A) x y :
  replace_nth (List.length l) y (l ++ [x]) = l ++ [y].
Proof. induction l as [| h t IH]; simpl; [reflexivity | rewrite IH; reflexivity]. Qed.

Lemma replace_nth_prefix {A} n (x : A) l k :
  (k <= n)%nat -> firstn k (replace_nth n x l) = firstn k l.
Proof.
  revert n k. induction l as [| h t IH]; intros [| n] [| k] H; simpl;
    try reflexivity; try lia.
  rewrite IH by lia. reflexivity.
Qed.

(** ** Running the primitives *)

Lemma bind_ok {A B} (c : M A) (k : A -> M B) w a w' :
  c w = (Ok a, w') -> bind c k w = k a w'.
Proof. intros H. unfold bind. rewrite H. reflexivity. Qed.

Lemma bind_raise {A B} (c : M A) (k : A -> M B) w e w' :
  c w = (Raise e, w') -> bind c k w = (Raise e, w').
Proof. intros H. unfold bind. rewrite H. reflexivity. Qed.

Lemma lift_bind {A B} (r : result A) (k : A -> M B) w :
  bind (lift r) k w = match r with Ok a => k a w | Raise e => (Raise e, w) end.
Proof. unfold bind, lift. destruct r; reflexivity. Qed.

Lemma log_bind {B} level msg (k : unit -> M B) w :
  bind (log_call level msg) k w
  = k tt (mkworld (heap w) (rng w) (journal w ++ [(level, msg)])).
Proof. reflexivity. Qed.

Lemma alloc_bind {B} a (k : nat -> M B) w :
  bind (alloc a) k w
  = k (List.length (heap w)) (mkworld (heap w ++ [a]) (rng w) (journal w)).
Proof. reflexivity. Qed.

Lemma ret_bind {A B} (a : A) (k : A -> M B) w : bind (ret a) k w = k a w.
Proof. reflexivity. Qed.

Lemma bind_assoc {A B C} (c : M A) (f : A -> M B) (g : B -> M C) w :
  bind (bind c f) g w = bind c (fun x => bind (f x) g) w.
Proof. unfold bind. destruct (c w) as [[x | e] w1]; reflexivity. Qed.

Lemma load_ok r w a : nth_error (heap w) r = Some a -> load r w = (Ok a, w).
Proof. intros H. unfold load. rewrite H. reflexivity. Qed.

Lemma store_ok r a w :
  (r < List.length (heap w))%nat ->
  store r a w = (Ok tt, mkworld (replace_nth r a (heap w)) (rng w) (journal w)).
Proof.
  intros H. unfold store.
  destruct (Nat.ltb_spec r (List.length (heap w))); [reflexivity | lia].
Qed.

Lemma setitem_at_ok r m v w a a' :
  nth_error (heap w) r = Some a -> Np.setitem a m v = Ok a' ->
  setitem_at r m v w
  = (Ok tt, mkworld (replace_nth r a' (heap w)) (rng w) (journal w)).
Proof.
  intros Hl Hs. unfold setitem_at.
  rewrite (bind_ok _ _ _ _ _ (load_ok _ _ _ Hl)).
  unfold bind, lift. rewrite Hs. apply store_ok.
  apply nth_error_Some. rewrite Hl. discriminate.
Qed.

(** ** Masked assignment, voxel by voxel *)

Lemma put_map {A B} (f : A -> B) (g : A -> bool) (v : B) xs :
  Np.put (map f xs) (map g xs) v = map (fun x => if g x then v else f x) xs.
Proof. induction xs as [| x xs IH]; simpl; [reflexivity | rewrite IH; reflexivity]. Qed.

Lemma repeat_map {A B} (z : B) (xs : list A) :
  repeat z (List.length xs) = map (fun _ => z) xs.
Proof. induction xs as [| x xs IH]; simpl; [reflexivity | rewrite IH; reflexivity]. Qed.

Lemma shape_eqb_refl sh : shape_eqb sh sh = true.
Proof. unfold shape_eqb. destruct (list_eq_dec Z.eq_dec sh sh); congruence. Qed.

Lemma setitem_int sh dt (f : Z -> Z) (g : Z -> bool) xs z :
  Np.setitem (mkarr sh dt (Ints (map f xs))) (mkmask sh (map g xs)) (PyInt z)
  = Ok (mkarr sh dt (Ints (map (fun x => if g x then wrap16 z else f x) xs))).
Proof.
  unfold Np.setitem. simpl. rewrite shape_eqb_refl. simpl.
  rewrite put_map. reflexivity.
Qed.

Lemma setitem_float sh dt (f : Z -> Q) (g : Z -> bool) xs q :
  Np.setitem (mkarr sh dt (Floats (map f xs))) (mkmask sh (map g xs)) (PyFloat q)
  = Ok (mkarr sh dt (Floats (map (fun x => if g x then q else f x) xs))).
Proof.
  unfold Np.setitem. simpl. rewrite shape_eqb_refl. simpl.
  rewrite put_map. reflexivity.
Qed.

Lemma setitem_float_into_int sh dt (f : Z -> Z) (g : Z -> bool) xs q :
  Np.setitem (mkarr sh dt (Ints (map f xs))) (mkmask sh (map g xs)) (PyFloat q)
  = Ok (mkarr sh dt (Ints (map (fun x => if g x then wrap16 (Qtrunc q) else f x) xs))).
Proof.
  unfold Np.setitem. simpl. rewrite shape_eqb_refl. simpl.
  rewrite put_map. reflexivity.
Qed.

(** ** The painting loop, voxel by voxel *)

Lemma selected_mask a xs attr :
  labeled a xs ->
  (attr = "bone" \/
   exists k, mro_lookup attr (mro Act) = Some (PyInt k) /\ 0 <= k < 65536) ->
  indices Act a attr = Ok (mkmask (shape a) (map (act_selects attr) xs)).
Proof.
  intros L [-> | (k & Hk & Hr)].
  - rewrite (bone_mask a xs L). reflexivity.
  - destruct (String.eqb_spec attr "bone") as [E | E].
    + subst attr. rewrite (bone_mask a xs L). reflexivity.
    + rewrite (indices_not_bone _ _ _ E).
      rewrite (leaf_mask Act a xs attr k L (getattr_declared _ _ _ Hk) Hr).
      f_equal. f_equal. apply map_ext. intros v.
      unfold act_selects.
      destruct (String.eqb_spec attr "bone") as [E' | _]; [contradiction |].
      unfold act_code, ns_int.
      cbn [mro mro_lookup body] in Hk.
      destruct (ns_lookup attr Body.Act) as [o |]; [| discriminate].
      inversion Hk. reflexivity.
Qed.

Lemma paint_loop_run tag P im res a xs attrs :
  labeled a xs -> im <> res -> Forall (paintable P) attrs ->
  forall w f,
    nth_error (heap w) im = Some a ->
    nth_error (heap w) res = Some (mkarr (shape a) uint16 (Ints (map f xs))) ->
    paint_loop tag P im res attrs w
    = (Ok tt,
       mkworld
         (replace_nth res
            (mkarr (shape a) uint16
                   (Ints (map (fun v => painted P attrs v (f v)) xs)))
            (heap w))
         (rng w) (journal w ++ paint_messages tag P attrs)).
Proof.
  intros L Hne HP. induction HP as [| attr rest Hattr Hrest IH]; intros w f Him Hres.
  - unfold paint_loop. cbn [for_each painted paint_messages map]. unfold ret.
    change (map (fun v => f v) xs) with (map f xs).
    rewrite app_nil_r, (replace_nth_same _ _ _ Hres). destruct w; reflexivity.
  - destruct Hattr as ((z & Hz) & Hsel).
    unfold paint_loop. cbn [for_each]. fold (paint_loop tag P im res rest).
    set (w1 := mkworld (heap w) (rng w)
                 (journal w ++ [("DEBUG",
                    (tag ++ ":" ++ attr ++ ":"
                         ++ NilZero.string_of_int (Z.to_int z))%string)])).
    set (arr := mkarr (shape a) uint16
                  (Ints (map (fun v => if act_selects attr v then wrap16 z else f v) xs))).
    set (w2 := mkworld (replace_nth res arr (heap w1)) (rng w1) (journal w1)).
    assert (Hbody :
      (v <- lift (getattr P attr) ;;
       d <- lift (format_d v) ;;
       log_call "DEBUG" (tag ++ ":" ++ attr ++ ":" ++ d) ;;;
       v0 <- lift (getattr P attr) ;;
       a0 <- load im ;;
       m <- lift (indices Act a0 attr) ;;
       setitem_at res m v0)%prog w = (Ok tt, w2)).
    { rewrite lift_bind, (getattr_declared _ _ _ Hz).
      rewrite lift_bind. cbn [format_d].
      rewrite log_bind. fold w1.
      rewrite lift_bind.
      rewrite (bind_ok _ _ _ _ _ (load_ok im w1 a Him)).
      rewrite lift_bind, (selected_mask a xs attr L Hsel).
      apply (setitem_at_ok res _ _ w1 _ arr Hres).
      apply setitem_int. }
    rewrite (bind_ok _ _ _ _ _ Hbody).
    assert (Hlt : (res < List.length (heap w))%nat).
    { apply nth_error_Some. rewrite Hres. discriminate. }
    rewrite (IH w2 (fun v => if act_selects attr v then wrap16 z else f v)).
    + f_equal. unfold w2, w1. cbn [heap rng journal].
      rewrite replace_nth_twice.
      unfold paint_messages. cbn [map painted].
      assert (Hp : profile_int P attr = z)
        by (unfold profile_int; rewrite Hz; reflexivity).
      rewrite Hp, <- app_assoc. reflexivity.
    + unfold w2, w1. cbn [heap]. rewrite replace_nth_miss by congruence. exact Him.
    + unfold w2, w1. cbn [heap]. apply replace_nth_hit. exact Hlt.
Qed.

(** ** The stages of [toPetMmr] before resampling *)

Lemma profile_attrs_ok P :
  is_profile P ->
  getattr P "attrs" = Ok (PyList (profile_attrs P)) /\
  Forall (paintable P) (profile_attrs P).
Proof.
  intros [-> | [-> | ->]]; (split; [reflexivity |]);
    (set (l := profile_attrs _); vm_compute in l; subst l);
    repeat (apply Forall_cons;
            [split;
             [eexists; vm_compute; reflexivity
             | first [left; reflexivity
                     | right; eexists; split; [vm_compute; reflexivity | lia]]] |]);
    apply Forall_nil.
Qed.

Lemma zeros_like_labeled a xs :
  labeled a xs ->
  Np.zeros_like a = mkarr (shape a) uint16 (Ints (map (fun _ => 0) xs)).
Proof.
  intros (Hd & _ & Hl & _). unfold Np.zeros_like, Np.zeros.
  rewrite Hd, <- Hl. cbn [is_float]. rewrite repeat_map. reflexivity.
Qed.

Lemma paint_run tag P im a xs attrs w :
  labeled a xs -> nth_error (heap w) im = Some a ->
  getattr P "attrs" = Ok (PyList attrs) -> Forall (paintable P) attrs ->
  paint tag P im w
  = (Ok (List.length (heap w)),
     mkworld
       (heap w ++ [mkarr (shape a) uint16
                         (Ints (map (fun v => painted P attrs v 0) xs))])
       (rng w) (journal w ++ paint_messages tag P attrs)).
Proof.
  intros L Him Hattrs HP. unfold paint.
  rewrite (bind_ok _ _ _ _ _ (load_ok im w a Him)).
  rewrite alloc_bind, lift_bind, Hattrs. cbn [rbind as_names].
  rewrite (zeros_like_labeled a xs L).
  assert (Hlt : (im < List.length (heap w))%nat).
  { apply nth_error_Some. rewrite Him. discriminate. }
  erewrite bind_ok.
  2:{ apply (paint_loop_run tag P im (List.length (heap w)) a xs attrs L);
      [lia | exact HP | |].
      - cbn [heap]. apply nth_error_grow. exact Him.
      - cbn [heap]. apply nth_error_snoc. }
  unfold ret. cbn [heap rng journal]. rewrite replace_nth_snoc. reflexivity.
Qed.

Lemma nonzero_mask a xs :
  labeled a xs ->
  Np.not_equal_int a 0 = mkmask (shape a) (map (fun x => negb (x =? 0)) xs).
Proof. intros (_ & Hb & _). unfold Np.not_equal_int. rewrite Hb. reflexivity. Qed.

Lemma muMap_run im a xs dt w :
  labeled a xs -> nth_error (heap w) im = Some a ->
  build_muMap im dt w
  = (Ok (List.length (heap w)),
     mkworld (heap w ++ [mkarr (shape a) dt (mu_buffer dt xs)])
             (rng w) (journal w)).
Proof.
  intros L Him. unfold build_muMap.
  rewrite (bind_ok _ _ _ _ _ (load_ok im w a Him)).
  rewrite alloc_bind.
  set (n := List.length (heap w)).
  pose proof L as (_ & _ & Hl & _).
  assert (Hz : Np.zeros (shape a) dt
               = mkarr (shape a) dt
                   (if is_float dt then Floats (map (fun _ => 0%Q) xs)
                    else Ints (map (fun _ => 0) xs))).
  { unfold Np.zeros. rewrite <- Hl, !repeat_map. reflexivity. }
  rewrite Hz. clear Hz.
  set (w1 := mkworld _ _ _).
  assert (Him1 : nth_error (heap w1) im = Some a).
  { unfold w1. cbn [heap]. apply nth_error_grow. exact Him. }
  rewrite (bind_ok _ _ _ _ _ (load_ok im w1 a Him1)).
  rewrite (nonzero_mask a xs L).
  destruct (is_float dt) eqn:Hf.
  - erewrite bind_ok.
    2:{ apply setitem_at_ok with (a := mkarr (shape a) dt (Floats (map (fun _ => 0%Q) xs))).
        - unfold w1, n. cbn [heap]. apply nth_error_snoc.
        - apply setitem_float. }
    set (w2 := mkworld _ _ _).
    assert (Him2 : nth_error (heap w2) im = Some a).
    { unfold w2, w1, n. cbn [heap]. rewrite replace_nth_snoc.
      apply nth_error_grow. exact Him. }
    rewrite (bind_ok _ _ _ _ _ (load_ok im w2 a Him2)).
    rewrite lift_bind, (bone_mask a xs L).
    erewrite bind_ok.
    2:{ eapply setitem_at_ok.
        - unfold w2, w1, n. cbn [heap]. rewrite replace_nth_snoc. apply nth_error_snoc.
        - apply setitem_float. }
    unfold ret, w2, w1, n. cbn [heap rng journal].
    rewrite !replace_nth_snoc. unfold mu_buffer. rewrite Hf. reflexivity.
  - erewrite bind_ok.
    2:{ apply setitem_at_ok with (a := mkarr (shape a) dt (Ints (map (fun _ => 0) xs))).
        - unfold w1, n. cbn [heap]. apply nth_error_snoc.
        - apply setitem_float_into_int. }
    set (w2 := mkworld _ _ _).
    assert (Him2 : nth_error (heap w2) im = Some a).
    { unfold w2, w1, n. cbn [heap]. rewrite replace_nth_snoc.
      apply nth_error_grow. exact Him. }
    rewrite (bind_ok _ _ _ _ _ (load_ok im w2 a Him2)).
    rewrite lift_bind, (bone_mask a xs L).
    erewrite bind_ok.
    2:{ eapply setitem_at_ok.
        - unfold w2, w1, n. cbn [heap]. rewrite replace_nth_snoc. apply nth_error_snoc.
        - apply setitem_float_into_int. }
    unfold ret, w2, w1, n. cbn [heap rng journal].
    rewrite !replace_nth_snoc. unfold mu_buffer. rewrite Hf. reflexivity.
Qed.

Lemma bone_voxel_nonzero v : bone_voxel v = true -> v <> 0.
Proof.
  unfold bone_voxel. rewrite !orb_true_iff, !near_iff.
  change (act_code "skull") with 112. change (act_code "marrow") with 176.
  change (act_code "dura") with 160. lia.
Qed.

(** C1: on a labeled volume and for a floating output dtype, the mu-map
    that [toPetMmr] builds before resampling holds [mu_bone_1_cm] at every
    voxel of the composite "bone" mask, [mu_tissue_1_cm] at every other
    nonzero voxel and 0 at every zero voxel; bone voxels are nonzero, so
    the later bone assignment is the one that remains there. *)
Theorem muMap_holds_bone_tissue_zero (w : world) (im : nat) (a : ndarray)
        (xs : list Z) (dt : dtype) :
  nth_error (heap w) im = Some a -> labeled a xs -> is_float dt = true ->
  exists bone ys w',
    indices Act a "bone" = Ok bone /\
    build_muMap im dt w = (Ok (List.length (heap w)), w') /\
    nth_error (heap w') (List.length (heap w))
    = Some (mkarr (shape a) dt (Floats ys)) /\
    forall i v, nth_error xs i = Some v ->
      (nth_error (bits bone) i = Some true ->
       v <> 0 /\ nth_error ys i = Some mu_bone_1_cm) /\
      (nth_error (bits bone) i = Some false -> v <> 0 ->
       nth_error ys i = Some mu_tissue_1_cm) /\
      (v = 0 -> nth_error ys i = Some 0%Q).
Proof.
  intros Him L Hf.
  exists (mkmask (shape a) (map bone_voxel xs)), (map mu_voxel xs).
  eexists. split; [apply (bone_mask a xs L) |].
  split; [apply (muMap_run im a xs dt w L Him) |].
  cbn [heap bits]. split.
  - rewrite nth_error_snoc. unfold mu_buffer. rewrite Hf. reflexivity.
  - intros i v Hi. rewrite !nth_error_map, Hi. cbn [option_map].
    unfold mu_voxel. split; [| split].
    + intros Hb. inversion Hb as [Hb']. rewrite Hb'.
      split; [apply bone_voxel_nonzero; exact Hb' | reflexivity].
    + intros Hb Hv. inversion Hb as [Hb']. rewrite Hb'.
      destruct (Z.eqb_spec v 0); [contradiction | reflexivity].
    + intros ->. reflexivity.
Qed.

(** C6: each painting loop of [toPetMmr] (for [Pet], [T1], [T2]) selects
    the voxels of a name with the codes of the class [Act] and writes the
    value of the profile: a voxel ends with the profile's value for the
    last listed name whose [Act] test it passes, or 0.  So in the PET
    volume a voxel 32 ([Act.greyMatter]) holds 128, a voxel 128 (the value
    of [Pet.greyMatter]) holds 0, and [Pet.skin] = 16 = [Act.csf] while a
    voxel 16 holds 0 and a voxel 96 ([Act.skin]) holds 16. *)
Theorem painting_selects_with_Act_codes (tag : string) (P : class) (w : world)
        (im : nat) (a : ndarray) (xs : list Z) :
  is_profile P -> nth_error (heap w) im = Some a -> labeled a xs ->
  (exists ys w',
      paint tag P im w = (Ok (List.length (heap w)), w') /\
      nth_error (heap w') (List.length (heap w))
      = Some (mkarr (shape a) uint16 (Ints ys)) /\
      forall i v, nth_error xs i = Some v ->
                  nth_error ys i = Some (painted P (profile_attrs P) v 0)) /\
  (forall attr v, attr <> "bone" ->
                  act_selects attr v = (Z.abs (v - act_code attr) <? 1)) /\
  (forall v, act_selects "bone" v
             = ((Z.abs (v - act_code "skull") <? 1)
                || (Z.abs (v - act_code "marrow") <? 1)
                || (Z.abs (v - act_code "dura") <? 1))) /\
  (act_code "greyMatter" = 32 /\ profile_int Pet "greyMatter" = 128 /\
   painted Pet (profile_attrs Pet) 32 0 = 128 /\
   painted Pet (profile_attrs Pet) 128 0 = 0) /\
  (profile_int Pet "skin" = 16 /\ act_code "csf" = 16 /\ act_code "skin" = 96 /\
   painted Pet (profile_attrs Pet) 16 0 = 0 /\
   painted Pet (profile_attrs Pet) 96 0 = 16).
Proof.
  intros HP Him L.
  destruct (profile_attrs_ok P HP) as (Hattrs & Hall).
  split.
  { eexists. eexists.
    split; [apply (paint_run tag P im a xs _ w L Him Hattrs Hall) |].
    cbn [heap]. split; [apply nth_error_snoc |].
    intros i v Hi. rewrite nth_error_map, Hi. reflexivity. }
  split.
  { intros attr v Hne. unfold act_selects.
    destruct (String.eqb_spec attr "bone"); [contradiction | reflexivity]. }
  repeat split; reflexivity.
Qed.

(** ** Overlap of label regions and the order of painting *)

Lemma act_code_injective a b :
  In a Body.Act_labels -> In b Body.Act_labels ->
  act_code a = act_code b -> a = b.
Proof.
  intros Ha Hb H.
  cbv [Body.Act_labels In] in Ha, Hb.
  repeat (destruct Ha as [<- | Ha]; [| try contradiction]);
    repeat (destruct Hb as [<- | Hb]; [| try contradiction]);
    first [reflexivity | vm_compute in H; discriminate H].
Qed.

Lemma base_label_not_bone a : In a Body.Act_labels -> a <> "bone".
Proof.
  intros Ha ->. cbv [Body.Act_labels In] in Ha.
  repeat (destruct Ha as [Ha | Ha]; [discriminate Ha |]). exact Ha.
Qed.

Lemma base_selects a v :
  In a Body.Act_labels -> (act_selects a v = true <-> v = act_code a).
Proof.
  intros Ha. unfold act_selects.
  destruct (String.eqb_spec a "bone") as [E | _].
  - exfalso. exact (base_label_not_bone a Ha E).
  - apply near_iff.
Qed.

Lemma base_labels_exclusive l v :
  (forall a, In a l -> In a Body.Act_labels) -> exclusive l v.
Proof.
  intros Hl a b Ha Hb Sa Sb.
  apply act_code_injective; try (apply Hl; assumption).
  apply (base_selects a v (Hl a Ha)) in Sa.
  apply (base_selects b v (Hl b Hb)) in Sb.
  congruence.
Qed.

Lemma painted_permutation P l l' :
  Permutation l l' ->
  forall v acc, exclusive l v -> painted P l v acc = painted P l' v acc.
Proof.
  induction 1 as [| x l l' Hp IH | x y l | l l' l'' Hp1 IH1 Hp2 IH2];
    intros v acc Hex.
  - reflexivity.
  - cbn [painted]. apply IH.
    intros a b Ha Hb. apply Hex; right; assumption.
  - cbn [painted]. f_equal.
    destruct (act_selects x v) eqn:Sx, (act_selects y v) eqn:Sy; try reflexivity.
    assert (E : x = y) by (apply Hex; simpl; auto).
    subst y. reflexivity.
  - rewrite IH1 by exact Hex. apply IH2.
    intros a b Ha Hb. apply Hex; eapply Permutation_in;
      try (apply Permutation_sym; exact Hp1); assumption.
Qed.

Lemma profile_base_attr P a :
  is_profile P -> In a (profile_attrs P) -> a <> "bone" ->
  In a Body.Act_labels.
Proof.
  intros [-> | [-> | ->]] Ha Hne; cbv [Body.Act_labels];
    (set (l := profile_attrs _) in Ha; vm_compute in l; subst l);
    cbv [In] in Ha |- *;
    repeat (destruct Ha as [<- | Ha]; [try congruence; tauto |]);
    contradiction.
Qed.

Lemma base_label_selectable a :
  In a Body.Act_labels ->
  exists k, mro_lookup a (mro Act) = Some (PyInt k) /\ 0 <= k < 65536.
Proof.
  intros Ha. cbv [Body.Act_labels In] in Ha.
  repeat (destruct Ha as [<- | Ha];
          [eexists; split; [vm_compute; reflexivity | lia] |]).
  contradiction.
Qed.

Lemma painted_app P l1 l2 v acc :
  painted P (l1 ++ l2) v acc = painted P l2 v (painted P l1 v acc).
Proof.
  revert acc. induction l1 as [| x l1 IH]; intros acc; [reflexivity |].
  cbn [app painted]. apply IH.
Qed.

Lemma painted_none P l v acc :
  (forall b, In b l -> act_selects b v = false) -> painted P l v acc = acc.
Proof.
  revert acc. induction l as [| x l IH]; intros acc H; [reflexivity |].
  cbn [painted]. rewrite (H x (or_introl eq_refl)).
  apply IH. intros b Hb. apply H. right. exact Hb.
Qed.

(** The loop leaves the value of the last name that selects the voxel. *)
Lemma painted_last P l1 x l2 v acc :
  act_selects x v = true ->
  (forall b, In b l2 -> act_selects b v = false) ->
  painted P (l1 ++ x :: l2) v acc = wrap16 (profile_int P x).
Proof.
  intros Sx H. rewrite painted_app. cbn [painted]. rewrite Sx.
  apply painted_none. exact H.
Qed.

Lemma profile_attrs_nodup P : is_profile P -> NoDup (profile_attrs P).
Proof.
  intros [-> | [-> | ->]];
    (set (l := profile_attrs _); vm_compute in l; subst l);
    repeat (constructor;
            [cbn [In]; intros H;
             repeat (destruct H as [H | H]; [discriminate H |]); exact H |]);
    constructor.
Qed.

Lemma profile_attrs_no_dura P : is_profile P -> ~ In "dura" (profile_attrs P).
Proof.
  intros [-> | [-> | ->]];
    (set (l := profile_attrs _); vm_compute in l; subst l);
    cbn [In]; intros H;
    repeat (destruct H as [H | H]; [discriminate H |]); exact H.
Qed.

Lemma bone_selects v : act_selects "bone" v = bone_voxel v.
Proof. reflexivity. Qed.

Lemma bone_voxel_part v :
  bone_voxel v = true ->
  v = act_code "skull" \/ v = act_code "marrow" \/ v = act_code "dura".
Proof.
  unfold bone_voxel. rewrite !orb_true_iff, !near_iff.
  intros [[H | H] | H]; auto.
Qed.

(** A listed base name whose region meets that of "bone" is "skull" or
    "marrow". *)
Lemma bone_meets P b v :
  is_profile P -> In b (profile_attrs P) -> b <> "bone" ->
  bone_voxel v = true -> act_selects b v = true ->
  b = "skull" \/ b = "marrow".
Proof.
  intros HP Hb Hne Bv Sb.
  pose proof (profile_base_attr P b HP Hb Hne) as Bb.
  apply (base_selects b v Bb) in Sb.
  assert (Hs : In "skull" Body.Act_labels) by (cbv; tauto).
  assert (Hm : In "marrow" Body.Act_labels) by (cbv; tauto).
  assert (Hd : In "dura" Body.Act_labels) by (cbv; tauto).
  destruct (bone_voxel_part v Bv) as [E | [E | E]].
  - left. apply act_code_injective; [exact Bb | exact Hs | congruence].
  - right. apply act_code_injective; [exact Bb | exact Hm | congruence].
  - exfalso. apply (profile_attrs_no_dura P HP).
    assert (Eb : b = "dura")
      by (apply act_code_injective; [exact Bb | exact Hd | congruence]).
    rewrite <- Eb. exact Hb.
Qed.

(** Two different listed names select a common voxel only if one is
    "bone" and the other "skull" or "marrow". *)
Lemma overlap_is_bone P a b v :
  is_profile P -> In a (profile_attrs P) -> In b (profile_attrs P) ->
  a <> b -> act_selects a v = true -> act_selects b v = true ->
  bone_and_part a b \/ bone_and_part b a.
Proof.
  intros HP Ha Hb Hab Sa Sb.
  destruct (string_dec a "bone") as [Ea | Ea].
  - left. split; [exact Ea |]. subst a.
    apply (bone_meets P b v HP Hb); [congruence | exact Sa | exact Sb].
  - destruct (string_dec b "bone") as [Eb | Eb].
    + right. split; [exact Eb |]. subst b.
      apply (bone_meets P a v HP Ha); [exact Ea | exact Sb | exact Sa].
    + exfalso. apply Hab.
      apply (base_labels_exclusive [a; b] v).
      * intros c [<- | [<- | []]];
          [apply (profile_base_attr P a HP Ha Ea)
          | apply (profile_base_attr P b HP Hb Eb)].
      * left; reflexivity.
      * right; left; reflexivity.
      * exact Sa.
      * exact Sb.
Qed.

Lemma listed_bone_last P v acc :
  is_profile P -> In "bone" (profile_attrs P) -> bone_voxel v = true ->
  painted P (profile_attrs P) v acc = wrap16 (profile_int P "bone").
Proof.
  intros HP Hb Bv.
  assert (Hc : act_selects "csf" v = false).
  { destruct (act_selects "csf" v) eqn:S; [| reflexivity].
    apply (base_selects "csf" v) in S; [| cbv; tauto].
    destruct (bone_voxel_part v Bv) as [E | [E | E]];
      rewrite E in S; vm_compute in S; discriminate S. }
  destruct HP as [-> | [-> | ->]].
  - exfalso. vm_compute in Hb.
    repeat (destruct Hb as [Hb | Hb]; [discriminate Hb |]). exact Hb.
  - change (profile_attrs T1)
      with (["whiteMatter"; "greyMatter"; "skin"; "skull"; "marrow"]
              ++ "bone" :: ["csf"]).
    apply painted_last; [exact Bv |].
    intros b [<- | []]. exact Hc.
  - change (profile_attrs T2)
      with (["whiteMatter"; "greyMatter"; "skin"; "skull"; "marrow"]
              ++ "bone" :: ["csf"]).
    apply painted_last; [exact Bv |].
    intros b [<- | []]. exact Hc.
Qed.

(** One voxel: every order of the names with "bone" after "skull" and
    "marrow" leaves what the listed order leaves. *)
Lemma order_free_voxel P attrs' v acc :
  is_profile P -> Permutation (profile_attrs P) attrs' -> bone_last attrs' ->
  painted P attrs' v acc = painted P (profile_attrs P) v acc.
Proof.
  intros HP Hperm Hlast.
  destruct (in_dec string_dec "bone" (profile_attrs P)) as [Hb | Hnb];
    [destruct (bone_voxel v) eqn:Bv |].
  - rewrite (listed_bone_last P v acc HP Hb Bv).
    pose proof (Permutation_in _ Hperm Hb) as Hb'.
    destruct (in_split _ _ Hb') as (l1 & l2 & E).
    destruct (Hlast l1 l2 E) as (Hsk & Hma).
    pose proof (Permutation_NoDup Hperm (profile_attrs_nodup P HP)) as Hnd.
    rewrite E in Hnd. apply NoDup_remove_2 in Hnd.
    rewrite E. apply painted_last; [exact Bv |].
    intros b Hb2. destruct (act_selects b v) eqn:S; [| reflexivity].
    exfalso.
    assert (Hin : In b (profile_attrs P)).
    { apply (Permutation_in _ (Permutation_sym Hperm)).
      rewrite E. apply in_or_app. right. right. exact Hb2. }
    assert (Hne : b <> "bone").
    { intros ->. apply Hnd. apply in_or_app. right. exact Hb2. }
    destruct (bone_meets P b v HP Hin Hne Bv S) as [-> | ->];
      [exact (Hsk Hb2) | exact (Hma Hb2)].
  - symmetry. apply painted_permutation; [exact Hperm |].
    intros a b Ha Hb0 Sa Sb.
    destruct (string_dec a b) as [E | E]; [exact E | exfalso].
    destruct (overlap_is_bone P a b v HP Ha Hb0 E Sa Sb) as [[-> _] | [-> _]].
    + rewrite bone_selects, Bv in Sa. discriminate Sa.
    + rewrite bone_selects, Bv in Sb. discriminate Sb.
  - symmetry. apply painted_permutation; [exact Hperm |].
    intros a b Ha Hb0 Sa Sb.
    destruct (string_dec a b) as [E | E]; [exact E | exfalso].
    destruct (overlap_is_bone P a b v HP Ha Hb0 E Sa Sb) as [[-> _] | [-> _]];
      contradiction.
Qed.

(** One marrow voxel: an order with "marrow" after "bone" leaves the
    value of "marrow". *)
Lemma marrow_after_bone_voxel P attrs' l1 l2 acc :
  is_profile P -> Permutation (profile_attrs P) attrs' ->
  attrs' = l1 ++ "bone" :: l2 -> In "marrow" l2 ->
  painted P attrs' (act_code "marrow") acc = wrap16 (profile_int P "marrow").
Proof.
  intros HP Hperm E Hm.
  destruct (in_split _ _ Hm) as (m1 & m2 & E2).
  pose proof (Permutation_NoDup Hperm (profile_attrs_nodup P HP)) as Hnd.
  assert (E3 : attrs' = (l1 ++ "bone" :: m1) ++ "marrow" :: m2).
  { rewrite E, E2, <- app_assoc. reflexivity. }
  assert (Hnd1 : ~ In "bone" (l1 ++ m1 ++ "marrow" :: m2)).
  { apply NoDup_remove_2. rewrite <- E2, <- E. exact Hnd. }
  rewrite E3 in Hnd |- *. apply NoDup_remove_2 in Hnd.
  apply painted_last.
  { apply (base_selects "marrow"); [cbv; tauto | reflexivity]. }
  intros b Hb. destruct (act_selects b (act_code "marrow")) eqn:S;
    [| reflexivity].
  exfalso.
  assert (Hin : In b (profile_attrs P)).
  { apply (Permutation_in _ (Permutation_sym Hperm)).
    rewrite E3. apply in_or_app. right. right. exact Hb. }
  assert (Hnb : b <> "bone").
  { intros ->. apply Hnd1. apply in_or_app. right.
    apply in_or_app. right. right. exact Hb. }
  assert (Hnm : b <> "marrow").
  { intros ->. apply Hnd. apply in_or_app. right. exact Hb. }
  pose proof (profile_base_attr P b HP Hin Hnb) as Bb.
  apply (base_selects b _ Bb) in S.
  apply Hnm. apply act_code_injective; [exact Bb | cbv; tauto | congruence].
Qed.

(** C3, as the code has it.  On a labeled volume the regions of two
    different names of a profile's [attrs] are disjoint, except that the
    region of the composite "bone", which T1 and T2 list, contains those
    of "skull" and "marrow".  Each painting loop leaves the same volume
    as the listed order for every order of [attrs] in which "bone" comes
    after "skull" and "marrow"; for Pet, which does not list "bone",
    that is every order.  For T1 and T2 an order with "marrow" after
    "bone" leaves another volume: each marrow voxel then holds the value
    of "marrow" and not that of "bone". *)
Theorem painting_order_free_up_to_bone (im : ndarray) (xs : list Z) :
  labeled im xs ->
  (forall P a b,
      is_profile P -> In a (profile_attrs P) -> In b (profile_attrs P) ->
      a <> b ->
      exists ma mb,
        indices Act im a = Ok ma /\ indices Act im b = Ok mb /\
        (bone_and_part a b ->
         forall i, nth_error (bits mb) i = Some true ->
                   nth_error (bits ma) i = Some true) /\
        (~ bone_and_part a b -> ~ bone_and_part b a ->
         forall i, ~ (nth_error (bits ma) i = Some true /\
                      nth_error (bits mb) i = Some true))) /\
  (forall P tag w imr res f attrs',
      is_profile P ->
      nth_error (heap w) imr = Some im ->
      nth_error (heap w) res = Some (mkarr (shape im) uint16 (Ints (map f xs))) ->
      imr <> res ->
      Permutation (profile_attrs P) attrs' -> bone_last attrs' ->
      fst (paint_loop tag P imr res attrs' w) = Ok tt /\
      fst (paint_loop tag P imr res (profile_attrs P) w) = Ok tt /\
      heap (snd (paint_loop tag P imr res attrs' w))
      = heap (snd (paint_loop tag P imr res (profile_attrs P) w))) /\
  (bone_last (profile_attrs Pet) /\ bone_last (profile_attrs T1) /\
   bone_last (profile_attrs T2) /\
   forall attrs', Permutation (profile_attrs Pet) attrs' -> bone_last attrs') /\
  (forall P tag w imr res f attrs' l1 l2 i,
      P = T1 \/ P = T2 ->
      nth_error (heap w) imr = Some im ->
      nth_error (heap w) res = Some (mkarr (shape im) uint16 (Ints (map f xs))) ->
      imr <> res ->
      Permutation (profile_attrs P) attrs' ->
      attrs' = l1 ++ "bone" :: l2 -> In "marrow" l2 ->
      nth_error xs i = Some (act_code "marrow") ->
      exists ys ys',
        nth_error (heap (snd (paint_loop tag P imr res (profile_attrs P) w))) res
        = Some (mkarr (shape im) uint16 (Ints ys)) /\
        nth_error (heap (snd (paint_loop tag P imr res attrs' w))) res
        = Some (mkarr (shape im) uint16 (Ints ys')) /\
        nth_error ys i = Some (profile_int P "bone") /\
        nth_error ys' i = Some (profile_int P "marrow") /\
        profile_int P "bone" <> profile_int P "marrow") /\
  (profile_int T1 "bone" = 48 /\ profile_int T1 "marrow" = 180 /\
   profile_int T2 "bone" = 200 /\ profile_int T2 "marrow" = 250).
Proof.
  intros L. split; [| split; [| split; [| split; [| repeat split]]]].
  - intros P a b HP Ha Hb Hab.
    destruct (profile_attrs_ok P HP) as (_ & Hall).
    rewrite Forall_forall in Hall.
    exists (mkmask (shape im) (map (act_selects a) xs)),
           (mkmask (shape im) (map (act_selects b) xs)).
    split; [apply selected_mask; [exact L | exact (proj2 (Hall a Ha))] |].
    split; [apply selected_mask; [exact L | exact (proj2 (Hall b Hb))] |].
    cbn [bits]. split.
    + intros [-> [-> | ->]] i Hi; rewrite nth_error_map in Hi |- *;
        (destruct (nth_error xs i) as [v |]; [| discriminate Hi]);
        cbn [option_map] in Hi |- *; inversion Hi as [Hv];
        rewrite Hv, bone_selects; unfold bone_voxel;
        unfold act_selects in Hv; cbn [String.eqb Ascii.eqb Bool.eqb] in Hv;
        rewrite Hv; rewrite ?orb_true_r; reflexivity.
    + intros N1 N2 i [H1 H2].
      rewrite nth_error_map in H1, H2.
      destruct (nth_error xs i) as [v |]; [| discriminate].
      cbn [option_map] in H1, H2. inversion H1. inversion H2.
      destruct (overlap_is_bone P a b v HP Ha Hb Hab) as [K | K];
        [assumption | assumption | exact (N1 K) | exact (N2 K)].
  - intros P tag w imr res f attrs' HP Him Hres Hne Hperm Hlast.
    destruct (profile_attrs_ok P HP) as (_ & Hall).
    pose proof (Permutation_Forall Hperm Hall) as Hall'.
    rewrite (paint_loop_run tag P imr res im xs attrs' L Hne Hall' w f Him Hres).
    rewrite (paint_loop_run tag P imr res im xs _ L Hne Hall w f Him Hres).
    cbn [fst snd heap]. repeat split.
    f_equal. f_equal. f_equal. apply map_ext. intros v.
    apply order_free_voxel; assumption.
  - assert (Hpet : ~ In "bone" (profile_attrs Pet)).
    { vm_compute. intros H.
      repeat (destruct H as [H | H]; [discriminate H |]). exact H. }
    assert (Hlisted : forall l1 l2,
               ["whiteMatter"; "greyMatter"; "skin"; "skull"; "marrow";
                "bone"; "csf"] = l1 ++ "bone" :: l2 ->
               ~ In "skull" l2 /\ ~ In "marrow" l2).
    { intros l1 l2 E.
      do 5 (destruct l1 as [| ? l1]; [discriminate E |];
            cbn [app] in E; inversion E as [[E0 E']]; clear E;
            rename E' into E; subst).
      destruct l1 as [| ? l1].
      - inversion E. subst l2. cbn [In]. split; intros [H | []]; discriminate H.
      - cbn [app] in E. inversion E as [[E0 E']]. subst.
        destruct l1 as [| ? l1]; [discriminate E' |].
        cbn [app] in E'. inversion E' as [[E1 E2]].
        destruct l1; discriminate E2. }
    split; [| split; [| split]].
    + intros l1 l2 E. exfalso. apply Hpet. rewrite E.
      apply in_or_app. right. left. reflexivity.
    + exact Hlisted.
    + exact Hlisted.
    + intros attrs' Hperm l1 l2 E. exfalso. apply Hpet.
      apply (Permutation_in _ (Permutation_sym Hperm)). rewrite E.
      apply in_or_app. right. left. reflexivity.
  - intros P tag w imr res f attrs' l1 l2 i HP Him Hres Hne Hperm E Hm Hi.
    assert (HP' : is_profile P) by (destruct HP; [right; left | right; right]; assumption).
    destruct (profile_attrs_ok P HP') as (_ & Hall).
    pose proof (Permutation_Forall Hperm Hall) as Hall'.
    rewrite (paint_loop_run tag P imr res im xs attrs' L Hne Hall' w f Him Hres).
    rewrite (paint_loop_run tag P imr res im xs _ L Hne Hall w f Him Hres).
    cbn [snd heap].
    assert (Hlt : (res < List.length (heap w))%nat).
    { apply nth_error_Some. rewrite Hres. discriminate. }
    rewrite !(replace_nth_hit _ _ _ Hlt).
    eexists. eexists. split; [reflexivity |]. split; [reflexivity |].
    rewrite !nth_error_map, Hi. cbn [option_map].
    assert (Hb : In "bone" (profile_attrs P)).
    { apply (Permutation_in _ (Permutation_sym Hperm)). rewrite E.
      apply in_or_app. right. left. reflexivity. }
    rewrite (listed_bone_last P (act_code "marrow") _ HP' Hb eq_refl).
    rewrite (marrow_after_bone_voxel P attrs' l1 l2 _ HP' Hperm E Hm).
    destruct HP as [-> | ->]; repeat split; discriminate.
Qed.

(** ** noise *)

Lemma nth_error_combine {A B} (l1 : list A) (l2 : list B) i x y :
  nth_error l1 i = Some x -> nth_error l2 i = Some y ->
  nth_error (combine l1 l2) i = Some (x, y).
Proof.
  revert l2 i. induction l1 as [| a l1 IH]; intros [| b l2] [| i] H1 H2;
    simpl in *; try discriminate.
  - congruence.
  - apply IH; assumption.
Qed.

Lemma to_floats_length b : List.length (Np.to_floats b) = buf_length b.
Proof. destruct b; simpl; [apply length_map | reflexivity]. Qed.

(** C8: a negative [n] makes [noise] raise [ValueError] (the spec's
    InvalidArgument) and [n == 0] makes it return its argument, the very
    same array; in both cases the store and the generator state are as
    before (for [n == 0] only the log may have grown by the warning). *)
Theorem noise_negative_raises_zero_returns_input (w : world) (im : nat)
        (n : Q) (warn_zero : bool) (sigma : Q) :
  ((n < 0)%Q ->
   noise im n warn_zero sigma w
   = (Raise (ValueError "Noise must be positive"), w)) /\
  ((n == 0)%Q ->
   exists w',
     noise im n warn_zero sigma w = (Ok im, w') /\
     heap w' = heap w /\ rng w' = rng w /\
     journal w'
     = journal w ++ (if warn_zero then [("WARNING", "zero noise")] else [])).
Proof.
  unfold noise. split.
  - intros Hn. destruct (Qlt_le_dec n 0) as [_ | Hge]; [reflexivity |].
    exfalso. apply (Qlt_not_le _ _ Hn). exact Hge.
  - intros Hn. destruct (Qlt_le_dec n 0) as [Hlt | _].
    + exfalso. rewrite Hn in Hlt. apply (Qlt_irrefl 0). exact Hlt.
    + rewrite (Qeq_eq_bool _ _ Hn).
      destruct warn_zero.
      * eexists. split; [reflexivity |]. cbn [heap rng journal]. auto.
      * exists w. split; [destruct w; reflexivity |].
        rewrite app_nil_r. auto.
Qed.

(** C9: for [n > 0], a generator whose draws lie in [0, 1] and a smoothing
    filter that is a weighted mean, [noise] returns a new array in which
    every voxel is the input voxel times [1 + n * s] for some [s] in
    [-1, 1]; where the input voxel is not zero the ratio of output to
    input lies in [1 - n, 1 + n]. *)
Theorem noise_scales_each_voxel_within_n (w : world) (im : nat) (a : ndarray)
        (n : Q) (warn_zero : bool) (sigma : Q) :
  weighted_mean_filter gaussian ->
  (0 < n)%Q ->
  nth_error (heap w) im = Some a ->
  buf_length (buf a) = size (shape a) ->
  (forall k, unit_interval (rng w k)) ->
  exists ys w',
    noise im n warn_zero sigma w = (Ok (List.length (heap w)), w') /\
    nth_error (heap w') (List.length (heap w))
    = Some (mkarr (shape a) float64 (Floats ys)) /\
    nth_error (heap w') im = Some a /\
    List.length ys = buf_length (buf a) /\
    forall i x, nth_error (Np.to_floats (buf a)) i = Some x ->
      exists y s,
        nth_error ys i = Some y /\
        (-1 <= s /\ s <= 1)%Q /\
        (y == x * (1 + n * s))%Q /\
        (~ (x == 0)%Q -> (1 - n <= y / x /\ y / x <= 1 + n)%Q).
Proof.
  intros Hg Hn Him Hlen Hrng. unfold noise.
  destruct (Qlt_le_dec n 0) as [Hlt | _].
  { exfalso. apply (Qlt_irrefl 0). apply (Qlt_trans _ n); assumption. }
  assert (Hnz : Qeq_bool n 0 = false).
  { destruct (Qeq_bool n 0) eqn:E; [| reflexivity].
    apply Qeq_bool_eq in E. rewrite E in Hn. exfalso. apply (Qlt_irrefl 0 Hn). }
  rewrite Hnz.
  rewrite (bind_ok _ _ _ _ _ (load_ok im w a Him)).
  unfold bind at 1. unfold random_rand at 1.
  set (us := map (rng w) (seq 0 (size (shape a)))).
  set (u := mkarr (shape a) float64 (Floats us)).
  assert (Hus : Forall unit_interval us).
  { apply Forall_forall. intros x Hx. apply in_map_iff in Hx.
    destruct Hx as (k & <- & _). apply Hrng. }
  destruct (Hg u sigma us eq_refl Hus) as (Hsh & rs & Hrs & Hrl & Hrr).
  set (aff := fun r : Q => (1 + n * (2 * r - 1))%Q).
  assert (Hmul :
    Np.multiply a
      (Np.map_float (fun x => 1 + x)%Q
         (Np.map_float (fun x => n * x)%Q
            (Np.map_float (fun x => 2 * x - 1)%Q (gaussian u sigma))))
    = Ok (mkarr (shape a) float64
            (Floats (map (fun p => (fst p * snd p)%Q)
                         (combine (Np.to_floats (buf a)) (map aff rs)))))).
  { unfold Np.multiply, Np.map_float. cbn [shape buf].
    rewrite Hsh. cbn [shape]. rewrite shape_eqb_refl, Hrs.
    cbn [Np.to_floats]. rewrite !map_map. reflexivity. }
  rewrite lift_bind, Hmul. unfold alloc. cbn [heap rng journal].
  eexists. eexists. split; [reflexivity |]. cbn [heap].
  assert (Hul : List.length us = size (shape a)).
  { unfold us. rewrite length_map, length_seq. reflexivity. }
  split; [apply nth_error_snoc |].
  split; [apply nth_error_grow; exact Him |].
  split.
  { rewrite length_map, length_combine, to_floats_length, length_map.
    rewrite Hrl, Hul, Hlen. apply Nat.min_id. }
  intros i x Hx.
  assert (Hi : (i < List.length rs)%nat).
  { rewrite Hrl, Hul, <- Hlen, <- to_floats_length.
    apply nth_error_Some. rewrite Hx. discriminate. }
  destruct (nth_error rs i) as [r |] eqn:Hr;
    [| apply nth_error_None in Hr; lia].
  assert (Hr01 : unit_interval r).
  { rewrite Forall_forall in Hrr. apply Hrr. eapply nth_error_In. exact Hr. }
  destruct Hr01 as [Hr0 Hr1].
  exists (x * aff r)%Q, (2 * r - 1)%Q.
  split.
  { rewrite nth_error_map.
    rewrite (nth_error_combine _ _ i x (aff r) Hx);
      [reflexivity | rewrite nth_error_map, Hr; reflexivity]. }
  split; [split; lra |].
  split; [unfold aff; reflexivity |].
  intros Hx0.
  assert (E : (x * aff r / x == aff r)%Q) by (field; exact Hx0).
  rewrite E. unfold aff. split; nra.
Qed.

(** ** What a computation may touch *)

Lemma frames_seq n0 k k1 k2 {A B} (c : M A) (f : A -> M B)
      (P : nat -> A -> Prop) (Q : nat -> B -> Prop) :
  frames n0 k1 c P ->
  (forall x n, (n0 <= n)%nat -> P n x ->
               frames n0 k2 (f x) (fun m y => m = (n + k1)%nat -> Q n y)) ->
  k = (k1 + k2)%nat ->
  frames n0 k (bind c f) Q.
Proof.
  intros Hc Hf -> w r w' Hn Hrun. unfold bind in Hrun.
  destruct (c w) as [[x | e] w1] eqn:E.
  - destruct (Hc w (Ok x) w1 Hn E) as (R1 & F1 & G1 & B1 & O1).
    destruct (O1 x eq_refl) as (L1 & Px).
    assert (Hn1 : (n0 <= List.length (heap w1))%nat) by lia.
    destruct (Hf x _ Hn Px w1 r w' Hn1 Hrun) as (R2 & F2 & G2 & B2 & O2).
    repeat split; try congruence; try lia.
    + destruct (O2 x0 H) as (L2 & _). lia.
    + destruct (O2 x0 H) as (_ & Qy). apply Qy. exact L1.
  - inversion Hrun; subst r w'.
    destruct (Hc w (Raise e) w1 Hn E) as (R1 & F1 & G1 & B1 & _).
    repeat split; try assumption; try lia; discriminate.
Qed.

Lemma frames_conseq n0 k {A} (c : M A) (P Q : nat -> A -> Prop) :
  frames n0 k c P -> (forall n x, P n x -> Q n x) -> frames n0 k c Q.
Proof.
  intros Hc HPQ w r w' Hn Hrun.
  destruct (Hc w r w' Hn Hrun) as (R & F & G & B & O).
  repeat split; try assumption.
  - apply (O x H).
  - apply HPQ. apply (O x H).
Qed.

Lemma frames_pure n0 {A} (c : M A) (P : nat -> A -> Prop) :
  (forall w, snd (c w) = w) ->
  (forall w x, fst (c w) = Ok x -> P (List.length (heap w)) x) ->
  frames n0 0 c P.
Proof.
  intros Hs Hp w r w' Hn Hrun.
  pose proof (Hs w) as E. pose proof (Hp w) as E'.
  rewrite Hrun in E, E'. cbn [fst snd] in E, E'. subst w'.
  repeat split; try lia. apply E'. exact H.
Qed.

Lemma frames_ret n0 {A} (a : A) (P : nat -> A -> Prop) :
  (forall n, P n a) -> frames n0 0 (ret a) P.
Proof.
  intros H. apply frames_pure; [reflexivity |].
  intros w x E. inversion E. subst x. apply H.
Qed.

Lemma frames_lift n0 {A} (r : result A) :
  frames n0 0 (lift r) (fun _ x => r = Ok x).
Proof. apply frames_pure; [reflexivity | intros w x E; exact E]. Qed.

Lemma frames_load n0 r : frames n0 0 (load r) (fun _ _ => True).
Proof.
  apply frames_pure; [| trivial].
  intros w. unfold load. destruct (nth_error (heap w) r); reflexivity.
Qed.

Lemma frames_log n0 level msg : frames n0 0 (log_call level msg) (fun _ _ => True).
Proof.
  intros w r w' Hn Hrun. unfold log_call in Hrun. inversion Hrun; subst.
  cbn [heap rng]. repeat split; trivial; lia.
Qed.

Lemma frames_alloc n0 a : frames n0 1 (alloc a) (fun n x => x = n).
Proof.
  intros w r w' Hn Hrun. unfold alloc in Hrun. inversion Hrun; subst.
  cbn [heap rng]. rewrite length_app. cbn [List.length].
  repeat split; try lia.
  - rewrite firstn_app. replace (n0 - List.length (heap w))%nat with O by lia.
    rewrite firstn_O, app_nil_r. reflexivity.
  - inversion H. reflexivity.
Qed.

Lemma frames_store n0 r a :
  (n0 <= r)%nat -> frames n0 0 (store r a) (fun _ _ => True).
Proof.
  intros Hr w res w' Hn Hrun. unfold store in Hrun.
  destruct (Nat.ltb r (List.length (heap w))); inversion Hrun; subst;
    cbn [heap rng]; rewrite ?replace_nth_length, ?replace_nth_prefix by exact Hr;
    repeat split; trivial; lia.
Qed.

Lemma frames_setitem_at n0 r m v :
  (n0 <= r)%nat -> frames n0 0 (setitem_at r m v) (fun _ _ => True).
Proof.
  intros Hr. unfold setitem_at.
  eapply frames_seq; [apply frames_load | | reflexivity].
  intros a n _ _.
  eapply frames_seq; [apply frames_lift | | reflexivity].
  intros a' n' _ _.
  eapply frames_conseq; [apply frames_store; exact Hr | trivial].
Qed.

Lemma frames_for_each n0 {A} (xs : list A) (body : A -> M unit) :
  (forall x, frames n0 0 (body x) (fun _ _ => True)) ->
  frames n0 0 (for_each xs body) (fun _ _ => True).
Proof.
  intros Hb. induction xs as [| x xs IH]; cbn [for_each].
  - apply frames_ret. trivial.
  - eapply frames_seq; [apply Hb | | reflexivity].
    intros _ n _ _. eapply frames_conseq; [exact IH | trivial].
Qed.

Lemma frames_paint_loop n0 tag P im res attrs :
  (n0 <= res)%nat ->
  frames n0 0 (paint_loop tag P im res attrs) (fun _ _ => True).
Proof.
  intros Hr. unfold paint_loop. apply frames_for_each. intros attr.
  eapply frames_seq; [apply frames_lift | | reflexivity]. intros v n _ _.
  eapply frames_seq; [apply frames_lift | | reflexivity]. intros d n1 _ _.
  eapply frames_seq; [apply frames_log | | reflexivity]. intros _ n2 _ _.
  eapply frames_seq; [apply frames_lift | | reflexivity]. intros v0 n3 _ _.
  eapply frames_seq; [apply frames_load | | reflexivity]. intros a n4 _ _.
  eapply frames_seq; [apply frames_lift | | reflexivity]. intros m n5 _ _.
  eapply frames_conseq; [apply frames_setitem_at; exact Hr | trivial].
Qed.

Lemma frames_paint n0 tag P im :
  frames n0 1 (paint tag P im) (fun n x => x = n).
Proof.
  unfold paint.
  eapply frames_seq; [apply frames_load | | reflexivity]. intros a n Hn _.
  eapply frames_seq; [apply frames_alloc | | reflexivity].
  intros res n1 Hn1 ->.
  eapply frames_seq; [apply frames_lift | | reflexivity]. intros attrs n2 _ _.
  eapply frames_seq; [apply frames_paint_loop; exact Hn1 | | reflexivity].
  intros _ n3 _ _.
  apply frames_ret. intros m. lia.
Qed.

Lemma frames_build_muMap n0 im dt :
  frames n0 1 (build_muMap im dt) (fun n x => x = n).
Proof.
  unfold build_muMap.
  eapply frames_seq; [apply frames_load | | reflexivity]. intros a n Hn _.
  eapply frames_seq; [apply frames_alloc | | reflexivity].
  intros mu n1 Hn1 ->.
  eapply frames_seq; [apply frames_load | | reflexivity]. intros a1 n2 _ _.
  eapply frames_seq; [apply frames_setitem_at; exact Hn1 | | reflexivity].
  intros _ n3 _ _.
  eapply frames_seq; [apply frames_load | | reflexivity]. intros a2 n4 _ _.
  eapply frames_seq; [apply frames_lift | | reflexivity]. intros m n5 _ _.
  eapply frames_seq; [apply frames_setitem_at; exact Hn1 | | reflexivity].
  intros _ n6 _ _.
  apply frames_ret. intros k. lia.
Qed.

Lemma frames_resizeToMmr n0 pad dt new_shape padLR padR arr :
  frames n0 1 (resizeToMmr pad dt new_shape padLR padR arr) (fun n x => x = n).
Proof.
  unfold resizeToMmr.
  eapply frames_seq; [apply frames_load | | reflexivity]. intros a n Hn _.
  eapply frames_seq; [apply frames_lift | | reflexivity]. intros a1 n0' _ _.
  eapply frames_seq with (k1 := O) (P := fun _ _ => True);
    [destruct pad;
     [eapply frames_conseq; [apply frames_lift | trivial]
     | apply frames_ret; trivial] | | reflexivity].
  intros a2 n1 Hn1 _.
  destruct (dtype_eqb (dtype_of a2) uint16);
    (eapply frames_conseq; [apply frames_alloc |]); intros m x ->; lia.
Qed.

Lemma frames_toPetMmr n0 im pad dt outres :
  frames n0 8 (toPetMmr im pad dt outres)
         (fun n refs => refs = [n + 4; n + 5; n + 6; n + 7]%nat).
Proof.
  unfold toPetMmr.
  eapply frames_seq; [apply frames_lift | | reflexivity]. intros out_res n _ _.
  eapply frames_seq; [apply frames_lift | | reflexivity]. intros out_shape n1 _ _.
  eapply frames_seq; [apply frames_paint | | reflexivity]. intros res n2 _ ->.
  eapply frames_seq; [apply frames_build_muMap | | reflexivity]. intros mu n3 _ ->.
  eapply frames_seq; [apply frames_paint | | reflexivity]. intros t1 n4 _ ->.
  eapply frames_seq; [apply frames_paint | | reflexivity]. intros t2 n5 _ ->.
  eapply frames_seq; [apply frames_load | | reflexivity]. intros a n6 _ _.
  eapply frames_seq; [apply frames_lift | | reflexivity]. intros rv n7 _ _.
  eapply frames_seq; [apply frames_lift | | reflexivity]. intros ns n8 _ _.
  eapply frames_seq; [apply frames_lift | | reflexivity]. intros sv n9 _ _.
  eapply frames_seq; [apply frames_lift | | reflexivity]. intros pads n10 _ _.
  cbn [map_m].
  eapply frames_seq; [apply frames_resizeToMmr | | reflexivity]. intros r1 m1 _ ->.
  eapply frames_seq with (k1 := 3%nat)
                         (P := fun n x => x = [n; n + 1; n + 2]%nat);
    [| | reflexivity].
  - eapply frames_seq; [apply frames_resizeToMmr | | reflexivity]. intros r2 m2 _ ->.
    eapply frames_seq with (k1 := 2%nat) (P := fun n x => x = [n; n + 1]%nat);
      [| | reflexivity].
    + eapply frames_seq; [apply frames_resizeToMmr | | reflexivity]. intros r3 m3 _ ->.
      eapply frames_seq with (k1 := 1%nat) (P := fun n x => x = [n]);
        [| | reflexivity].
      * eapply frames_seq; [apply frames_resizeToMmr | | reflexivity].
        intros r4 m4 _ ->.
        eapply frames_seq with (P := fun _ x => x = []);
          [apply frames_ret; intros; reflexivity | | reflexivity].
        intros ys m5 _ ->. apply frames_ret. intros. subst. reflexivity.
      * intros ys m4 _ ->. apply frames_ret. intros. subst.
      repeat (apply (f_equal2 cons); [lia |]). reflexivity.
    + intros ys m3 _ ->. apply frames_ret. intros. subst.
      repeat (apply (f_equal2 cons); [lia |]). reflexivity.
  - intros ys m2 _ ->. apply frames_ret. intros. subst.
      repeat (apply (f_equal2 cons); [lia |]). reflexivity.
Qed.

(** ** Resampling geometry *)

Lemma Qfloor_unique (q : Q) (z : Z) :
  (inject_Z z <= q)%Q -> (q < inject_Z (z + 1))%Q -> Qfloor q = z.
Proof.
  intros H1 H2.
  pose proof (Qfloor_le q) as F1. pose proof (Qlt_floor q) as F2.
  assert (A : (inject_Z z < inject_Z (Qfloor q + 1))%Q)
    by (eapply Qle_lt_trans; eassumption).
  assert (B : (inject_Z (Qfloor q) < inject_Z (z + 1))%Q)
    by (eapply Qle_lt_trans; eassumption).
  rewrite <- Zlt_Qlt in A, B. lia.
Qed.

Lemma Qfloor_sub_int (t : Q) (n : Z) : Qfloor (t - inject_Z n) = Qfloor t - n.
Proof.
  apply Qfloor_unique.
  - pose proof (Qfloor_le t). unfold Z.sub.
    rewrite inject_Z_plus, inject_Z_opp. lra.
  - pose proof (Qlt_floor t).
    replace (Qfloor t - n + 1) with ((Qfloor t + 1) + - n) by lia.
    rewrite inject_Z_plus, inject_Z_opp. lra.
Qed.

Lemma Qfloor_half (x : Q) : Qfloor (x / 2) = Qfloor x / 2.
Proof.
  pose proof (Z.div_mod (Qfloor x) 2 ltac:(lia)) as E.
  pose proof (Z.mod_pos_bound (Qfloor x) 2 ltac:(lia)) as B.
  apply Qfloor_unique.
  - pose proof (Qfloor_le x) as F.
    assert (L : 2 * (Qfloor x / 2) <= Qfloor x) by lia.
    rewrite Zle_Qle, inject_Z_mult in L.
    change (inject_Z 2) with 2%Q in L.
    apply Qle_shift_div_l; [reflexivity |]. lra.
  - pose proof (Qlt_floor x) as F.
    assert (L : Qfloor x + 1 <= 2 * (Qfloor x / 2 + 1)) by lia.
    rewrite Zle_Qle, inject_Z_mult in L.
    change (inject_Z 2) with 2%Q in L.
    apply Qlt_shift_div_r; [reflexivity |]. lra.
Qed.

(** One axis of lines 210 and 219: the widths for target extent [t] and
    resized extent [n]. *)
Lemma axis_pad (t : Q) (n : Z) :
  let x := (t - inject_Z n)%Q in
  let D := Qfloor t - n in
  fst (Np.divmod2 x) = D / 2 /\ Qtrunc (snd (Np.divmod2 x)) = D mod 2.
Proof.
  intros x D. unfold Np.divmod2. cbn [fst snd].
  assert (Hp : Qfloor (x / 2) = D / 2).
  { rewrite Qfloor_half. unfold x. rewrite Qfloor_sub_int. reflexivity. }
  split; [exact Hp |].
  set (p := Qfloor (x / 2)) in *.
  assert (Hle : (inject_Z p <= x / 2)%Q) by apply Qfloor_le.
  assert (H0 : (0 <= x - 2 * inject_Z p)%Q).
  { assert (x == 2 * (x / 2))%Q as E by (field; discriminate).
    rewrite E at 1. lra. }
  unfold Qtrunc.
  destruct (Qle_bool 0 (x - 2 * inject_Z p)) eqn:Hb.
  - assert (E : (x - 2 * inject_Z p == x - inject_Z (2 * p))%Q).
    { rewrite inject_Z_mult. reflexivity. }
    rewrite (Qfloor_comp _ _ E), Qfloor_sub_int.
    unfold x. rewrite Qfloor_sub_int. fold D. rewrite Hp.
    pose proof (Z.div_mod D 2 ltac:(lia)). lia.
  - exfalso. apply Qle_bool_iff in H0. congruence.
Qed.

Lemma pad_run x widths :
  List.length widths = List.length (shape x) ->
  Forall (fun w => 0 <= fst w /\ 0 <= snd w) widths ->
  exists c, Np.pad x widths = Ok c /\
            shape c = Np.padded_shape (shape x) widths /\
            dtype_of c = dtype_of x.
Proof.
  intros Hl Hf. unfold Np.pad. rewrite Hl, Nat.eqb_refl. cbn [negb].
  assert (E : existsb (fun w => (fst w <? 0) || (snd w <? 0)) widths = false).
  { apply not_true_is_false. intros E.
    apply existsb_exists in E. destruct E as (w & Hin & Hw).
    rewrite Forall_forall in Hf. specialize (Hf w Hin).
    apply orb_true_iff in Hw. rewrite !Z.ltb_lt in Hw. lia. }
  rewrite E. eexists. split; [reflexivity |]. split; reflexivity.
Qed.

Lemma resizeToMmr_run dt ns pl pr arr b w :
  resize_contract resize ->
  nth_error (heap w) arr = Some b ->
  List.length ns = List.length (shape b) ->
  Forall (fun n => 0 < n) (shape b) -> Forall (fun n => 0 < n) ns ->
  List.length (pad_widths pl pr) = List.length ns ->
  Forall (fun w => 0 <= fst w /\ 0 <= snd w) (pad_widths pl pr) ->
  exists r p,
    resize b ns = Ok r /\ shape r = ns /\
    Np.pad r (pad_widths pl pr) = Ok p /\
    shape p = Np.padded_shape ns (pad_widths pl pr) /\
    resizeToMmr true dt ns pl pr arr w
    = (Ok (List.length (heap w)),
       mkworld (heap w ++ [Np.astype p dt]) (rng w) (journal w)).
Proof.
  intros Hc Hb Hn Hpb Hpn Hl Hf. unfold resizeToMmr.
  rewrite (bind_ok _ _ _ _ _ (load_ok arr w b Hb)).
  destruct (Hc b ns Hn Hpb Hpn) as (r & Hr & Hs & Hd).
  destruct (pad_run r (pad_widths pl pr)) as (p & Hp & Hsh & Hdt);
    [rewrite Hs; exact Hl | exact Hf |].
  rewrite lift_bind, Hr, lift_bind, Hp.
  assert (Hne : dtype_eqb (dtype_of p) uint16 = false).
  { rewrite Hdt. destruct (dtype_of r); [contradiction | |]; reflexivity. }
  rewrite Hne. exists r, p.
  split; [reflexivity |]. split; [exact Hs |]. split; [exact Hp |].
  split; [rewrite Hsh, Hs; reflexivity | reflexivity].
Qed.

(** A resized extent of at least 1 comes from an extent of at least 1. *)
Lemma rint_pos (q : Q) : 0 < Np.rint q -> (0 < q)%Q.
Proof.
  unfold Np.rint. pose proof (Qfloor_le q) as F.
  destruct (Qcompare_spec (q - inject_Z (Qfloor q)) (1 # 2)) as [E | E | E];
    intros H.
  - assert (B : 0 <= Qfloor q) by (destruct (Z.even (Qfloor q)); lia).
    rewrite Zle_Qle in B. change (inject_Z 0) with 0%Q in B. lra.
  - rewrite Zlt_Qlt in H. change (inject_Z 0) with 0%Q in H. lra.
  - assert (B : 0 <= Qfloor q) by lia.
    rewrite Zle_Qle in B. change (inject_Z 0) with 0%Q in B. lra.
Qed.

Lemma new_shape_3d s0 s1 s2 r0 r1 r2 :
  new_shape_of [s0; s1; s2] [r0; r1; r2]
  = Ok [Np.rint (inject_Z s0 * 0.5 / r0); Np.rint (inject_Z s1 * 0.5 / r1);
        Np.rint (inject_Z s2 * 0.5 / r2)].
Proof.
  unfold new_shape_of.
  rewrite (getattr_declared Res "brainweb" (PyArray Body.Res_brainweb) eq_refl).
  reflexivity.
Qed.

Lemma new_shape_positive sh outres ns :
  List.length sh = 3%nat -> In outres system_names ->
  new_shape_of sh (table Res outres) = Ok ns ->
  Forall (fun n => 0 < n) ns ->
  List.length ns = 3%nat /\ Forall (fun n => 0 < n) sh.
Proof.
  intros Hl Hin Hns Hpos.
  destruct sh as [| s0 [| s1 [| s2 [| ? ?]]]]; try discriminate Hl.
  assert (Ht : exists r0 r1 r2,
             table Res outres = [r0; r1; r2] /\
             (0 < r0 /\ 0 < r1 /\ 0 < r2)%Q).
  { destruct Hin as [<- | [<- | [<- | []]]];
      (eexists; eexists; eexists; split; [reflexivity |]);
      repeat split; reflexivity. }
  destruct Ht as (r0 & r1 & r2 & Et & P0 & P1 & P2).
  rewrite Et, new_shape_3d in Hns. inversion Hns. subst ns.
  split; [reflexivity |].
  inversion Hpos as [| ? ? H0 Hpos1]; subst.
  inversion Hpos1 as [| ? ? H1 Hpos2]; subst.
  inversion Hpos2 as [| ? ? H2 _]; subst.
  apply rint_pos in H0. apply rint_pos in H1. apply rint_pos in H2.
  assert (K : forall s r, (0 < r)%Q -> (0 < inject_Z s * 0.5 / r)%Q -> 0 < s).
  { intros s r Pr Hq. rewrite Zlt_Qlt.
    assert (E : (inject_Z s * 0.5 == (inject_Z s * 0.5 / r) * r)%Q)
      by (field; lra).
    assert (M : (0 < (inject_Z s * 0.5 / r) * r)%Q).
    { apply Qmult_lt_0_compat; assumption. }
    rewrite <- E in M. change (inject_Z 0) with 0%Q. lra. }
  constructor; [exact (K _ _ P0 H0) |].
  constructor; [exact (K _ _ P1 H1) |].
  constructor; [exact (K _ _ P2 H2) | constructor].
Qed.

Lemma nth_error_after {A} (l ext : list A) j :
  nth_error (l ++ ext) (List.length l + j) = nth_error ext j.
Proof.
  rewrite nth_error_app2 by lia. f_equal. lia.
Qed.

Lemma table_entries outres :
  In outres system_names ->
  getattr Res outres = Ok (PyArray (table Res outres)) /\
  getattr Shape outres = Ok (PyArray (table Shape outres)) /\
  List.length (table Shape outres) = 3%nat.
Proof.
  unfold system_names. cbn [In].
  intros [<- | [<- | [<- | []]]]; repeat split; reflexivity.
Qed.

(** ** Properties of the whole of [toPetMmr] *)

Ltac find_array :=
  cbn [heap];
  repeat first [assumption | apply nth_error_snoc | apply nth_error_grow].

Lemma axis_widths_sum t n :
  n + fst (axis_widths t n) + snd (axis_widths t n) = Qfloor t.
Proof.
  unfold axis_widths. cbn [fst snd].
  pose proof (Z.div_mod (Qfloor t - n) 2 ltac:(lia)). lia.
Qed.

Lemma axis_widths_nonneg t n :
  n <= Qfloor t -> 0 <= fst (axis_widths t n) /\ 0 <= snd (axis_widths t n).
Proof.
  intros H. unfold axis_widths. cbn [fst snd].
  pose proof (Z.mod_pos_bound (Qfloor t - n) 2 ltac:(lia)).
  assert (0 <= (Qfloor t - n) / 2) by (apply Z.div_pos; lia).
  lia.
Qed.

Lemma pads_of_three t0 t1 t2 n0 n1 n2 :
  exists pl pr,
    pads_of [t0; t1; t2] [n0; n1; n2] = Ok (pl, pr) /\
    pad_widths pl pr
    = [axis_widths t0 n0; axis_widths t1 n1; axis_widths t2 n2].
Proof.
  eexists. eexists. split; [reflexivity |].
  unfold pad_widths. cbn [map combine fst snd].
  destruct (axis_pad t0 n0) as [A0 B0].
  destruct (axis_pad t1 n1) as [A1 B1].
  destruct (axis_pad t2 n2) as [A2 B2].
  cbv zeta in A0, B0, A1, B1, A2, B2.
  rewrite A0, B0, A1, B1, A2, B2. reflexivity.
Qed.


Lemma frames_prefix n0 k {A} (c : M A) P w :
  frames n0 k c P -> n0 = List.length (heap w) ->
  exists ext, heap (snd (c w)) = heap w ++ ext.
Proof.
  intros Hf ->. destruct (c w) as [r w'] eqn:E.
  destruct (Hf w r w' (le_n _) E) as (_ & F & _).
  rewrite firstn_all in F. cbn [snd].
  exists (skipn (List.length (heap w)) (heap w')).
  pose proof (firstn_skipn (List.length (heap w)) (heap w')) as S.
  rewrite F in S. symmetry. exact S.
Qed.

(** C10: whatever its arguments and its outcome, [toPetMmr] leaves every
    array that was in the store before the call, its input among them, as
    it was, and does not draw from the generator; when it returns, the
    four references are distinct, new (beyond everything allocated
    before), and a later call neither returns nor changes them. *)
Theorem toPetMmr_reads_input_and_allocates_outputs
        (w : world) (im : nat) (pad : bool) (dt : dtype) (outres : string) :
  let out := toPetMmr im pad dt outres w in
  let n := List.length (heap w) in
  (exists ext, heap (snd out) = heap w ++ ext) /\
  (forall r, (r < n)%nat -> nth_error (heap (snd out)) r = nth_error (heap w) r) /\
  rng (snd out) = rng w /\
  (forall refs, fst out = Ok refs ->
     refs = [n + 4; n + 5; n + 6; n + 7]%nat /\
     List.length (heap (snd out)) = (n + 8)%nat /\
     NoDup refs /\
     Forall (fun r => (n <= r < List.length (heap (snd out)))%nat) refs) /\
  (forall im2 pad2 dt2 outres2 refs refs2,
     let out2 := toPetMmr im2 pad2 dt2 outres2 (snd out) in
     fst out = Ok refs -> fst out2 = Ok refs2 ->
     forall r, In r refs ->
               ~ In r refs2 /\
               nth_error (heap (snd out2)) r = nth_error (heap (snd out)) r).
Proof.
  intros out n.
  assert (Hpre : forall w0 im0 pad0 dt0 outres0,
             let o := toPetMmr im0 pad0 dt0 outres0 w0 in
             (exists ext, heap (snd o) = heap w0 ++ ext) /\
             rng (snd o) = rng w0 /\
             forall refs, fst o = Ok refs ->
               refs = [List.length (heap w0) + 4; List.length (heap w0) + 5;
                       List.length (heap w0) + 6; List.length (heap w0) + 7]%nat /\
               List.length (heap (snd o)) = (List.length (heap w0) + 8)%nat).
  { intros w0 im0 pad0 dt0 outres0 o.
    pose proof (frames_toPetMmr (List.length (heap w0)) im0 pad0 dt0 outres0) as Hf.
    split; [apply (frames_prefix _ _ _ _ w0 Hf eq_refl) |].
    subst o. destruct (toPetMmr im0 pad0 dt0 outres0 w0) as [r w'] eqn:E.
    destruct (Hf w0 r w' (le_n _) E) as (R & _ & _ & _ & O).
    cbn [fst snd]. split; [exact R |].
    intros refs ->. destruct (O refs eq_refl) as (Ln & ->). auto. }
  destruct (Hpre w im pad dt outres) as ((ext & Hext) & Hrng & Hok).
  fold out in Hext, Hrng, Hok. fold n in Hok.
  split; [exists ext; exact Hext |].
  split.
  { intros r Hr. rewrite Hext. apply nth_error_app1. exact Hr. }
  split; [exact Hrng |].
  split.
  { intros refs Hrefs. destruct (Hok refs Hrefs) as (-> & Ln).
    split; [reflexivity |]. split; [exact Ln |]. split.
    - repeat constructor; cbn [In]; lia.
    - rewrite Ln. repeat constructor; lia. }
  intros im2 pad2 dt2 outres2 refs refs2 out2 Hrefs Hrefs2 r Hr.
  destruct (Hok refs Hrefs) as (-> & Ln).
  destruct (Hpre (snd out) im2 pad2 dt2 outres2) as ((ext2 & Hext2) & _ & Hok2).
  fold out2 in Hext2, Hok2.
  destruct (Hok2 refs2 Hrefs2) as (-> & _).
  rewrite Ln. split.
  - cbn [In] in Hr |- *. lia.
  - rewrite Hext2. apply nth_error_app1. rewrite Ln. cbn [In] in Hr. lia.
Qed.

(** ** The painted volumes in closed form *)

Lemma selects_base attr v :
  attr <> "bone" -> act_selects attr v = (v =? act_code attr).
Proof.
  intros H. unfold act_selects.
  destruct (String.eqb_spec attr "bone"); [contradiction | apply near_eqb].
Qed.

Lemma selects_bone v :
  act_selects "bone" v = ((v =? 112) || (v =? 176) || (v =? 160)).
Proof.
  unfold act_selects, bone_voxel. cbn [String.eqb Ascii.eqb Bool.eqb].
  rewrite !near_eqb. reflexivity.
Qed.

Lemma painted_table P v :
  is_profile P -> painted P (profile_attrs P) v 0 = profile_table P v.
Proof.
  intros [-> | [-> | ->]];
    (set (l := profile_attrs _); vm_compute in l; subst l);
    cbn [painted profile_table];
    rewrite ?selects_bone, ?selects_base by discriminate;
    repeat match goal with
           | |- context [profile_int ?P ?n] =>
               let z := eval vm_compute in (profile_int P n) in
               change (profile_int P n) with z
           | |- context [act_code ?n] =>
               let z := eval vm_compute in (act_code n) in
               change (act_code n) with z
           | |- context [wrap16 ?k] =>
               let z := eval vm_compute in (wrap16 k) in
               change (wrap16 k) with z
           end;
    unfold pet_value, t1_value, t2_value;
    repeat match goal with
           | |- context [?x =? ?k] =>
               destruct (Z.eqb_spec x k); [subst; reflexivity |]
           end;
    reflexivity.
Qed.

(** X1: for each profile the painted volume is, voxel by voxel, the table
    [pet_value], [t1_value] or [t2_value] of the input voxel. *)
Theorem painted_volume_is_table (tag : string) (P : class) (w : world)
        (im : nat) (a : ndarray) (xs : list Z) :
  is_profile P -> nth_error (heap w) im = Some a -> labeled a xs ->
  exists w',
    paint tag P im w = (Ok (List.length (heap w)), w') /\
    nth_error (heap w') (List.length (heap w))
    = Some (mkarr (shape a) uint16 (Ints (map (profile_table P) xs))) /\
    nth_error (heap w') im = Some a.
Proof.
  intros HP Him L.
  destruct (profile_attrs_ok P HP) as (Hattrs & Hall).
  eexists. split; [apply (paint_run tag P im a xs _ w L Him Hattrs Hall) |].
  cbn [heap]. split.
  - rewrite nth_error_snoc. do 3 f_equal. apply map_ext.
    intros v. apply painted_table. exact HP.
  - apply nth_error_grow. exact Him.
Qed.

(** ** Voxels that carry no code of the registry *)

Lemma base_code_listed attr :
  In attr Body.Act_labels -> In (act_code attr) Body.Act_codes.
Proof.
  intros H. cbv [Body.Act_labels In] in H.
  repeat (destruct H as [<- | H]; [vm_compute; tauto |]).
  contradiction.
Qed.

Lemma off_code_not_selected attr v :
  In attr ("bone" :: Body.Act_labels) -> ~ In v Body.Act_codes ->
  act_selects attr v = false.
Proof.
  intros [<- | Ha] Hv.
  - rewrite selects_bone.
    destruct (Z.eqb_spec v 112) as [-> | _]; [exfalso; apply Hv; vm_compute; tauto |].
    destruct (Z.eqb_spec v 176) as [-> | _]; [exfalso; apply Hv; vm_compute; tauto |].
    destruct (Z.eqb_spec v 160) as [-> | _]; [exfalso; apply Hv; vm_compute; tauto |].
    reflexivity.
  - rewrite (selects_base attr v (base_label_not_bone attr Ha)).
    destruct (Z.eqb_spec v (act_code attr)) as [-> | _]; [| reflexivity].
    exfalso. apply Hv. apply base_code_listed. exact Ha.
Qed.

Lemma off_code_table P v :
  ~ In v Body.Act_codes -> profile_table P v = 0.
Proof.
  intros Hv.
  assert (H : forall k, In k Body.Act_codes -> (v =? k) = false).
  { intros k Hk. destruct (Z.eqb_spec v k) as [-> | _]; [contradiction | reflexivity]. }
  destruct P; cbn [profile_table]; try reflexivity;
    unfold pet_value, t1_value, t2_value;
    rewrite ?(H 48), ?(H 32), ?(H 96), ?(H 112), ?(H 176), ?(H 160), ?(H 16)
      by (vm_compute; tauto);
    reflexivity.
Qed.

Lemma off_code_mu v : ~ In v Body.Act_codes -> mu_voxel v = mu_tissue_1_cm.
Proof.
  intros Hv. unfold mu_voxel.
  pose proof (off_code_not_selected "bone" v (or_introl eq_refl) Hv) as Hb.
  unfold act_selects in Hb. cbn [String.eqb Ascii.eqb Bool.eqb] in Hb.
  rewrite Hb.
  destruct (Z.eqb_spec v 0) as [-> | _]; [| reflexivity].
  exfalso. apply Hv. vm_compute. tauto.
Qed.

(** X2: a voxel whose value is none of the twelve codes of [Act] (for
    instance a code with one of its low four bits set) is in no mask of
    [Act.indices], holds 0 in the PET, T1 and T2 volumes, and holds the
    tissue coefficient in the mu-map. *)
Theorem off_code_voxel_is_blank_but_attenuates
        (w : world) (im : nat) (a : ndarray) (xs : list Z) (i : nat) (v : Z) :
  nth_error (heap w) im = Some a -> labeled a xs ->
  nth_error xs i = Some v -> ~ In v Body.Act_codes ->
  (forall attr, In attr ("bone" :: Body.Act_labels) ->
     exists m, indices Act a attr = Ok m /\ nth_error (bits m) i = Some false) /\
  (forall tag P, is_profile P ->
     exists ys w',
       paint tag P im w = (Ok (List.length (heap w)), w') /\
       nth_error (heap w') (List.length (heap w))
       = Some (mkarr (shape a) uint16 (Ints ys)) /\
       nth_error ys i = Some 0) /\
  (forall dt, is_float dt = true ->
     exists ys w',
       build_muMap im dt w = (Ok (List.length (heap w)), w') /\
       nth_error (heap w') (List.length (heap w))
       = Some (mkarr (shape a) dt (Floats ys)) /\
       nth_error ys i = Some mu_tissue_1_cm).
Proof.
  intros Him L Hi Hv. split; [| split].
  - intros attr Ha. eexists. split.
    + apply (selected_mask a xs attr L).
      destruct Ha as [<- | Ha]; [left; reflexivity |].
      right. apply base_label_selectable. exact Ha.
    + cbn [bits]. rewrite nth_error_map, Hi. cbn [option_map].
      rewrite (off_code_not_selected attr v Ha Hv). reflexivity.
  - intros tag P HP.
    destruct (profile_attrs_ok P HP) as (Hattrs & Hall).
    eexists. eexists.
    split; [apply (paint_run tag P im a xs _ w L Him Hattrs Hall) |].
    cbn [heap]. split; [apply nth_error_snoc |].
    rewrite nth_error_map, Hi. cbn [option_map].
    rewrite (painted_table P v HP), (off_code_table P v Hv). reflexivity.
  - intros dt Hf. eexists. eexists.
    split; [apply (muMap_run im a xs dt w L Him) |].
    cbn [heap]. split.
    + rewrite nth_error_snoc. unfold mu_buffer. rewrite Hf. reflexivity.
    + rewrite nth_error_map, Hi. cbn [option_map].
      rewrite (off_code_mu v Hv). reflexivity.
Qed.

(** X3: on a labeled volume the "bone" mask is true exactly at the voxels
    equal to the code of skull (112), marrow (176) or dura (160); the
    class attribute [Act.bone] = 240 plays no part, a voxel 240 is not
    bone. *)
Theorem bone_mask_ignores_Act_bone (im : ndarray) (xs : list Z) :
  labeled im xs ->
  getattr Act "bone" = Ok (PyInt 240) /\
  exists m,
    indices Act im "bone" = Ok m /\
    forall i v, nth_error xs i = Some v ->
      nth_error (bits m) i = Some ((v =? 112) || (v =? 176) || (v =? 160)) /\
      (v = 240 -> nth_error (bits m) i = Some false).
Proof.
  intros L. split; [apply getattr_declared; reflexivity |].
  eexists. split; [apply (bone_mask im xs L) |].
  intros i v Hi. cbn [bits]. rewrite nth_error_map, Hi. cbn [option_map].
  assert (E : bone_voxel v = ((v =? 112) || (v =? 176) || (v =? 160))).
  { unfold bone_voxel. rewrite !near_eqb. reflexivity. }
  rewrite E. split; [reflexivity |]. intros ->. reflexivity.
Qed.

(** X4: with an integer output dtype the mu-map is zero everywhere: both
    coefficients are below 1 and the assignment truncates them. *)
Theorem muMap_of_integer_dtype_is_zero (w : world) (im : nat) (a : ndarray)
        (xs : list Z) (dt : dtype) :
  nth_error (heap w) im = Some a -> labeled a xs -> is_float dt = false ->
  exists w',
    build_muMap im dt w = (Ok (List.length (heap w)), w') /\
    nth_error (heap w') (List.length (heap w))
    = Some (mkarr (shape a) dt (Ints (map (fun _ => 0) xs))).
Proof.
  intros Him L Hf. eexists.
  split; [apply (muMap_run im a xs dt w L Him) |].
  cbn [heap]. rewrite nth_error_snoc. unfold mu_buffer. rewrite Hf.
  do 3 f_equal. apply map_ext. intros v.
  change (wrap16 (Qtrunc mu_bone_1_cm)) with 0.
  change (wrap16 (Qtrunc mu_tissue_1_cm)) with 0.
  destruct (bone_voxel v); [reflexivity |].
  destruct (negb (v =? 0)); reflexivity.
Qed.

(** ** Flat positions and multi-indices *)

Lemma count_cons s sh : Nd.count (s :: sh) = s * Nd.count sh.
Proof. reflexivity. Qed.

Lemma ravel_bound idx sh :
  in_bounds idx sh -> 0 <= Np.ravel sh idx < Nd.count sh.
Proof.
  induction 1 as [| i s idx sh Hi _ IH].
  - cbn. lia.
  - cbn [Np.ravel]. rewrite count_cons. fold (Nd.count sh). nia.
Qed.

Lemma unravel_ravel idx sh :
  in_bounds idx sh -> Np.unravel sh (Np.ravel sh idx) = idx.
Proof.
  induction 1 as [| i s idx sh Hi Hrest IH].
  - reflexivity.
  - cbn [Np.ravel Np.unravel]. fold (Nd.count sh).
    pose proof (ravel_bound idx sh Hrest) as Hb.
    assert (Hq : (i * Nd.count sh + Np.ravel sh idx) / Nd.count sh = i).
    { symmetry. apply (Z.div_unique _ _ i (Np.ravel sh idx)); lia. }
    assert (Hm : (i * Nd.count sh + Np.ravel sh idx) mod Nd.count sh
                 = Np.ravel sh idx).
    { symmetry. apply (Z.mod_unique _ _ i (Np.ravel sh idx)); lia. }
    rewrite Hq, Hm, IH. reflexivity.
Qed.

Lemma count_nonneg sh : Forall (fun s => 0 <= s) sh -> 0 <= Nd.count sh.
Proof.
  induction 1 as [| s sh Hs _ IH]; [cbn; lia |].
  rewrite count_cons. nia.
Qed.

Lemma unravel_in_bounds sh t :
  Forall (fun s => 0 <= s) sh -> 0 <= t < Nd.count sh ->
  in_bounds (Np.unravel sh t) sh.
Proof.
  intros Hsh. revert t. induction Hsh as [| s sh Hs Hrest IH]; intros t Ht.
  - constructor.
  - cbn [Np.unravel]. fold (Nd.count sh). rewrite count_cons in Ht.
    pose proof (count_nonneg sh Hrest) as Hc.
    assert (Hp : 0 < Nd.count sh) by nia.
    constructor.
    + split; [apply Z.div_pos; lia |].
      apply Z.div_lt_upper_bound; lia.
    + apply IH. apply Z.mod_pos_bound. exact Hp.
Qed.

Lemma ravel_unravel sh t :
  Forall (fun s => 0 <= s) sh -> 0 <= t < Nd.count sh ->
  Np.ravel sh (Np.unravel sh t) = t.
Proof.
  intros Hsh. revert t. induction Hsh as [| s sh Hs Hrest IH]; intros t Ht.
  - cbn in *. lia.
  - cbn [Np.unravel Np.ravel]. fold (Nd.count sh). rewrite count_cons in Ht.
    pose proof (count_nonneg sh Hrest) as Hc.
    assert (Hp : 0 < Nd.count sh) by nia.
    rewrite IH by (apply Z.mod_pos_bound; exact Hp).
    pose proof (Z.div_mod t (Nd.count sh) ltac:(lia)). lia.
Qed.

Lemma nth_map_range {A} (g : Z -> A) (n t : nat) (d : A) :
  (t < n)%nat -> nth t (map g (range n)) d = g (Z.of_nat t).
Proof.
  intros H. unfold range. rewrite map_map.
  rewrite (nth_indep _ d (g (Z.of_nat 0))) by (rewrite length_map, length_seq; exact H).
  rewrite (map_nth (fun x => g (Z.of_nat x)) (seq 0 n) O t).
  rewrite seq_nth by exact H. reflexivity.
Qed.

Lemma map_range_is {A} (g : Z -> A) (xs : list A) (d : A) :
  (forall t, (t < List.length xs)%nat -> g (Z.of_nat t) = nth t xs d) ->
  map g (range (List.length xs)) = xs.
Proof.
  intros H. apply (nth_ext _ _ d d).
  - unfold range. rewrite !length_map, length_seq. reflexivity.
  - intros t Ht. unfold range in Ht. rewrite !length_map, length_seq in Ht.
    rewrite nth_map_range by exact Ht. apply H. exact Ht.
Qed.

Lemma size_count sh t :
  0 <= t < Nd.count sh -> (Z.to_nat t < size sh)%nat.
Proof. intros H. unfold size. fold (Nd.count sh). lia. Qed.

(** ** Elements of a padded array *)

Lemma pad_buffer_map {A B} (f : A -> B) (z : A) xs sh widths :
  map f (Np.pad_buffer z xs sh widths) = Np.pad_buffer (f z) (map f xs) sh widths.
Proof.
  unfold Np.pad_buffer. rewrite map_map. apply map_ext. intros t.
  destruct (Np.pad_source sh widths t); [| reflexivity].
  symmetry. apply map_nth.
Qed.

Lemma pad_shape r widths p :
  Np.pad r widths = Ok p ->
  shape p = Np.padded_shape (shape r) widths /\ dtype_of p = dtype_of r /\
  Np.to_floats (buf p)
  = Np.pad_buffer 0%Q (Np.to_floats (buf r)) (shape r) widths.
Proof.
  unfold Np.pad. intros H.
  destruct (negb (Nat.eqb (List.length widths) (List.length (shape r))));
    [discriminate |].
  destruct (existsb (fun w => (fst w <? 0) || (snd w <? 0)) widths);
    [discriminate |].
  inversion H. cbn [shape dtype_of buf]. split; [reflexivity |].
  split; [reflexivity |].
  destruct (buf r) as [xs | xs]; cbn [Np.to_floats]; [| reflexivity].
  apply (pad_buffer_map inject_Z 0).
Qed.

(** An element of the padded array: the element of the source moved by
    the widths before, and zero outside. *)
Lemma pad_item r widths p idx :
  Np.pad r widths = Ok p ->
  in_bounds idx (shape p) ->
  item p idx
  = if inside (pad_offset idx widths) (shape r)
    then item r (pad_offset idx widths) else 0%Q.
Proof.
  intros Hp Hin. destruct (pad_shape r widths p Hp) as (Hs & _ & Hb).
  unfold item. rewrite Hb. rewrite Hs in Hin |- *.
  pose proof (ravel_bound _ _ Hin) as Hr.
  unfold Np.pad_buffer.
  rewrite nth_map_range by (apply size_count; exact Hr).
  rewrite Z2Nat.id by lia.
  unfold Np.pad_source. rewrite (unravel_ravel _ _ Hin).
  fold (pad_offset idx widths).
  fold (inside (pad_offset idx widths) (shape r)).
  destruct (inside (pad_offset idx widths) (shape r)); reflexivity.
Qed.

(** ** [toPetMmr] up to the resampling, and the resampling without padding *)

Lemma broadcast2_three f xs ys t :
  broadcast2 f xs ys = Ok t -> List.length ys = 3%nat -> List.length t = 3%nat.
Proof.
  unfold broadcast2. intros H Hy.
  destruct (Nat.eqb_spec (List.length xs) (List.length ys)) as [E | E].
  - inversion H. rewrite length_map, length_combine. lia.
  - destruct xs as [| x [| x' xs]].
    + destruct ys as [| y [| y' ys]]; try discriminate; try (simpl in Hy; lia).
    + inversion H. rewrite length_map. exact Hy.
    + destruct ys as [| y [| y' ys]]; try discriminate; try (simpl in Hy; lia).
Qed.

Lemma new_shape_three sh rv ns :
  new_shape_of sh rv = Ok ns -> List.length rv = 3%nat -> List.length ns = 3%nat.
Proof.
  unfold new_shape_of. intros H Hr.
  rewrite (getattr_declared Res "brainweb" (PyArray Body.Res_brainweb) eq_refl) in H.
  cbn [rbind as_vector] in H.
  destruct (broadcast2 Qmult (map inject_Z sh) Body.Res_brainweb) as [t |] eqn:E1;
    [| discriminate].
  cbn [rbind] in H.
  destruct (broadcast2 Qdiv t rv) as [u |] eqn:E2; [| discriminate].
  cbn [rbind] in H. inversion H. rewrite length_map.
  apply (broadcast2_three Qdiv t rv u E2 Hr).
Qed.

Lemma table_res_three outres :
  In outres system_names -> List.length (table Res outres) = 3%nat.
Proof.
  unfold system_names. cbn [In].
  intros [<- | [<- | [<- | []]]]; reflexivity.
Qed.

Lemma toPetMmr_reaches_resize w im a xs pad dt outres ns pl pr :
  nth_error (heap w) im = Some a -> labeled a xs ->
  In outres system_names ->
  new_shape_of (shape a) (table Res outres) = Ok ns ->
  pads_of (table Shape outres) ns = Ok (pl, pr) ->
  exists j,
    toPetMmr im pad dt outres w
    = map_m (resizeToMmr pad dt ns pl pr)
            [List.length (heap w); List.length (heap w) + 1;
             List.length (heap w) + 2; List.length (heap w) + 3]%nat
            (mkworld (heap w ++ stage_arrays dt a xs) (rng w) j).
Proof.
  intros Him L Hin Hns Hpads.
  destruct (table_entries outres Hin) as (HgR & HgS & _).
  destruct (profile_attrs_ok Pet (or_introl eq_refl)) as (HaP & HfP).
  destruct (profile_attrs_ok T1 (or_intror (or_introl eq_refl))) as (Ha1 & Hf1).
  destruct (profile_attrs_ok T2 (or_intror (or_intror eq_refl))) as (Ha2 & Hf2).
  unfold toPetMmr.
  rewrite lift_bind, HgR, lift_bind, HgS.
  rewrite (bind_ok _ _ _ _ _ (paint_run "PET" Pet im a xs _ w L Him HaP HfP)).
  cbn [heap rng journal].
  match goal with
  | |- context [build_muMap im dt] =>
      match goal with
      | |- context [mkworld ?h ?r ?j] =>
          assert (Him1 : nth_error h im = Some a) by find_array;
          rewrite (bind_ok _ _ _ _ _ (muMap_run im a xs dt (mkworld h r j) L Him1))
      end
  end.
  cbn [heap rng journal].
  match goal with
  | |- context [mkworld ?h ?r ?j] =>
      assert (Him2 : nth_error h im = Some a) by find_array;
      rewrite (bind_ok _ _ _ _ _
                 (paint_run "T1" T1 im a xs _ (mkworld h r j) L Him2 Ha1 Hf1))
  end.
  cbn [heap rng journal].
  match goal with
  | |- context [mkworld ?h ?r ?j] =>
      assert (Him3 : nth_error h im = Some a) by find_array;
      rewrite (bind_ok _ _ _ _ _
                 (paint_run "T2" T2 im a xs _ (mkworld h r j) L Him3 Ha2 Hf2))
  end.
  cbn [heap rng journal].
  match goal with
  | |- context [mkworld ?h ?r ?j] =>
      assert (Him4 : nth_error h im = Some a) by find_array;
      rewrite (bind_ok _ _ _ _ _ (load_ok im (mkworld h r j) a Him4))
  end.
  rewrite lift_bind. cbn [as_vector].
  rewrite lift_bind, Hns, lift_bind. cbn [as_vector].
  rewrite lift_bind, Hpads. cbn [fst snd].
  eexists. unfold stage_arrays.
  rewrite !length_app. cbn [List.length].
  rewrite <- !app_assoc. cbn [app].
  rewrite <- !Nat.add_assoc. cbn [Nat.add].
  reflexivity.
Qed.

(** Resampling steps that allocate one array each, run over a list of
    references to arrays that satisfy [Q]. *)
Lemma map_m_allocating (f : nat -> M nat) (Q : ndarray -> Prop)
      (R : ndarray -> ndarray -> Prop) :
  (forall w arr b,
      Q b -> nth_error (heap w) arr = Some b ->
      exists c, f arr w
                = (Ok (List.length (heap w)),
                   mkworld (heap w ++ [c]) (rng w) (journal w)) /\ R b c) ->
  forall refs bs w,
    Forall Q bs ->
    Forall2 (fun r b => nth_error (heap w) r = Some b) refs bs ->
    exists cs,
      map_m f refs w
      = (Ok (seq (List.length (heap w)) (List.length refs)),
         mkworld (heap w ++ cs) (rng w) (journal w)) /\
      Forall2 R bs cs.
Proof.
  intros Hstep refs bs w HQ H. revert w H.
  revert bs HQ. induction refs as [| r refs IH]; intros bs HQ w H.
  - inversion H; subst. exists []. split; [| constructor].
    cbn [map_m]. unfold ret. rewrite app_nil_r. destruct w; reflexivity.
  - inversion H as [| ? b ? bs' Hr Hrest]; subst.
    inversion HQ as [| ? ? Qb HQ']; subst.
    destruct (Hstep w r b Qb Hr) as (c & Hc & HR).
    destruct (IH bs' HQ' (mkworld (heap w ++ [c]) (rng w) (journal w)))
      as (cs & Hcs & HRs).
    { cbn [heap]. eapply Forall2_impl; [| exact Hrest].
      intros r' b' Hb'. apply nth_error_grow. exact Hb'. }
    exists (c :: cs). split; [| constructor; assumption].
    cbn [map_m]. rewrite (bind_ok _ _ _ _ _ Hc), (bind_ok _ _ _ _ _ Hcs).
    unfold ret. cbn [heap rng journal List.length seq].
    rewrite length_app, <- app_assoc. cbn [List.length app].
    rewrite Nat.add_1_r. reflexivity.
Qed.

Lemma stage_arrays_present {A} (h : list A) b0 b1 b2 b3 :
  Forall2 (fun r b => nth_error (h ++ [b0; b1; b2; b3]) r = Some b)
          [List.length h; List.length h + 1; List.length h + 2;
           List.length h + 3]%nat
          [b0; b1; b2; b3].
Proof.
  repeat constructor.
  - rewrite <- (Nat.add_0_r (List.length h)).
    rewrite nth_error_after. reflexivity.
  - rewrite nth_error_after. reflexivity.
  - rewrite nth_error_after. reflexivity.
  - rewrite nth_error_after. reflexivity.
Qed.

Lemma stage_arrays_shape dt a xs :
  Forall (fun b => shape b = shape a) (stage_arrays dt a xs).
Proof. repeat constructor. Qed.

(** The four references of a list of four results. *)
Lemma four_results {A} (h cs : list A) (bs : list ndarray)
      (R : ndarray -> A -> Prop) :
  List.length bs = 4%nat -> Forall2 R bs cs ->
  Forall2 (fun ref c => nth_error (h ++ cs) ref = Some c)
          [List.length h; List.length h + 1; List.length h + 2;
           List.length h + 3]%nat cs.
Proof.
  intros Hl HR. pose proof (Forall2_length HR) as Hc. rewrite Hl in Hc.
  destruct cs as [| c0 [| c1 [| c2 [| c3 [| ? ?]]]]]; try discriminate Hc.
  apply stage_arrays_present.
Qed.

Lemma Forall2_with {A B} (R : A -> B -> Prop) (P : B -> Prop) l cs :
  Forall2 R l cs -> Forall P cs -> Forall2 (fun x c => R x c /\ P c) l cs.
Proof.
  induction 1 as [| x c l cs HR _ IH]; intros S; [constructor |].
  inversion S as [| ? ? S0 S']; subst.
  constructor; [split; assumption | apply IH; exact S'].
Qed.

Lemma Forall2_in_left {A B} (R : A -> B -> Prop) l cs x :
  Forall2 R l cs -> In x l -> exists c, In c cs /\ R x c.
Proof.
  induction 1 as [| y c l cs HR _ IH]; intros Hx; [destruct Hx |].
  destruct Hx as [<- | Hx].
  - exists c. split; [left; reflexivity | exact HR].
  - destruct (IH Hx) as (c' & Hc & Hr). exists c'. split; [right |]; assumption.
Qed.

Lemma resizeToMmr_unpadded_run dt ns pl pr arr b w :
  resize_contract resize ->
  (List.length ns = List.length (shape b) /\
   Forall (fun n => 0 < n) (shape b) /\ Forall (fun n => 0 < n) ns) ->
  nth_error (heap w) arr = Some b ->
  exists c,
    resizeToMmr false dt ns pl pr arr w
    = (Ok (List.length (heap w)),
       mkworld (heap w ++ [c]) (rng w) (journal w)) /\
    (exists r, resize b ns = Ok r /\ shape r = ns /\ c = Np.astype r dt).
Proof.
  intros Hc (Hn & Hpb & Hpn) Hb. unfold resizeToMmr.
  rewrite (bind_ok _ _ _ _ _ (load_ok arr w b Hb)).
  destruct (Hc b ns Hn Hpb Hpn) as (r & Hr & Hs & Hd).
  rewrite lift_bind, Hr, ret_bind.
  assert (Hne : dtype_eqb (dtype_of r) uint16 = false).
  { destruct (dtype_of r); [contradiction | |]; reflexivity. }
  rewrite Hne. exists (Np.astype r dt).
  split; [reflexivity |]. exists r. auto.
Qed.

Lemma toPetMmr_unpadded_run (w : world) (im : nat)
      (a : ndarray) (xs : list Z) (dt : dtype) (outres : string)
      (ns : list Z) :
  resize_contract resize ->
  nth_error (heap w) im = Some a -> labeled a xs ->
  List.length (shape a) = 3%nat ->
  In outres system_names ->
  new_shape_of (shape a) (table Res outres) = Ok ns ->
  Forall (fun n => 0 < n) ns ->
  let n := List.length (heap w) in
  exists w' cs,
    toPetMmr im false dt outres w
    = (Ok [n + 4; n + 5; n + 6; n + 7]%nat, w') /\
    Forall2 (fun ref c => nth_error (heap w') ref = Some c)
            [n + 4; n + 5; n + 6; n + 7]%nat cs /\
    Forall2 (fun b c => exists r, resize b ns = Ok r /\ shape r = ns /\
                                  c = Np.astype r dt)
            (stage_arrays dt a xs) cs.
Proof.
  intros Hc Him L H3 Hin Hns Hpos n.
  destruct (new_shape_positive _ _ _ H3 Hin Hns Hpos) as (Hl & Hsh).
  destruct (table_entries outres Hin) as (_ & _ & Hlen).
  destruct (table Shape outres) as [| t0 [| t1 [| t2 [| ? ?]]]] eqn:Et;
    try discriminate Hlen.
  destruct ns as [| n0 [| n1 [| n2 [| ? ?]]]]; try discriminate Hl.
  destruct (pads_of_three t0 t1 t2 n0 n1 n2) as (pl & pr & Hpads & _).
  rewrite <- Et in Hpads.
  destruct (toPetMmr_reaches_resize w im a xs false dt outres _ pl pr
              Him L Hin Hns Hpads) as (j & Hrun).
  rewrite Hrun.
  destruct (map_m_allocating (resizeToMmr false dt [n0; n1; n2] pl pr)
              (fun b => List.length [n0; n1; n2] = List.length (shape b) /\
                        Forall (fun n => 0 < n) (shape b) /\
                        Forall (fun n => 0 < n) [n0; n1; n2])
              (fun b c => exists r, resize b [n0; n1; n2] = Ok r /\
                                    shape r = [n0; n1; n2] /\
                                    c = Np.astype r dt)
              (fun w0 arr b Qb Hb =>
                 resizeToMmr_unpadded_run dt _ pl pr arr b w0 Hc Qb Hb)
              [List.length (heap w); List.length (heap w) + 1;
               List.length (heap w) + 2; List.length (heap w) + 3]%nat
              (stage_arrays dt a xs)
              (mkworld (heap w ++ stage_arrays dt a xs) (rng w) j))
    as (cs & Hcs & HR).
  { eapply Forall_impl; [| apply (stage_arrays_shape dt a xs)].
    intros b ->. rewrite H3. auto. }
  { apply stage_arrays_present. }
  rewrite Hcs. cbn [heap rng journal List.length].
  assert (N4 : List.length (heap w ++ stage_arrays dt a xs) = (n + 4)%nat).
  { rewrite length_app. reflexivity. }
  exists (mkworld ((heap w ++ stage_arrays dt a xs) ++ cs) (rng w) j), cs.
  split.
  { apply (f_equal2 pair); [apply f_equal | reflexivity].
    rewrite N4. cbn [seq].
    repeat (apply (f_equal2 cons); [lia |]). reflexivity. }
  split; [| exact HR].
  cbn [heap].
  pose proof (four_results (heap w ++ stage_arrays dt a xs) cs
                (stage_arrays dt a xs) _ eq_refl HR) as F.
  rewrite N4 in F.
  replace (n + 4 + 1)%nat with (n + 5)%nat in F by lia.
  replace (n + 4 + 2)%nat with (n + 6)%nat in F by lia.
  replace (n + 4 + 3)%nat with (n + 7)%nat in F by lia.
  exact F.
Qed.

(** X5: with [pad=False] and a system name of the tables, [toPetMmr]
    returns for every labeled 3-D volume whose resized extents are all at
    least 1, however large: the four new arrays are, in this order, the
    PET, mu-map, T1 and T2 volumes resized and converted to [dt]; their
    shape is the resized shape [new_shape], not the target shape. *)
Theorem toPetMmr_unpadded_has_resized_shape (w : world) (im : nat)
        (a : ndarray) (xs : list Z) (dt : dtype) (outres : string)
        (ns : list Z) :
  resize_contract resize ->
  nth_error (heap w) im = Some a -> labeled a xs ->
  List.length (shape a) = 3%nat ->
  In outres system_names ->
  new_shape_of (shape a) (table Res outres) = Ok ns ->
  Forall (fun n => 0 < n) ns ->
  let n := List.length (heap w) in
  exists w' cs,
    toPetMmr im false dt outres w
    = (Ok [n + 4; n + 5; n + 6; n + 7]%nat, w') /\
    Forall2 (fun ref c => nth_error (heap w') ref = Some c /\
                          shape c = ns /\ dtype_of c = dt)
            [n + 4; n + 5; n + 6; n + 7]%nat cs /\
    Forall2 (fun b c => exists r, resize b ns = Ok r /\ c = Np.astype r dt)
            (stage_arrays dt a xs) cs.
Proof.
  intros Hc Him L H3 Hin Hns Hpos n.
  destruct (toPetMmr_unpadded_run w im a xs dt outres ns Hc Him L H3 Hin
              Hns Hpos) as (w' & cs & Hrun & Hrefs & HR).
  exists w', cs. split; [exact Hrun |]. split.
  - assert (S : Forall (fun c => shape c = ns /\ dtype_of c = dt) cs).
    { clear - HR.
      induction HR as [| b c bs cs (r & _ & E & K) _ IH];
        constructor; [| exact IH].
      subst c. cbn [Np.astype shape dtype_of]. split; [exact E | reflexivity]. }
    exact (Forall2_with _ _ _ _ Hrefs S).
  - eapply Forall2_impl; [| exact HR].
    intros b c (r & Hr & _ & E). exists r. auto.
Qed.

(** ** [toPetMmr] with padding *)

Lemma resizeToMmr_padded_step dt ns pl pr arr b w :
  resize_contract resize ->
  (List.length ns = List.length (shape b) /\
   Forall (fun n => 0 < n) (shape b) /\ Forall (fun n => 0 < n) ns /\
   List.length (pad_widths pl pr) = List.length ns /\
   Forall (fun w => 0 <= fst w /\ 0 <= snd w) (pad_widths pl pr)) ->
  nth_error (heap w) arr = Some b ->
  exists c,
    resizeToMmr true dt ns pl pr arr w
    = (Ok (List.length (heap w)),
       mkworld (heap w ++ [c]) (rng w) (journal w)) /\
    (exists r p, resize b ns = Ok r /\ shape r = ns /\
                 Np.pad r (pad_widths pl pr) = Ok p /\
                 shape p = Np.padded_shape ns (pad_widths pl pr) /\
                 c = Np.astype p dt).
Proof.
  intros Hc (Hn & Hpb & Hpn & Hl & Hf) Hb.
  destruct (resizeToMmr_run dt ns pl pr arr b w Hc Hb Hn Hpb Hpn Hl Hf)
    as (r & p & Hr & Hs & Hp & Hsh & Hrun).
  exists (Np.astype p dt). split; [exact Hrun |].
  exists r, p. auto.
Qed.

Lemma toPetMmr_padded_contents (w : world) (im : nat) (a : ndarray)
      (xs : list Z) (dt : dtype) (outres : string) (ns : list Z) :
  resize_contract resize ->
  nth_error (heap w) im = Some a -> labeled a xs ->
  List.length (shape a) = 3%nat ->
  In outres system_names ->
  new_shape_of (shape a) (table Res outres) = Ok ns ->
  Forall (fun n => 0 < n) ns ->
  Forall2 (fun n t => n <= Qfloor t) ns (table Shape outres) ->
  let target := table Shape outres in
  let widths := map (fun p => axis_widths (fst p) (snd p)) (combine target ns) in
  let n := List.length (heap w) in
  (exists pl pr, pads_of target ns = Ok (pl, pr) /\ pad_widths pl pr = widths) /\
  Np.padded_shape ns widths = map Qfloor target /\
  exists w' cs,
    toPetMmr im true dt outres w
    = (Ok [n + 4; n + 5; n + 6; n + 7]%nat, w') /\
    Forall2 (fun ref c => nth_error (heap w') ref = Some c)
            [n + 4; n + 5; n + 6; n + 7]%nat cs /\
    Forall2 (fun b c => exists r p,
                 resize b ns = Ok r /\ shape r = ns /\
                 Np.pad r widths = Ok p /\
                 shape p = map Qfloor target /\
                 c = Np.astype p dt)
            (stage_arrays dt a xs) cs.
Proof.
  intros Hc Him L H3 Hin Hns Hpos Hfit target widths n.
  destruct (new_shape_positive _ _ _ H3 Hin Hns Hpos) as (Hl & Hsh).
  destruct (table_entries outres Hin) as (_ & _ & Hlen).
  fold target in Hlen, Hfit.
  assert (Et : target = table Shape outres) by reflexivity.
  clearbody target.
  destruct target as [| t0 [| t1 [| t2 [| ? ?]]]]; try discriminate Hlen.
  destruct ns as [| n0 [| n1 [| n2 [| ? ?]]]]; try discriminate Hl.
  inversion Hfit as [| ? ? ? ? F0 Hfit1]; subst.
  inversion Hfit1 as [| ? ? ? ? F1 Hfit2]; subst.
  inversion Hfit2 as [| ? ? ? ? F2 _]; subst.
  destruct (pads_of_three t0 t1 t2 n0 n1 n2) as (pl & pr & Hpads & Hw).
  subst widths. cbn [combine map fst snd].
  assert (Hshape :
    Np.padded_shape [n0; n1; n2]
      [axis_widths t0 n0; axis_widths t1 n1; axis_widths t2 n2]
    = [Qfloor t0; Qfloor t1; Qfloor t2]).
  { unfold Np.padded_shape. cbn [combine map fst snd].
    rewrite !axis_widths_sum. reflexivity. }
  split; [exists pl, pr; split; assumption |].
  split; [exact Hshape |].
  assert (Hlw : List.length (pad_widths pl pr) = List.length [n0; n1; n2])
    by (rewrite Hw; reflexivity).
  assert (Hf : Forall (fun w => 0 <= fst w /\ 0 <= snd w) (pad_widths pl pr)).
  { rewrite Hw. repeat constructor; apply axis_widths_nonneg; assumption. }
  rewrite Et in Hpads.
  destruct (toPetMmr_reaches_resize w im a xs true dt outres _ pl pr
              Him L Hin Hns Hpads) as (j & Hrun).
  rewrite Hrun.
  destruct (map_m_allocating (resizeToMmr true dt [n0; n1; n2] pl pr)
              (fun b => List.length [n0; n1; n2] = List.length (shape b) /\
                        Forall (fun n => 0 < n) (shape b) /\
                        Forall (fun n => 0 < n) [n0; n1; n2] /\
                        List.length (pad_widths pl pr)
                        = List.length [n0; n1; n2] /\
                        Forall (fun w => 0 <= fst w /\ 0 <= snd w)
                               (pad_widths pl pr))
              (fun b c => exists r p,
                   resize b [n0; n1; n2] = Ok r /\ shape r = [n0; n1; n2] /\
                   Np.pad r (pad_widths pl pr) = Ok p /\
                   shape p = Np.padded_shape [n0; n1; n2] (pad_widths pl pr) /\
                   c = Np.astype p dt)
              (fun w0 arr b Qb Hb =>
                 resizeToMmr_padded_step dt _ pl pr arr b w0 Hc Qb Hb)
              [List.length (heap w); List.length (heap w) + 1;
               List.length (heap w) + 2; List.length (heap w) + 3]%nat
              (stage_arrays dt a xs)
              (mkworld (heap w ++ stage_arrays dt a xs) (rng w) j))
    as (cs & Hcs & HR).
  { eapply Forall_impl; [| apply (stage_arrays_shape dt a xs)].
    intros b ->. rewrite H3. auto. }
  { apply stage_arrays_present. }
  rewrite Hcs. cbn [heap rng journal List.length].
  assert (N4 : List.length (heap w ++ stage_arrays dt a xs) = (n + 4)%nat).
  { rewrite length_app. reflexivity. }
  exists (mkworld ((heap w ++ stage_arrays dt a xs) ++ cs) (rng w) j), cs.
  split.
  { apply (f_equal2 pair); [apply f_equal | reflexivity].
    rewrite N4. cbn [seq].
    repeat (apply (f_equal2 cons); [lia |]). reflexivity. }
  split.
  - cbn [heap].
    pose proof (four_results (heap w ++ stage_arrays dt a xs) cs
                  (stage_arrays dt a xs) _ eq_refl HR) as F.
    rewrite N4 in F.
    replace (n + 4 + 1)%nat with (n + 5)%nat in F by lia.
    replace (n + 4 + 2)%nat with (n + 6)%nat in F by lia.
    replace (n + 4 + 3)%nat with (n + 7)%nat in F by lia.
    exact F.
  - rewrite Hw, Hshape in HR. exact HR.
Qed.

Lemma toPetMmr_padded_run (w : world) (im : nat) (a : ndarray)
      (xs : list Z) (dt : dtype) (outres : string) (ns : list Z) :
  resize_contract resize ->
  nth_error (heap w) im = Some a -> labeled a xs ->
  List.length (shape a) = 3%nat ->
  In outres system_names ->
  new_shape_of (shape a) (table Res outres) = Ok ns ->
  Forall (fun n => 0 < n) ns ->
  Forall2 (fun n t => n <= Qfloor t) ns (table Shape outres) ->
  let target := table Shape outres in
  let n := List.length (heap w) in
  exists w',
    toPetMmr im true dt outres w
    = (Ok [n + 4; n + 5; n + 6; n + 7]%nat, w') /\
    forall r, In r [n + 4; n + 5; n + 6; n + 7]%nat ->
              exists b, nth_error (heap w') r = Some b /\
                        shape b = map Qfloor target /\ dtype_of b = dt.
Proof.
  intros Hc Him L H3 Hin Hns Hpos Hfit target n.
  destruct (toPetMmr_padded_contents w im a xs dt outres ns Hc Him L H3 Hin
              Hns Hpos Hfit) as (_ & _ & w' & cs & Hrun & Hrefs & HR).
  exists w'. split; [exact Hrun |].
  assert (S : Forall (fun c => shape c = map Qfloor target /\ dtype_of c = dt)
                     cs).
  { clear - HR.
    induction HR as [| b c bs cs (r & p & _ & _ & _ & E & K) _ IH];
      constructor; [| exact IH].
    subst c. cbn [Np.astype shape dtype_of]. split; [exact E | reflexivity]. }
  pose proof (Forall2_with _ _ _ _ Hrefs S) as F.
  intros r Hr.
  destruct (Forall2_in_left _ _ _ _ F Hr) as (b & _ & Hb & Sb).
  exists b. split; [exact Hb | exact Sb].
Qed.

(** C4, as the code has it: with [pad] set, a system name of the
    geometry tables and a 3-D labeled volume whose resized extents are
    at least 1 and do not exceed the whole part of the target extents,
    [toPetMmr] returns four new arrays.  They are, in this order, the
    PET, mu-map, T1 and T2 volumes, each resized, padded and converted
    to [dt]; each has dtype [dt] and the shape [floor(target.shape)],
    which for "mMR" is the target shape itself.  Per axis the padding is
    [D div 2] before and [D div 2 + D mod 2] after, for
    [D = floor(target) - new]: the padded array holds the resized
    volume moved by [D div 2] along each axis, and zero elsewhere. *)
Theorem toPetMmr_pads_to_whole_target (w : world) (im : nat) (a : ndarray)
        (xs : list Z) (dt : dtype) (outres : string) (ns : list Z) :
  resize_contract resize ->
  nth_error (heap w) im = Some a -> labeled a xs ->
  List.length (shape a) = 3%nat ->
  In outres system_names ->
  new_shape_of (shape a) (table Res outres) = Ok ns ->
  Forall (fun n => 0 < n) ns ->
  Forall2 (fun n t => n <= Qfloor t) ns (table Shape outres) ->
  let target := table Shape outres in
  let widths :=
    map (fun p => let D := Qfloor (fst p) - snd p in (D / 2, D / 2 + D mod 2))
        (combine target ns) in
  let n := List.length (heap w) in
  (exists pl pr, pads_of target ns = Ok (pl, pr) /\ pad_widths pl pr = widths) /\
  Np.padded_shape ns widths = map Qfloor target /\
  (exists w' cs,
      toPetMmr im true dt outres w
      = (Ok [n + 4; n + 5; n + 6; n + 7]%nat, w') /\
      Forall2 (fun ref c => nth_error (heap w') ref = Some c /\
                            shape c = map Qfloor target /\ dtype_of c = dt)
              [n + 4; n + 5; n + 6; n + 7]%nat cs /\
      Forall2 (fun b c => exists r p,
                   resize b ns = Ok r /\ Np.pad r widths = Ok p /\
                   c = Np.astype p dt /\
                   forall idx, in_bounds idx (map Qfloor target) ->
                     item p idx
                     = if inside (pad_offset idx widths) ns
                       then item r (pad_offset idx widths) else 0%Q)
              (stage_arrays dt a xs) cs) /\
  map inject_Z (map Qfloor (table Shape "mMR")) = table Shape "mMR".
Proof.
  intros Hc Him L H3 Hin Hns Hpos Hfit target widths n.
  destruct (toPetMmr_padded_contents w im a xs dt outres ns Hc Him L H3 Hin
              Hns Hpos Hfit) as (Hp & Hs & w' & cs & Hrun & Hrefs & HR).
  split; [exact Hp |]. split; [exact Hs |]. split; [| reflexivity].
  exists w', cs. split; [exact Hrun |]. split.
  - assert (S : Forall (fun c => shape c = map Qfloor target /\ dtype_of c = dt)
                       cs).
    { clear - HR.
      induction HR as [| b c bs cs (r & p & _ & _ & _ & E & K) _ IH];
        constructor; [| exact IH].
      subst c. cbn [Np.astype shape dtype_of].
      split; [exact E | reflexivity]. }
    exact (Forall2_with _ _ _ _ Hrefs S).
  - eapply Forall2_impl; [| exact HR].
    intros b c (r & p & Hr & Hsr & Hpad & Hsp & E).
    exists r, p. split; [exact Hr |]. split; [exact Hpad |].
    split; [exact E |].
    intros idx Hidx.
    assert (Hidx' : in_bounds idx (shape p)) by (rewrite Hsp; exact Hidx).
    rewrite (pad_item r _ p idx Hpad Hidx'), Hsr. reflexivity.
Qed.

(** ** [toPetMmr] where it raises *)

Lemma pad_negative x widths :
  Exists (fun w => fst w < 0) widths ->
  exists e,
    Np.pad x widths = Raise e /\
    (List.length widths = List.length (shape x) ->
     e = ValueError "index can't contain negative values").
Proof.
  intros He. unfold Np.pad.
  destruct (Nat.eqb_spec (List.length widths) (List.length (shape x)))
    as [Hl | Hl]; cbn [negb].
  - assert (E : existsb (fun w => (fst w <? 0) || (snd w <? 0)) widths = true).
    { apply existsb_exists. apply Exists_exists in He.
      destruct He as (w & Hin & Hw). exists w. split; [exact Hin |].
      apply orb_true_iff. left. apply Z.ltb_lt. exact Hw. }
    rewrite E. eexists. split; reflexivity.
  - eexists. split; [reflexivity |]. intros Hl'. contradiction.
Qed.

Lemma axis_widths_negative t n : Qfloor t < n -> fst (axis_widths t n) < 0.
Proof.
  intros H. unfold axis_widths. cbn [fst].
  pose proof (Z.div_mod (Qfloor t - n) 2 ltac:(lia)).
  pose proof (Z.mod_pos_bound (Qfloor t - n) 2 ltac:(lia)).
  lia.
Qed.

(** X6: with [pad=True], as soon as the resized extent exceeds the whole
    part of the target extent on one axis, [toPetMmr] raises while it
    resamples the first of the four volumes: nothing is returned, the
    store holds the four unresampled volumes in addition, every earlier
    array and the generator are as before.  For a 3-D volume whose
    resized extents are all at least 1 the exception is the
    [ValueError] of [np.pad]. *)
Theorem toPetMmr_raises_when_resized_exceeds_target (w : world) (im : nat)
        (a : ndarray) (xs : list Z) (dt : dtype) (outres : string)
        (ns : list Z) :
  resize_contract resize ->
  nth_error (heap w) im = Some a -> labeled a xs ->
  In outres system_names ->
  new_shape_of (shape a) (table Res outres) = Ok ns ->
  Exists (fun p => Qfloor (fst p) < snd p) (combine (table Shape outres) ns) ->
  exists e w' ext,
    toPetMmr im true dt outres w = (Raise e, w') /\
    heap w' = heap w ++ ext /\ List.length ext = 4%nat /\ rng w' = rng w /\
    (List.length (shape a) = 3%nat -> Forall (fun n => 0 < n) ns ->
     e = ValueError "index can't contain negative values").
Proof.
  intros Hc Him L Hin Hns Hex.
  pose proof (new_shape_three _ _ _ Hns (table_res_three outres Hin)) as Hl.
  destruct (table_entries outres Hin) as (_ & _ & Hlen).
  destruct (table Shape outres) as [| t0 [| t1 [| t2 [| ? ?]]]] eqn:Et;
    try discriminate Hlen.
  destruct ns as [| n0 [| n1 [| n2 [| ? ?]]]]; try discriminate Hl.
  destruct (pads_of_three t0 t1 t2 n0 n1 n2) as (pl & pr & Hpads & Hw).
  rewrite <- Et in Hpads.
  destruct (toPetMmr_reaches_resize w im a xs true dt outres _ pl pr
              Him L Hin Hns Hpads) as (j & Hrun).
  rewrite Hrun. cbn [map_m].
  set (w4 := mkworld (heap w ++ stage_arrays dt a xs) (rng w) j).
  set (b0 := mkarr (shape a) uint16
                   (Ints (map (fun v => painted Pet (profile_attrs Pet) v 0) xs))).
  assert (Hb0 : nth_error (heap w4) (List.length (heap w)) = Some b0).
  { unfold w4. cbn [heap]. rewrite <- (Nat.add_0_r (List.length (heap w))).
    rewrite nth_error_after. reflexivity. }
  assert (Hneg : Exists (fun wd => fst wd < 0) (pad_widths pl pr)).
  { rewrite Hw. cbn [combine] in Hex.
    apply Exists_cons in Hex. destruct Hex as [H0 | Hex].
    { apply Exists_cons_hd. apply axis_widths_negative. exact H0. }
    apply Exists_cons_tl.
    apply Exists_cons in Hex. destruct Hex as [H1 | Hex].
    { apply Exists_cons_hd. apply axis_widths_negative. exact H1. }
    apply Exists_cons_tl.
    apply Exists_cons in Hex. destruct Hex as [H2 | Hex].
    { apply Exists_cons_hd. apply axis_widths_negative. exact H2. }
    inversion Hex. }
  assert (Hstep : exists e,
    resizeToMmr true dt [n0; n1; n2] pl pr (List.length (heap w)) w4
    = (Raise e, w4) /\
    (List.length (shape a) = 3%nat -> Forall (fun n => 0 < n) [n0; n1; n2] ->
     e = ValueError "index can't contain negative values")).
  { unfold resizeToMmr.
    rewrite (bind_ok _ _ _ _ _ (load_ok _ w4 b0 Hb0)).
    rewrite lift_bind.
    destruct (resize b0 [n0; n1; n2]) as [r | e] eqn:Er.
    - destruct (pad_negative r (pad_widths pl pr) Hneg) as (e & Hp & He).
      rewrite lift_bind, Hp. exists e. split; [reflexivity |].
      intros H3 Hpos. apply He.
      destruct (new_shape_positive _ _ _ H3 Hin Hns Hpos) as (_ & Hsh).
      destruct (Hc b0 [n0; n1; n2]) as (r' & Hr' & Hs' & _);
        [cbn [shape b0]; rewrite H3; reflexivity | exact Hsh | exact Hpos |].
      rewrite Er in Hr'. inversion Hr'. subst r'.
      rewrite Hs', Hw. reflexivity.
    - exists e. split; [reflexivity |].
      intros H3 Hpos. exfalso.
      destruct (new_shape_positive _ _ _ H3 Hin Hns Hpos) as (_ & Hsh).
      destruct (Hc b0 [n0; n1; n2]) as (r' & Hr' & _);
        [cbn [shape b0]; rewrite H3; reflexivity | exact Hsh | exact Hpos |].
      rewrite Er in Hr'. discriminate Hr'. }
  destruct Hstep as (e & Hstep & He).
  rewrite (bind_raise _ _ _ _ _ Hstep).
  exists e, w4, (stage_arrays dt a xs). repeat split. exact He.
Qed.

(** X7: a system name that the geometry tables do not hold makes
    [toPetMmr] raise [AttributeError] at its first statement: nothing is
    allocated, logged or changed. *)
Theorem toPetMmr_unknown_system_raises (w : world) (im : nat) (pad : bool)
        (dt : dtype) (outres : string) :
  mro_lookup outres (mro Res) = None -> builtin_attr outres = None ->
  toPetMmr im pad dt outres w = (Raise (AttributeError outres), w).
Proof.
  intros Hl Hb. unfold toPetMmr.
  rewrite lift_bind, (getattr_undeclared Res outres Hl Hb). reflexivity.
Qed.

(** ** More of [noise] *)

Lemma rand_bind {B} sh (k : ndarray -> M B) w :
  bind (random_rand sh) k w
  = k (mkarr sh float64 (Floats (map (rng w) (seq 0 (size sh)))))
      (mkworld (heap w) (fun i => rng w (i + size sh)%nat) (journal w)).
Proof. reflexivity. Qed.

(** X8: for [n > 0], whatever the filter does and whether or not the final
    product succeeds, [noise] draws exactly one value per voxel from the
    generator, so that the next call continues behind them; it logs
    nothing and changes no array of the store. *)
Theorem noise_draws_one_value_per_voxel (w : world) (im : nat) (a : ndarray)
        (n : Q) (warn_zero : bool) (sigma : Q) :
  (0 < n)%Q -> nth_error (heap w) im = Some a ->
  let out := noise im n warn_zero sigma w in
  rng (snd out) = (fun i => rng w (i + size (shape a))%nat) /\
  journal (snd out) = journal w /\
  forall r, (r < List.length (heap w))%nat ->
            nth_error (heap (snd out)) r = nth_error (heap w) r.
Proof.
  intros Hn Him out. subst out. unfold noise.
  destruct (Qlt_le_dec n 0) as [Hlt | _].
  { exfalso. apply (Qlt_irrefl 0). apply (Qlt_trans _ n); assumption. }
  assert (Hnz : Qeq_bool n 0 = false).
  { destruct (Qeq_bool n 0) eqn:E; [| reflexivity].
    apply Qeq_bool_eq in E. rewrite E in Hn. exfalso. apply (Qlt_irrefl 0 Hn). }
  rewrite Hnz.
  rewrite (bind_ok _ _ _ _ _ (load_ok im w a Him)).
  rewrite rand_bind, lift_bind.
  match goal with
  | |- context [Np.multiply ?x ?y] => destruct (Np.multiply x y)
  end; unfold alloc; cbn [snd heap rng journal];
    (split; [reflexivity | split; [reflexivity |]]); intros r Hr.
  - apply nth_error_app1. exact Hr.
  - reflexivity.
Qed.

Lemma noise_run (w : world) (im : nat) (a : ndarray)
      (n : Q) (warn_zero : bool) (sigma : Q) :
  weighted_mean_filter gaussian ->
  (0 < n)%Q ->
  nth_error (heap w) im = Some a ->
  (forall k, unit_interval (rng w k)) ->
  exists rs w',
    List.length rs = size (shape a) /\ Forall unit_interval rs /\
    noise im n warn_zero sigma w = (Ok (List.length (heap w)), w') /\
    heap w'
    = heap w ++
      [mkarr (shape a) float64
             (Floats (map (fun p => (fst p * snd p)%Q)
                          (combine (Np.to_floats (buf a))
                                   (map (fun r => (1 + n * (2 * r - 1))%Q) rs))))].
Proof.
  intros Hg Hn Him Hrng. unfold noise.
  destruct (Qlt_le_dec n 0) as [Hlt | _].
  { exfalso. apply (Qlt_irrefl 0). apply (Qlt_trans _ n); assumption. }
  assert (Hnz : Qeq_bool n 0 = false).
  { destruct (Qeq_bool n 0) eqn:E; [| reflexivity].
    apply Qeq_bool_eq in E. rewrite E in Hn. exfalso. apply (Qlt_irrefl 0 Hn). }
  rewrite Hnz.
  rewrite (bind_ok _ _ _ _ _ (load_ok im w a Him)).
  unfold bind at 1. unfold random_rand at 1.
  set (us := map (rng w) (seq 0 (size (shape a)))).
  set (u := mkarr (shape a) float64 (Floats us)).
  assert (Hus : Forall unit_interval us).
  { apply Forall_forall. intros x Hx. apply in_map_iff in Hx.
    destruct Hx as (k & <- & _). apply Hrng. }
  destruct (Hg u sigma us eq_refl Hus) as (Hsh & rs & Hrs & Hrl & Hrr).
  exists rs. eexists.
  split.
  { rewrite Hrl. unfold us. rewrite length_map, length_seq. reflexivity. }
  split; [exact Hrr |].
  unfold Np.multiply, Np.map_float. cbn [shape buf].
  rewrite lift_bind, Hsh. cbn [shape]. rewrite shape_eqb_refl, Hrs.
  cbn [Np.to_floats]. rewrite !map_map.
  unfold alloc. cbn [heap rng journal]. split; reflexivity.
Qed.

(** X9: the noise is multiplicative.  Under the assumptions on generator
    and filter, a zero voxel stays zero for every [n > 0], and for
    [n <= 1] no voxel changes sign: a non-negative input voxel gives a
    non-negative output voxel, a non-positive one a non-positive one. *)
Theorem noise_keeps_zero_and_sign (w : world) (im : nat) (a : ndarray)
        (n : Q) (warn_zero : bool) (sigma : Q) :
  weighted_mean_filter gaussian ->
  (0 < n)%Q ->
  nth_error (heap w) im = Some a ->
  buf_length (buf a) = size (shape a) ->
  (forall k, unit_interval (rng w k)) ->
  exists ys w',
    noise im n warn_zero sigma w = (Ok (List.length (heap w)), w') /\
    nth_error (heap w') (List.length (heap w))
    = Some (mkarr (shape a) float64 (Floats ys)) /\
    forall i x, nth_error (Np.to_floats (buf a)) i = Some x ->
      exists y,
        nth_error ys i = Some y /\
        ((x == 0)%Q -> (y == 0)%Q) /\
        ((n <= 1)%Q -> (0 <= x)%Q -> (0 <= y)%Q) /\
        ((n <= 1)%Q -> (x <= 0)%Q -> (y <= 0)%Q).
Proof.
  intros Hg Hn Him Hlen Hrng.
  destruct (noise_run w im a n warn_zero sigma Hg Hn Him Hrng)
    as (rs & w' & Hrl & Hrr & Hrun & Hheap).
  eexists. exists w'. split; [exact Hrun |].
  rewrite Hheap. split; [apply nth_error_snoc |].
  intros i x Hx.
  assert (Hi : (i < List.length rs)%nat).
  { rewrite Hrl, <- Hlen, <- to_floats_length.
    apply nth_error_Some. rewrite Hx. discriminate. }
  destruct (nth_error rs i) as [r |] eqn:Hr;
    [| apply nth_error_None in Hr; lia].
  assert (Hr01 : unit_interval r).
  { rewrite Forall_forall in Hrr. apply Hrr. eapply nth_error_In. exact Hr. }
  destruct Hr01 as [Hr0 Hr1].
  exists (x * (1 + n * (2 * r - 1)))%Q.
  split.
  { rewrite nth_error_map.
    rewrite (nth_error_combine _ _ i x (1 + n * (2 * r - 1))%Q Hx);
      [reflexivity | rewrite nth_error_map, Hr; reflexivity]. }
  split; [intros E; rewrite E; ring |].
  split.
  - intros Hn1 Hx0. apply Qmult_le_0_compat; [exact Hx0 | nra].
  - intros Hn1 Hx0.
    assert (H : (0 <= (- x) * (1 + n * (2 * r - 1)))%Q).
    { apply Qmult_le_0_compat; [lra | nra]. }
    nra.
Qed.

(** ** matify *)

Lemma transpose_buffer_map {A B} (f : A -> B) (z : A) xs sh perm :
  map f (Nd.transpose_buffer z xs sh perm)
  = Nd.transpose_buffer (f z) (map f xs) sh perm.
Proof.
  unfold Nd.transpose_buffer. rewrite map_map. apply map_ext.
  intros t. rewrite map_nth. reflexivity.
Qed.

Lemma transpose_source_3d s0 s1 s2 t a b c :
  Np.unravel [s2; s1; s0] t = [a; b; c] ->
  Nd.transpose_source [s0; s1; s2] [2; 1; 0] t = Np.ravel [s0; s1; s2] [c; b; a].
Proof.
  intros H. unfold Nd.transpose_source.
  change (map (fun p => nth (Z.to_nat p) [s0; s1; s2] 0) [2; 1; 0])
    with [s2; s1; s0].
  rewrite H. reflexivity.
Qed.

Lemma in_bounds_3d i j k s0 s1 s2 :
  0 <= i < s0 -> 0 <= j < s1 -> 0 <= k < s2 ->
  in_bounds [i; j; k] [s0; s1; s2].
Proof. intros. repeat constructor; lia. Qed.


Lemma transposed_item_3d {A} (z : A) xs s0 s1 s2 i j k :
  0 <= i < s0 -> 0 <= j < s1 -> 0 <= k < s2 ->
  nth (Z.to_nat (Np.ravel [s2; s1; s0] [k; j; i]))
      (Nd.transpose_buffer z xs [s0; s1; s2] [2; 1; 0]) z
  = nth (Z.to_nat (Np.ravel [s0; s1; s2] [i; j; k])) xs z.
Proof.
  intros Hi Hj Hk.
  pose proof (in_bounds_3d k j i s2 s1 s0 Hk Hj Hi) as Hb.
  pose proof (ravel_bound _ _ Hb) as Hu.
  unfold Nd.transpose_buffer.
  change (map (fun p => nth (Z.to_nat p) [s0; s1; s2] 0) [2; 1; 0])
    with [s2; s1; s0].
  rewrite nth_map_range by (apply size_count; exact Hu).
  rewrite Z2Nat.id by lia.
  rewrite (transpose_source_3d s0 s1 s2 _ k j i (unravel_ravel _ _ Hb)).
  reflexivity.
Qed.

Lemma transposed_twice_3d {A} (z : A) xs s0 s1 s2 :
  0 <= s0 -> 0 <= s1 -> 0 <= s2 ->
  List.length xs = size [s0; s1; s2] ->
  Nd.transpose_buffer z (Nd.transpose_buffer z xs [s0; s1; s2] [2; 1; 0])
                      [s2; s1; s0] [2; 1; 0]
  = xs.
Proof.
  intros H0 H1 H2 Hl.
  unfold Nd.transpose_buffer at 1.
  change (map (fun p => nth (Z.to_nat p) [s2; s1; s0] 0) [2; 1; 0])
    with [s0; s1; s2].
  rewrite <- Hl. apply (map_range_is _ xs z).
  intros t Ht.
  assert (Hsh : Forall (fun s => 0 <= s) [s0; s1; s2]) by (repeat constructor; lia).
  assert (HT : 0 <= Z.of_nat t < Nd.count [s0; s1; s2]).
  { rewrite Hl in Ht. unfold size in Ht. fold (Nd.count [s0; s1; s2]) in Ht.
    pose proof (count_nonneg _ Hsh). lia. }
  pose proof (unravel_in_bounds _ _ Hsh HT) as Hb.
  pose proof (ravel_unravel _ _ Hsh HT) as Hr.
  destruct (Np.unravel [s0; s1; s2] (Z.of_nat t)) as [| i [| j [| k [| ? ?]]]] eqn:Eu;
    try (inversion Hb as [| ? ? ? ? ? Hb1]; subst;
         try (inversion Hb1 as [| ? ? ? ? ? Hb2]; subst;
              try (inversion Hb2 as [| ? ? ? ? ? Hb3]; subst;
                   try (inversion Hb3 as [| ? ? ? ? ? Hb4]; subst;
                        inversion Hb4))); fail).
  inversion Hb as [| ? ? ? ? Pi Hb1]; subst.
  inversion Hb1 as [| ? ? ? ? Pj Hb2]; subst.
  inversion Hb2 as [| ? ? ? ? Pk Hb3]; subst.
  rewrite (transpose_source_3d s2 s1 s0 _ i j k Eu).
  rewrite (transposed_item_3d z xs s0 s1 s2 i j k Pi Pj Pk).
  rewrite Hr, Nat2Z.id. reflexivity.
Qed.

Lemma transpose_reversed_3d a s0 s1 s2 :
  shape a = [s0; s1; s2] ->
  Nd.transpose a (rev (range (List.length (shape a))))
  = Ok (mkarr [s2; s1; s0] (dtype_of a)
              (match buf a with
               | Ints xs => Ints (Nd.transpose_buffer 0 xs [s0; s1; s2] [2; 1; 0])
               | Floats xs =>
                   Floats (Nd.transpose_buffer 0%Q xs [s0; s1; s2] [2; 1; 0])
               end)).
Proof.
  intros Hs. unfold Nd.transpose. rewrite Hs.
  change (rev (range (List.length [s0; s1; s2]))) with [2; 1; 0].
  reflexivity.
Qed.

Lemma matify_default_run w mat a dt s0 s1 s2 :
  nth_error (heap w) mat = Some a -> shape a = [s0; s1; s2] ->
  exists t,
    Nd.transpose a [2; 1; 0] = Ok t /\
    shape t = [s2; s1; s0] /\
    buf t = (match buf a with
             | Ints xs => Ints (Nd.transpose_buffer 0 xs [s0; s1; s2] [2; 1; 0])
             | Floats xs =>
                 Floats (Nd.transpose_buffer 0%Q xs [s0; s1; s2] [2; 1; 0])
             end) /\
    matify mat dt None w
    = (Ok (List.length (heap w)),
       mkworld (heap w ++ [Np.astype t dt]) (rng w) (journal w)).
Proof.
  intros Hm Hs.
  pose proof (transpose_reversed_3d a s0 s1 s2 Hs) as Ht.
  eexists. split.
  { rewrite Hs in Ht. exact Ht. }
  split; [reflexivity |]. split; [reflexivity |].
  unfold matify.
  rewrite (bind_ok _ _ _ _ _ (load_ok mat w a Hm)).
  rewrite lift_bind, Ht. reflexivity.
Qed.

Lemma to_floats_transposed a t s0 s1 s2 :
  buf t = (match buf a with
           | Ints xs => Ints (Nd.transpose_buffer 0 xs [s0; s1; s2] [2; 1; 0])
           | Floats xs =>
               Floats (Nd.transpose_buffer 0%Q xs [s0; s1; s2] [2; 1; 0])
           end) ->
  Np.to_floats (buf t)
  = Nd.transpose_buffer 0%Q (Np.to_floats (buf a)) [s0; s1; s2] [2; 1; 0].
Proof.
  intros ->. destruct (buf a) as [xs | xs]; cbn [Np.to_floats].
  - apply (transpose_buffer_map inject_Z 0).
  - reflexivity.
Qed.

(** Conversion is elementwise: it commutes with the reversal of axes. *)
Lemma astype_transposed a t dt s0 s1 s2 :
  buf t = (match buf a with
           | Ints xs => Ints (Nd.transpose_buffer 0 xs [s0; s1; s2] [2; 1; 0])
           | Floats xs =>
               Floats (Nd.transpose_buffer 0%Q xs [s0; s1; s2] [2; 1; 0])
           end) ->
  buf (Np.astype t dt)
  = (match buf (Np.astype a dt) with
     | Ints xs => Ints (Nd.transpose_buffer 0 xs [s0; s1; s2] [2; 1; 0])
     | Floats xs =>
         Floats (Nd.transpose_buffer 0%Q xs [s0; s1; s2] [2; 1; 0])
     end).
Proof.
  intros Hb. unfold Np.astype. cbn [buf]. rewrite Hb.
  destruct (buf a) as [xs | xs]; destruct (is_float dt).
  - rewrite (transpose_buffer_map inject_Z 0). reflexivity.
  - rewrite (transpose_buffer_map wrap16 0). reflexivity.
  - reflexivity.
  - rewrite (transpose_buffer_map (fun q => wrap16 (Qtrunc q)) 0%Q).
    reflexivity.
Qed.

(** X10: on a 3-D array and with the default axes, [matify] returns a new
    array of the chosen dtype whose axes are reversed, (z, y, x) to
    (x, y, z): its shape is the reversed shape and its element
    [k, j, i] is the element [i, j, k] of [a.astype(dtype)], the input
    converted; the input stays as it was. *)
Theorem matify_reverses_the_axes (w : world) (mat : nat) (a : ndarray)
        (dt : dtype) (s0 s1 s2 : Z) :
  nth_error (heap w) mat = Some a -> shape a = [s0; s1; s2] ->
  exists c w',
    matify mat dt None w = (Ok (List.length (heap w)), w') /\
    nth_error (heap w') (List.length (heap w)) = Some c /\
    nth_error (heap w') mat = Some a /\
    shape c = [s2; s1; s0] /\ dtype_of c = dt /\
    forall i j k, 0 <= i < s0 -> 0 <= j < s1 -> 0 <= k < s2 ->
                  item c [k; j; i] = item (Np.astype a dt) [i; j; k].
Proof.
  intros Hm Hs.
  destruct (matify_default_run w mat a dt s0 s1 s2 Hm Hs)
    as (t & _ & Hst & Hbt & Hrun).
  exists (Np.astype t dt). eexists. split; [exact Hrun |].
  cbn [heap]. split; [apply nth_error_snoc |].
  split; [apply nth_error_grow; exact Hm |].
  split; [exact Hst |]. split; [reflexivity |].
  intros i j k Hi Hj Hk. unfold item.
  rewrite (to_floats_transposed (Np.astype a dt) (Np.astype t dt) s0 s1 s2
             (astype_transposed a t dt s0 s1 s2 Hbt)).
  cbn [Np.astype shape]. rewrite Hst, Hs.
  apply transposed_item_3d; assumption.
Qed.

Lemma wrap16_idempotent z : wrap16 (wrap16 z) = wrap16 z.
Proof. apply wrap16_small. apply wrap16_range. Qed.

Lemma astype_transposed_twice a t dt s0 s1 s2 :
  shape a = [s0; s1; s2] -> 0 <= s0 -> 0 <= s1 -> 0 <= s2 ->
  buf_length (buf a) = size (shape a) ->
  buf t = (match buf a with
           | Ints xs => Ints (Nd.transpose_buffer 0 xs [s0; s1; s2] [2; 1; 0])
           | Floats xs =>
               Floats (Nd.transpose_buffer 0%Q xs [s0; s1; s2] [2; 1; 0])
           end) ->
  forall t2,
    shape t2 = [s0; s1; s2] ->
    buf t2 = (match buf (Np.astype t dt) with
              | Ints xs => Ints (Nd.transpose_buffer 0 xs [s2; s1; s0] [2; 1; 0])
              | Floats xs =>
                  Floats (Nd.transpose_buffer 0%Q xs [s2; s1; s0] [2; 1; 0])
              end) ->
    Np.astype t2 dt = Np.astype a dt.
Proof.
  intros Hs H0 H1 H2 Hl Hbt t2 Hs2 Hb2.
  unfold Np.astype. rewrite Hs2, Hs, Hb2. f_equal.
  unfold Np.astype. cbn [buf]. rewrite Hbt. rewrite Hs in Hl.
  destruct (buf a) as [xs | xs]; cbn [buf_length] in Hl;
    destruct (is_float dt) eqn:Hf.
  - rewrite (transpose_buffer_map inject_Z 0).
    change (inject_Z 0) with 0%Q.
    rewrite (transposed_twice_3d 0%Q (map inject_Z xs) s0 s1 s2 H0 H1 H2)
      by (rewrite length_map; exact Hl).
    reflexivity.
  - rewrite (transpose_buffer_map wrap16 0). change (wrap16 0) with 0.
    rewrite (transpose_buffer_map wrap16 0). change (wrap16 0) with 0.
    rewrite (transpose_buffer_map wrap16 0). change (wrap16 0) with 0.
    rewrite (transposed_twice_3d 0 (map wrap16 (map wrap16 xs)) s0 s1 s2 H0 H1 H2)
      by (rewrite !length_map; exact Hl).
    rewrite map_map. f_equal. apply map_ext. intros z. apply wrap16_idempotent.
  - rewrite transposed_twice_3d by assumption. reflexivity.
  - rewrite (transpose_buffer_map wrap16 0). change (wrap16 0) with 0.
    rewrite (transpose_buffer_map (fun q => wrap16 (Qtrunc q)) 0%Q).
    change (wrap16 (Qtrunc 0)) with 0.
    rewrite (transpose_buffer_map wrap16 0). change (wrap16 0) with 0.
    rewrite (transposed_twice_3d 0 _ s0 s1 s2 H0 H1 H2)
      by (rewrite !length_map; exact Hl).
    rewrite map_map. f_equal. apply map_ext. intros q. apply wrap16_idempotent.
Qed.

(** X11: [matify] with the default axes, applied twice to a 3-D array,
    gives back the array in its own axis order: the second result is
    [a.astype(dtype)].  Both results are new arrays, the input is not
    changed. *)
Theorem matify_twice_is_astype (w : world) (mat : nat) (a : ndarray)
        (dt : dtype) (s0 s1 s2 : Z) :
  nth_error (heap w) mat = Some a -> shape a = [s0; s1; s2] ->
  0 <= s0 -> 0 <= s1 -> 0 <= s2 ->
  buf_length (buf a) = size (shape a) ->
  exists w1 w2,
    matify mat dt None w = (Ok (List.length (heap w)), w1) /\
    matify (List.length (heap w)) dt None w1
    = (Ok (S (List.length (heap w))), w2) /\
    nth_error (heap w2) (S (List.length (heap w))) = Some (Np.astype a dt) /\
    nth_error (heap w2) mat = Some a.
Proof.
  intros Hm Hs H0 H1 H2 Hl.
  destruct (matify_default_run w mat a dt s0 s1 s2 Hm Hs)
    as (t & _ & Hst & Hbt & Hrun).
  set (w1 := mkworld (heap w ++ [Np.astype t dt]) (rng w) (journal w)) in *.
  assert (Hc1 : nth_error (heap w1) (List.length (heap w)) = Some (Np.astype t dt)).
  { unfold w1. cbn [heap]. apply nth_error_snoc. }
  destruct (matify_default_run w1 (List.length (heap w)) (Np.astype t dt) dt
              s2 s1 s0 Hc1 Hst)
    as (t2 & _ & Hst2 & Hbt2 & Hrun2).
  exists w1. eexists. split; [exact Hrun |].
  assert (Hn : List.length (heap w1) = S (List.length (heap w))).
  { unfold w1. cbn [heap]. rewrite length_app. cbn [List.length]. lia. }
  rewrite Hn in Hrun2. split; [exact Hrun2 |].
  cbn [heap]. split.
  - rewrite <- Hn. rewrite nth_error_snoc.
    rewrite (astype_transposed_twice a t dt s0 s1 s2 Hs H0 H1 H2 Hl Hbt t2 Hst2 Hbt2).
    reflexivity.
  - unfold w1. cbn [heap]. apply nth_error_grow. apply nth_error_grow. exact Hm.
Qed.

(** The axis an entry of [transpose] stands for. *)
Lemma checked_axes_sound ndim axes :
  forall seen perm,
    Nd.checked_axes ndim seen axes = Ok perm ->
    Forall (fun ax => - ndim <= ax < ndim) axes /\
    perm = map (fun ax => if ax <? 0 then ax + ndim else ax) axes /\
    NoDup perm /\ (forall p, In p perm -> ~ In p seen).
Proof.
  induction axes as [| ax rest IH]; intros seen perm H.
  - inversion H. repeat split; try constructor. intros p [].
  - cbn [Nd.checked_axes] in H.
    destruct ((- ndim <=? ax) && (ax <? ndim)) eqn:Hr; [| discriminate].
    apply andb_true_iff in Hr. destruct Hr as [Hlo Hhi].
    apply Z.leb_le in Hlo. apply Z.ltb_lt in Hhi.
    set (ax' := if ax <? 0 then ax + ndim else ax) in *.
    destruct (existsb (Z.eqb ax') seen) eqn:Hseen; [discriminate |].
    destruct (Nd.checked_axes ndim (ax' :: seen) rest) as [tl |] eqn:Et;
      [| discriminate].
    cbn [rbind] in H. inversion H. subst perm.
    destruct (IH _ _ Et) as (Hall & Htl & Hnd & Hfresh).
    split; [constructor; [lia | exact Hall] |].
    split; [cbn [map]; fold ax'; rewrite Htl; reflexivity |].
    split.
    + constructor; [| exact Hnd].
      intros Hin. apply (Hfresh ax' Hin). left. reflexivity.
    + intros p [<- | Hp] Hin.
      * assert (E : existsb (Z.eqb ax') seen = true).
        { apply existsb_exists. exists ax'. split; [exact Hin | apply Z.eqb_refl]. }
        congruence.
      * apply (Hfresh p Hp). right. exact Hin.
Qed.

Lemma checked_axes_complete ndim axes :
  forall seen,
    Forall (fun ax => - ndim <= ax < ndim) axes ->
    NoDup (map (fun ax => if ax <? 0 then ax + ndim else ax) axes) ->
    (forall p, In p (map (fun ax => if ax <? 0 then ax + ndim else ax) axes) ->
               ~ In p seen) ->
    Nd.checked_axes ndim seen axes
    = Ok (map (fun ax => if ax <? 0 then ax + ndim else ax) axes).
Proof.
  induction axes as [| ax rest IH]; intros seen Hall Hnd Hfresh.
  - reflexivity.
  - inversion Hall as [| ? ? Hax Hrest]; subst.
    cbn [map] in Hnd, Hfresh |- *. inversion Hnd as [| ? ? Hnot Hnd']; subst.
    cbn [Nd.checked_axes].
    assert (Hr : (- ndim <=? ax) && (ax <? ndim) = true).
    { apply andb_true_iff. split; [apply Z.leb_le | apply Z.ltb_lt]; lia. }
    rewrite Hr.
    set (ax' := if ax <? 0 then ax + ndim else ax) in *.
    destruct (existsb (Z.eqb ax') seen) eqn:Hseen.
    + apply existsb_exists in Hseen. destruct Hseen as (x & Hx & Ex).
      apply Z.eqb_eq in Ex. subst x.
      exfalso. apply (Hfresh ax'); [left; reflexivity | exact Hx].
    + rewrite (IH (ax' :: seen) Hrest Hnd'); [reflexivity |].
      intros p Hp [<- | Hin]; [exact (Hnot Hp) |].
      apply (Hfresh p); [right; exact Hp | exact Hin].
Qed.

(** X12: [matify] with explicit axes returns exactly for a permutation of
    the axes: one entry per axis, each in [-ndim, ndim), none naming an
    axis twice once negative entries are counted from the end; otherwise
    it raises.  When it returns, the result is a new array of the chosen
    dtype whose axis [i] has the extent of the named input axis, and the
    input is unchanged. *)
Theorem matify_returns_exactly_for_a_permutation (w : world) (mat : nat)
        (a : ndarray) (dt : dtype) (axes : list Z) :
  nth_error (heap w) mat = Some a ->
  let ndim := Z.of_nat (List.length (shape a)) in
  let axis := fun ax => if ax <? 0 then ax + ndim else ax in
  ((exists r w', matify mat dt (Some axes) w = (Ok r, w')) <->
   (List.length axes = List.length (shape a) /\
    Forall (fun ax => - ndim <= ax < ndim) axes /\
    NoDup (map axis axes))) /\
  (forall r w', matify mat dt (Some axes) w = (Ok r, w') ->
     r = List.length (heap w) /\
     nth_error (heap w') mat = Some a /\
     exists c,
       nth_error (heap w') r = Some c /\
       shape c = map (fun ax => nth (Z.to_nat (axis ax)) (shape a) 0) axes /\
       dtype_of c = dt).
Proof.
  intros Hm ndim axis.
  assert (Hstep : forall r w',
    matify mat dt (Some axes) w = (Ok r, w') ->
    (List.length axes = List.length (shape a) /\
     Forall (fun ax => - ndim <= ax < ndim) axes /\
     NoDup (map axis axes)) /\
    r = List.length (heap w) /\
    nth_error (heap w') mat = Some a /\
    exists c,
      nth_error (heap w') r = Some c /\
      shape c = map (fun ax => nth (Z.to_nat (axis ax)) (shape a) 0) axes /\
      dtype_of c = dt).
  { intros r w' Hrun. unfold matify in Hrun.
    rewrite (bind_ok _ _ _ _ _ (load_ok mat w a Hm)) in Hrun.
    rewrite lift_bind in Hrun. unfold Nd.transpose in Hrun.
    destruct (Nat.eqb_spec (List.length axes) (List.length (shape a)))
      as [El | El]; cbn [negb] in Hrun; [| discriminate].
    fold ndim in Hrun.
    destruct (Nd.checked_axes ndim [] axes) as [perm |] eqn:Ep;
      cbn [rbind] in Hrun; [| discriminate].
    destruct (checked_axes_sound ndim axes [] perm Ep)
      as (Hall & Hperm & Hnd & _).
    unfold alloc in Hrun. inversion Hrun. subst r w'. cbn [heap].
    split.
    { split; [exact El |]. split; [exact Hall |].
      fold axis in Hperm. rewrite <- Hperm. exact Hnd. }
    split; [reflexivity |].
    split; [apply nth_error_grow; exact Hm |].
    eexists. split; [apply nth_error_snoc |].
    cbn [Np.astype shape dtype_of]. split; [| reflexivity].
    rewrite Hperm, map_map. reflexivity. }
  split.
  - split.
    + intros (r & w' & Hrun). exact (proj1 (Hstep r w' Hrun)).
    + intros (El & Hall & Hnd). unfold matify.
      rewrite (bind_ok _ _ _ _ _ (load_ok mat w a Hm)).
      rewrite lift_bind. unfold Nd.transpose.
      rewrite El, Nat.eqb_refl. cbn [negb]. fold ndim.
      rewrite (checked_axes_complete ndim axes [] Hall Hnd)
        by (intros p _ []).
      cbn [rbind]. unfold alloc. eexists. eexists. reflexivity.
  - intros r w' Hrun. exact (proj2 (Hstep r w' Hrun)).
Qed.

(** ** getRaw *)

Lemma uint16_items_pairs (P : list Byte.byte -> Prop) :
  P [] -> (forall b, P [b]) ->
  (forall lo hi rest, P rest -> P (lo :: hi :: rest)) ->
  forall bs, P bs.
Proof.
  intros H0 H1 H2 bs.
  assert (H : P bs /\ forall b, P (b :: bs)).
  { induction bs as [| c rest [IHa IHb]].
    - split; [exact H0 | exact H1].
    - split; [apply IHb |]. intros b. apply H2. exact IHa. }
  exact (proj1 H).
Qed.

Lemma uint16_items_length bs :
  Z.of_nat (List.length (Nd.uint16_items bs)) = Z.of_nat (List.length bs) / 2.
Proof.
  induction bs as [| b | lo hi rest IH] using uint16_items_pairs.
  - reflexivity.
  - reflexivity.
  - cbn [Nd.uint16_items List.length].
    rewrite !Nat2Z.inj_succ, IH.
    replace (Z.succ (Z.succ (Z.of_nat (List.length rest))))
      with (Z.of_nat (List.length rest) + 1 * 2) by lia.
    rewrite Z.div_add by lia. lia.
Qed.

Lemma uint16_items_range bs :
  Forall (fun x => 0 <= x < 65536) (Nd.uint16_items bs).
Proof.
  induction bs as [| b | lo hi rest IH] using uint16_items_pairs.
  - constructor.
  - constructor.
  - cbn [Nd.uint16_items]. constructor; [| exact IH].
    pose proof (Byte.to_N_bounded lo). pose proof (Byte.to_N_bounded hi). lia.
Qed.

Lemma show_raw_shape : Nd.show_shape raw_shape = "(362,434,362)".
Proof. vm_compute. reflexivity. Qed.

Lemma count_raw_shape : Nd.count raw_shape = 56873096.
Proof. vm_compute. reflexivity. Qed.

Lemma getRaw_run fs fname w :
  match fs fname with
  | Unreadable e => getRaw fs fname w = (Failed e fname, w)
  | Contents bytes =>
      let items := Z.of_nat (List.length bytes) / 2 in
      if items =? 362 * 434 * 362
      then getRaw fs fname w
           = (Returned (List.length (heap w)),
              mkworld (heap w ++ [mkarr [362; 434; 362] uint16
                                        (Ints (Nd.uint16_items bytes))])
                      (rng w) (journal w)) /\
           labeled (mkarr [362; 434; 362] uint16 (Ints (Nd.uint16_items bytes)))
                   (Nd.uint16_items bytes)
      else getRaw fs fname w
           = (Raised (ValueError
                        ("cannot reshape array of size "
                           ++ NilZero.string_of_int (Z.to_int items)
                           ++ " into shape (362,434,362)")%string), w)
  end.
Proof.
  unfold getRaw. destruct (fs fname) as [e | bytes]; [reflexivity |].
  set (items := Z.of_nat (List.length bytes) / 2).
  unfold Nd.reshape, Nd.fromfile_uint16.
  cbn [buf buf_length dtype_of].
  rewrite uint16_items_length. fold items.
  rewrite count_raw_shape, show_raw_shape.
  change (362 * 434 * 362) with 56873096.
  destruct (Z.eqb_spec items 56873096) as [E | E].
  - split; [reflexivity |].
    split; [reflexivity |]. split; [reflexivity |].
    split; [| apply uint16_items_range].
    cbn [shape]. unfold size. apply Nat2Z.inj.
    rewrite uint16_items_length. fold items. rewrite E.
    change (fold_right Z.mul 1 [362; 434; 362]) with (Nd.count raw_shape).
    rewrite count_raw_shape. rewrite Z2Nat.id by lia. reflexivity.
  - reflexivity.
Qed.

Lemma getRaw_whole_file fs fname w bytes :
  fs fname = Contents bytes ->
  Z.of_nat (List.length bytes) / 2 = 362 * 434 * 362 ->
  getRaw fs fname w
  = (Returned (List.length (heap w)),
     mkworld (heap w ++ [mkarr [362; 434; 362] uint16
                               (Ints (Nd.uint16_items bytes))])
             (rng w) (journal w)).
Proof.
  intros Hf Hn. pose proof (getRaw_run fs fname w) as R.
  rewrite Hf in R. cbv zeta in R. rewrite Hn, Z.eqb_refl in R.
  exact (proj1 R).
Qed.

(** The item at position [i] is made of the bytes at [2 i] and
    [2 i + 1], the low byte first. *)
Lemma uint16_items_nth bs :
  forall i, (i < List.length (Nd.uint16_items bs))%nat ->
    nth i (Nd.uint16_items bs) 0
    = Z.of_N (Byte.to_N (nth (2 * i) bs Byte.x00))
      + 256 * Z.of_N (Byte.to_N (nth (2 * i + 1) bs Byte.x00)).
Proof.
  induction bs as [| b | lo hi rest IH] using uint16_items_pairs;
    intros i Hi.
  - cbn [Nd.uint16_items List.length] in Hi. lia.
  - cbn [Nd.uint16_items List.length] in Hi. lia.
  - cbn [Nd.uint16_items List.length] in Hi.
    destruct i as [| i]; [reflexivity |].
    replace (2 * S i)%nat with (S (S (2 * i))) by lia.
    replace (S (S (2 * i)) + 1)%nat with (S (S (2 * i + 1))) by lia.
    cbn [Nd.uint16_items nth]. apply IH. lia.
Qed.

Lemma whole_volume_bytes len :
  len / 2 = 362 * 434 * 362 <->
  2 * (362 * 434 * 362) <= len <= 2 * (362 * 434 * 362) + 1.
Proof.
  change (362 * 434 * 362) with 56873096.
  pose proof (Z.div_mod len 2 ltac:(lia)).
  pose proof (Z.mod_pos_bound len 2 ltac:(lia)). lia.
Qed.

Lemma raw_item bytes z y x :
  Z.of_nat (List.length bytes) / 2 = 362 * 434 * 362 ->
  0 <= z < 362 -> 0 <= y < 434 -> 0 <= x < 362 ->
  item (mkarr [362; 434; 362] uint16 (Ints (Nd.uint16_items bytes))) [z; y; x]
  = inject_Z (byte_at bytes (2 * ((z * 434 + y) * 362 + x))
              + 256 * byte_at bytes (2 * ((z * 434 + y) * 362 + x) + 1)).
Proof.
  intros Hn Hz Hy Hx. unfold item. cbn [shape buf Np.to_floats].
  assert (Er : Np.ravel [362; 434; 362] [z; y; x] = (z * 434 + y) * 362 + x).
  { cbn [Np.ravel fold_right]. lia. }
  rewrite Er. set (t := (z * 434 + y) * 362 + x).
  assert (Ht : 0 <= t < 56873096) by (unfold t; nia).
  change 0%Q with (inject_Z 0). rewrite map_nth. f_equal.
  pose proof (uint16_items_length bytes) as Hl. rewrite Hn in Hl.
  change (362 * 434 * 362) with 56873096 in Hl.
  rewrite uint16_items_nth by lia.
  unfold byte_at.
  replace (2 * Z.to_nat t)%nat with (Z.to_nat (2 * t)) by lia.
  replace (Z.to_nat (2 * t) + 1)%nat with (Z.to_nat (2 * t + 1)) by lia.
  reflexivity.
Qed.

(** X13: [getRaw] returns exactly for a file that can be read and holds
    the 2 * 362 * 434 * 362 bytes of a volume, or one byte more (the odd
    byte is not read).  The result is then a new uint16 array of shape
    (362, 434, 362) whose voxel [z, y, x] is the two-byte item at byte
    offset [2 ((z * 434 + y) * 362 + x)] of the file, the low byte first:
    [x] runs fastest.  Otherwise it raises, the exception of the
    operating system for a file that cannot be read and else the
    [ValueError] of [reshape], which names the number of items read; the
    store is then as before. *)
Theorem getRaw_lays_voxels_in_file_order (fs : file_system)
        (fname : string) (w : world) :
  ((exists r w1, getRaw fs fname w = (Returned r, w1)) <->
   (exists bytes,
       fs fname = Contents bytes /\
       2 * (362 * 434 * 362) <= Z.of_nat (List.length bytes)
       <= 2 * (362 * 434 * 362) + 1)) /\
  (forall r w1,
      getRaw fs fname w = (Returned r, w1) ->
      exists bytes a,
        fs fname = Contents bytes /\ r = List.length (heap w) /\
        w1 = mkworld (heap w ++ [a]) (rng w) (journal w) /\
        shape a = [362; 434; 362] /\ labeled a (Nd.uint16_items bytes) /\
        forall z y x, 0 <= z < 362 -> 0 <= y < 434 -> 0 <= x < 362 ->
          item a [z; y; x]
          = inject_Z
              (byte_at bytes (2 * ((z * 434 + y) * 362 + x))
               + 256 * byte_at bytes (2 * ((z * 434 + y) * 362 + x) + 1))) /\
  (forall o w1,
      getRaw fs fname w = (o, w1) -> (forall r, o <> Returned r) ->
      w1 = w /\
      match fs fname with
      | Unreadable e => o = Failed e fname
      | Contents bytes =>
          o = Raised (ValueError
                        ("cannot reshape array of size "
                           ++ NilZero.string_of_int
                                (Z.to_int (Z.of_nat (List.length bytes) / 2))
                           ++ " into shape (362,434,362)")%string)
      end).
Proof.
  pose proof (getRaw_run fs fname w) as R.
  destruct (fs fname) as [e | bytes].
  - split; [| split].
    + split.
      * intros (r & w1 & H). rewrite R in H. discriminate H.
      * intros (bytes & H & _). discriminate H.
    + intros r w1 H. rewrite R in H. discriminate H.
    + intros o w1 H _. rewrite R in H. inversion H. auto.
  - cbv zeta in R.
    destruct (Z.eqb_spec (Z.of_nat (List.length bytes) / 2) (362 * 434 * 362))
      as [E | E].
    + destruct R as [R L]. split; [| split].
      * split.
        -- intros _. exists bytes. split; [reflexivity |].
           apply whole_volume_bytes. exact E.
        -- intros _. eexists. eexists. exact R.
      * intros r w1 H. rewrite R in H. inversion H.
        exists bytes. eexists. split; [reflexivity |].
        split; [reflexivity |]. split; [reflexivity |].
        split; [reflexivity |]. split; [exact L |].
        intros z y x Hz Hy Hx. apply raw_item; assumption.
      * intros o w1 H Hno. rewrite R in H. inversion H. subst o.
        exfalso. exact (Hno _ eq_refl).
    + split; [| split].
      * split.
        -- intros (r & w1 & H). rewrite R in H. discriminate H.
        -- intros (bytes' & H & Hlen). inversion H. subst bytes'.
           exfalso. apply E. apply whole_volume_bytes. exact Hlen.
      * intros r w1 H. rewrite R in H. discriminate H.
      * intros o w1 H _. rewrite R in H. inversion H. auto.
Qed.

(** ** getRaw, then toPetMmr *)

Lemma raw_new_shape_fits outres :
  In outres system_names ->
  new_shape_of raw_shape (table Res outres) = Ok (raw_new_shape outres) /\
  Forall (fun n => 0 < n) (raw_new_shape outres) /\
  Forall2 (fun n t => n <= Qfloor t) (raw_new_shape outres) (table Shape outres).
Proof.
  intros [<- | [<- | [<- | []]]];
    (split; [vm_compute; reflexivity |
             split; [repeat constructor |
                     repeat constructor; apply Z.leb_le; vm_compute;
                     reflexivity]]).
Qed.

Lemma getRaw_returned fs fname w r w1 :
  getRaw fs fname w = (Returned r, w1) ->
  exists a xs,
    r = List.length (heap w) /\
    w1 = mkworld (heap w ++ [a]) (rng w) (journal w) /\
    shape a = raw_shape /\ labeled a xs.
Proof.
  intros H. pose proof (getRaw_run fs fname w) as R.
  destruct (fs fname) as [e | bytes]; [rewrite R in H; discriminate |].
  cbv zeta in R.
  destruct (Z.of_nat (List.length bytes) / 2 =? 362 * 434 * 362).
  - destruct R as [R L]. rewrite R in H. inversion H.
    eexists. eexists. split; [reflexivity |]. split; [reflexivity |].
    split; [reflexivity | exact L].
  - rewrite R in H. discriminate.
Qed.

Lemma getRaw_then_toPetMmr_run fs fname w r w1 (pad : bool) dt outres :
  resize_contract resize ->
  getRaw fs fname w = (Returned r, w1) ->
  In outres system_names ->
  let n := List.length (heap w1) in
  let out_shape := if pad then map Qfloor (table Shape outres)
                   else raw_new_shape outres in
  exists w2,
    toPetMmr r pad dt outres w1
    = (Ok [n + 4; n + 5; n + 6; n + 7]%nat, w2) /\
    forall q, In q [n + 4; n + 5; n + 6; n + 7]%nat ->
              exists b, nth_error (heap w2) q = Some b /\
                        shape b = out_shape /\ dtype_of b = dt.
Proof.
  intros Hc Hraw Hin n out_shape.
  destruct (getRaw_returned fs fname w r w1 Hraw) as (a & xs & -> & -> & Hs & L).
  destruct (raw_new_shape_fits outres Hin) as (Hns & Hpos & Hfit).
  rewrite <- Hs in Hns.
  assert (H3 : List.length (shape a) = 3%nat) by (rewrite Hs; reflexivity).
  assert (Him : nth_error
                  (heap (mkworld (heap w ++ [a]) (rng w) (journal w)))
                  (List.length (heap w)) = Some a).
  { cbn [heap]. apply nth_error_snoc. }
  subst out_shape. destruct pad.
  - exact (toPetMmr_padded_run _ _ a xs dt outres _ Hc Him L H3 Hin Hns
               Hpos Hfit).
  - destruct (toPetMmr_unpadded_run _ _ a xs dt outres _ Hc Him L H3 Hin
                Hns Hpos) as (w2 & cs & Hrun & Hrefs & HR).
    exists w2. split; [exact Hrun |].
    assert (S : Forall (fun c => shape c = raw_new_shape outres /\
                                 dtype_of c = dt) cs).
    { clear - HR.
      induction HR as [| b c bs cs (r & _ & E & K) _ IH];
        constructor; [| exact IH].
      subst c. cbn [Np.astype shape dtype_of].
      split; [exact E | reflexivity]. }
    pose proof (Forall2_with _ _ _ _ Hrefs S) as F.
    intros q Hq.
    destruct (Forall2_in_left _ _ _ _ F Hq) as (b & _ & Hb & Sb).
    exists b. split; [exact Hb | exact Sb].
Qed.

(** X14: whatever [getRaw] returns, [toPetMmr] accepts, for each of the
    three system names and with or without padding: the four arrays come
    back with dtype [dt]; their shape is the whole part of the target
    shape when [pad] is set, (127, 344, 344) for mMR, and otherwise the
    resized shape (89, 104, 87) for mMR, (181, 217, 181) for MR and
    (362, 434, 362) for brainweb.  The volume of [getRaw] never exceeds a
    target grid. *)
Theorem getRaw_volume_passes_toPetMmr (fs : file_system) (fname : string)
        (w : world) (r : nat) (w1 : world) (pad : bool) (dt : dtype)
        (outres : string) :
  resize_contract resize ->
  getRaw fs fname w = (Returned r, w1) ->
  In outres system_names ->
  let n := List.length (heap w1) in
  let out_shape := if pad then map Qfloor (table Shape outres)
                   else raw_new_shape outres in
  exists w2,
    toPetMmr r pad dt outres w1
    = (Ok [n + 4; n + 5; n + 6; n + 7]%nat, w2) /\
    forall q, In q [n + 4; n + 5; n + 6; n + 7]%nat ->
              exists b, nth_error (heap w2) q = Some b /\
                        shape b = out_shape /\ dtype_of b = dt.
Proof. exact (getRaw_then_toPetMmr_run fs fname w r w1 pad dt outres). Qed.

End Program.

(** * Running the model on small inputs *)

Lemma demo_volume_labeled : labeled demo_volume demo_voxels.
Proof.
  unfold labeled. repeat split; try reflexivity.
  unfold demo_voxels. repeat constructor; lia.
Qed.

Lemma cube_volume_labeled : labeled cube_volume cube_voxels.
Proof.
  unfold labeled. repeat split; try reflexivity.
  apply Forall_forall. intros x Hx. apply repeat_spec in Hx. subst x. lia.
Qed.

Lemma resize_blank_contract : resize_contract resize_blank.
Proof.
  intros a s _ Ha Hs. unfold resize_blank.
  assert (P : forall l, Forall (fun n => 0 < n) l ->
                        forallb (fun n => 0 <? n) l = true).
  { intros l Hl. apply forallb_forall. intros n Hn.
    rewrite Forall_forall in Hl. apply Z.ltb_lt. exact (Hl n Hn). }
  rewrite (P _ Ha), (P _ Hs). cbn [andb].
  exists (Np.zeros s float64).
  split; [reflexivity |]. split; [reflexivity | discriminate].
Qed.

Lemma gaussian_delta_mean : weighted_mean_filter gaussian_delta.
Proof.
  intros u sigma xs Hb Hxs. split; [reflexivity |].
  exists xs. repeat split; assumption.
Qed.

Example indices_bone_demo :
  indices no_builtins Act demo_volume "bone"
  = Ok (mkmask [1; 2; 3] [false; false; false; true; true; true]).
Proof. reflexivity. Qed.

Example indices_greyMatter_demo :
  indices no_builtins Act demo_volume "greyMatter"
  = Ok (mkmask [1; 2; 3] [false; true; false; false; false; false]).
Proof. reflexivity. Qed.

Example paint_PET_demo :
  option_map buf (nth_error (heap (snd (paint no_builtins "PET" Pet 0 demo_world))) 1)
  = Some (Ints [0; 128; 32; 0; 0; 0]).
Proof. vm_compute. reflexivity. Qed.

Example paint_T1_demo :
  option_map buf (nth_error (heap (snd (paint no_builtins "T1" T1 0 demo_world))) 1)
  = Some (Ints [0; 106; 154; 48; 48; 48]).
Proof. vm_compute. reflexivity. Qed.

Example paint_T2_demo :
  option_map buf (nth_error (heap (snd (paint no_builtins "T2" T2 0 demo_world))) 1)
  = Some (Ints [0; 100; 70; 200; 200; 200]).
Proof. vm_compute. reflexivity. Qed.

Example muMap_demo :
  option_map buf
    (nth_error (heap (snd (build_muMap no_builtins 0 float32 demo_world))) 1)
  = Some (Floats [0; 0.0975; 0.0975; 0.13; 0.13; 0.13]%Q).
Proof. vm_compute. reflexivity. Qed.

Example pad_demo :
  Np.pad (mkarr [2; 2] uint16 (Ints [1; 2; 3; 4])) [(1, 0); (1, 2)]
  = Ok (mkarr [3; 5] uint16 (Ints [0; 0; 0; 0; 0; 0; 1; 2; 0; 0; 0; 3; 4; 0; 0])).
Proof. vm_compute. reflexivity. Qed.

Example rint_demo :
  map Np.rint [0.5; 1.5; 2.5; 1.2; 1.7; -1.5]%Q = [0; 2; 2; 1; 2; -2].
Proof. vm_compute. reflexivity. Qed.

Example new_shape_brainweb_to_mMR :
  new_shape_of no_builtins [362; 434; 362] (table Res "mMR") = Ok [89; 104; 87].
Proof. vm_compute. reflexivity. Qed.

Example Shape_MR_is_fractional :
  table Shape "MR" = [257.96240; 717.68720; 717.68720]%Q.
Proof. vm_compute. reflexivity. Qed.

(** * The theorems at concrete inputs *)

Lemma muMap_holds_bone_tissue_zero_witness :
  exists bone ys w',
    indices no_builtins Act demo_volume "bone" = Ok bone /\
    build_muMap no_builtins 0 float32 demo_world = (Ok 1%nat, w') /\
    nth_error (heap w') 1 = Some (mkarr [1; 2; 3] float32 (Floats ys)) /\
    forall i v, nth_error demo_voxels i = Some v ->
      (nth_error (bits bone) i = Some true ->
       v <> 0 /\ nth_error ys i = Some mu_bone_1_cm) /\
      (nth_error (bits bone) i = Some false -> v <> 0 ->
       nth_error ys i = Some mu_tissue_1_cm) /\
      (v = 0 -> nth_error ys i = Some 0%Q).
Proof.
  exact (muMap_holds_bone_tissue_zero no_builtins demo_world 0 demo_volume
           demo_voxels float32 eq_refl demo_volume_labeled eq_refl).
Defined.

(** C1 as stated fails for an integer output dtype: with
    [dtype=np.uint16] the two coefficients are truncated when they are
    assigned, and the mu-map holds 0 at the grey-matter voxel (32) and at
    the skull voxel (112) alike. *)
Lemma muMap_of_uint16_holds_no_coefficient :
  nth_error demo_voxels 1 = Some 32 /\ nth_error demo_voxels 3 = Some 112 /\
  indices no_builtins Act demo_volume "bone"
  = Ok (mkmask [1; 2; 3] [false; false; false; true; true; true]) /\
  exists w',
    build_muMap no_builtins 0 uint16 demo_world = (Ok 1%nat, w') /\
    nth_error (heap w') 1
    = Some (mkarr [1; 2; 3] uint16 (Ints [0; 0; 0; 0; 0; 0])).
Proof.
  split; [reflexivity |]. split; [reflexivity |].
  split; [vm_compute; reflexivity |].
  eexists. split; vm_compute; reflexivity.
Qed.

Lemma base_label_mask_is_unit_ball_witness :
  getattr no_builtins Act "greyMatter" = Ok (PyInt 32) /\
  exists m,
    indices no_builtins Act demo_volume "greyMatter" = Ok m /\
    mask_shape m = [1; 2; 3] /\
    List.length (bits m) = 6%nat /\
    forall i v, nth_error demo_voxels i = Some v ->
                nth_error (bits m) i = Some (Z.abs (v - 32) <? 1).
Proof.
  exact (base_label_mask_is_unit_ball no_builtins 2 demo_volume demo_voxels
           ltac:(lia) demo_volume_labeled).
Defined.

Lemma unknown_label_raises_witness :
  indices no_builtins Act demo_volume "tumour" = Raise (AttributeError "tumour").
Proof.
  apply (unknown_label_raises no_builtins "tumour" demo_volume); reflexivity.
Defined.

Lemma painting_selects_with_Act_codes_witness :
  exists ys w',
    paint no_builtins "PET" Pet 0 demo_world = (Ok 1%nat, w') /\
    nth_error (heap w') 1 = Some (mkarr [1; 2; 3] uint16 (Ints ys)) /\
    forall i v, nth_error demo_voxels i = Some v ->
                nth_error ys i = Some (painted Pet (profile_attrs Pet) v 0).
Proof.
  exact (proj1 (painting_selects_with_Act_codes no_builtins "PET" Pet demo_world
                  0 demo_volume demo_voxels (or_introl eq_refl) eq_refl
                  demo_volume_labeled)).
Defined.

Lemma csf_first_bone_last :
  bone_last ["csf"; "whiteMatter"; "greyMatter"; "skin"; "skull"; "marrow"; "bone"].
Proof.
  intros l1 l2 E.
  do 6 (destruct l1 as [| ? l1]; [discriminate E |];
        cbn [app] in E; inversion E as [[E0 E']]; clear E;
        rename E' into E; subst).
  destruct l1 as [| ? l1].
  - inversion E. subst l2. cbn [In]. split; intros H; exact H.
  - cbn [app] in E. inversion E as [[E0 E']].
    destruct l1; discriminate E'.
Qed.

Lemma painting_order_free_up_to_bone_witness :
  fst (paint_loop no_builtins "T1" T1 0 1
                  ["csf"; "whiteMatter"; "greyMatter"; "skin"; "skull"; "marrow";
                   "bone"]
                  (mkworld [demo_volume; Np.zeros_like demo_volume]
                           (fun _ => 1 # 2)%Q []))
  = Ok tt /\
  heap (snd (paint_loop no_builtins "T1" T1 0 1
                        ["csf"; "whiteMatter"; "greyMatter"; "skin"; "skull";
                         "marrow"; "bone"]
                        (mkworld [demo_volume; Np.zeros_like demo_volume]
                                 (fun _ => 1 # 2)%Q [])))
  = heap (snd (paint_loop no_builtins "T1" T1 0 1 (profile_attrs T1)
                          (mkworld [demo_volume; Np.zeros_like demo_volume]
                                   (fun _ => 1 # 2)%Q []))).
Proof.
  destruct (proj1 (proj2 (painting_order_free_up_to_bone no_builtins
                            demo_volume demo_voxels demo_volume_labeled))
              T1 "T1"
              (mkworld [demo_volume; Np.zeros_like demo_volume] (fun _ => 1 # 2)%Q [])
              0%nat 1%nat (fun _ => 0)
              ["csf"; "whiteMatter"; "greyMatter"; "skin"; "skull"; "marrow"; "bone"]
              (or_intror (or_introl eq_refl))
              eq_refl eq_refl ltac:(lia)
              (Permutation_sym
                 (Permutation_cons_append
                    ["whiteMatter"; "greyMatter"; "skin"; "skull"; "marrow"; "bone"]
                    "csf"))
              csf_first_bone_last)
    as (H1 & _ & H2).
  split; [exact H1 | exact H2].
Defined.

(** C3 as stated fails for T1: a marrow voxel lies in the regions of both
    "marrow" and "bone", two names of [T1.attrs], and the loop leaves 48
    with the listed order but 180 when "bone" is painted before "marrow". *)
Lemma T1_bone_overlaps_marrow_and_order_matters :
  getattr no_builtins T1 "attrs"
  = Ok (PyList ["whiteMatter"; "greyMatter"; "skin"; "skull"; "marrow"; "bone"; "csf"]) /\
  Permutation
    ["whiteMatter"; "greyMatter"; "skin"; "skull"; "marrow"; "bone"; "csf"]
    ["whiteMatter"; "greyMatter"; "skin"; "skull"; "bone"; "marrow"; "csf"] /\
  indices no_builtins Act marrow_volume "marrow" = Ok (mkmask [1; 1; 1] [true]) /\
  indices no_builtins Act marrow_volume "bone" = Ok (mkmask [1; 1; 1] [true]) /\
  option_map buf
    (nth_error
       (heap (snd (paint_loop no_builtins "T1" T1 0 1
                     ["whiteMatter"; "greyMatter"; "skin"; "skull"; "marrow"; "bone"; "csf"]
                     marrow_world))) 1)
  = Some (Ints [48]) /\
  option_map buf
    (nth_error
       (heap (snd (paint_loop no_builtins "T1" T1 0 1
                     ["whiteMatter"; "greyMatter"; "skin"; "skull"; "bone"; "marrow"; "csf"]
                     marrow_world))) 1)
  = Some (Ints [180]).
Proof.
  split; [reflexivity |].
  split; [do 4 apply perm_skip; apply perm_swap |].
  split; [reflexivity |].
  split; [reflexivity |].
  split; vm_compute; reflexivity.
Qed.

Lemma noise_negative_raises_zero_returns_input_witness :
  noise gaussian_delta 0 (-1) true 1 demo_world
  = (Raise (ValueError "Noise must be positive"), demo_world) /\
  exists w',
    noise gaussian_delta 0 0 true 1 demo_world = (Ok 0%nat, w') /\
    heap w' = heap demo_world /\ rng w' = rng demo_world /\
    journal w' = journal demo_world ++ [("WARNING", "zero noise")].
Proof.
  split.
  - apply (proj1 (noise_negative_raises_zero_returns_input gaussian_delta
                    demo_world 0 (-1) true 1)).
    reflexivity.
  - apply (proj2 (noise_negative_raises_zero_returns_input gaussian_delta
                    demo_world 0 0 true 1)).
    reflexivity.
Defined.

Lemma noise_scales_each_voxel_within_n_witness :
  exists ys w',
    noise gaussian_delta 0 (1 # 10) true 1 demo_world = (Ok 1%nat, w') /\
    nth_error (heap w') 1 = Some (mkarr [1; 2; 3] float64 (Floats ys)) /\
    nth_error (heap w') 0 = Some demo_volume /\
    List.length ys = 6%nat /\
    forall i x, nth_error (map inject_Z demo_voxels) i = Some x ->
      exists y s,
        nth_error ys i = Some y /\
        (-1 <= s /\ s <= 1)%Q /\
        (y == x * (1 + (1 # 10) * s))%Q /\
        (~ (x == 0)%Q -> (1 - (1 # 10) <= y / x /\ y / x <= 1 + (1 # 10))%Q).
Proof.
  apply (noise_scales_each_voxel_within_n gaussian_delta demo_world 0 demo_volume
           (1 # 10) true 1 gaussian_delta_mean);
    try reflexivity.
  intros k. unfold unit_interval. simpl. split; discriminate.
Defined.

Lemma toPetMmr_pads_to_whole_target_witness :
  new_shape_of no_builtins [10; 10; 10] (table Res "mMR") = Ok [2; 2; 2] /\
  let target := table Shape "mMR" in
  let widths := [(62, 63); (171, 171); (171, 171)] in
  (exists pl pr,
      pads_of target [2; 2; 2] = Ok (pl, pr) /\ pad_widths pl pr = widths) /\
  Np.padded_shape [2; 2; 2] widths = [127; 344; 344] /\
  (exists w' cs,
      toPetMmr no_builtins resize_blank 0 true float32 "mMR" cube_world
      = (Ok [5; 6; 7; 8]%nat, w') /\
      Forall2 (fun ref c => nth_error (heap w') ref = Some c /\
                            shape c = [127; 344; 344] /\ dtype_of c = float32)
              [5; 6; 7; 8]%nat cs /\
      Forall2 (fun b c => exists r p,
                   resize_blank b [2; 2; 2] = Ok r /\ Np.pad r widths = Ok p /\
                   c = Np.astype p float32 /\
                   forall idx, in_bounds idx [127; 344; 344] ->
                     item p idx
                     = if inside (pad_offset idx widths) [2; 2; 2]
                       then item r (pad_offset idx widths) else 0%Q)
              (stage_arrays float32 cube_volume cube_voxels) cs) /\
  map inject_Z (map Qfloor (table Shape "mMR")) = table Shape "mMR".
Proof.
  split; [vm_compute; reflexivity |].
  assert (Hns : new_shape_of no_builtins (shape cube_volume) (table Res "mMR")
                = Ok [2; 2; 2]) by (vm_compute; reflexivity).
  assert (Hpos : Forall (fun n => 0 < n) [2; 2; 2]) by (repeat constructor).
  assert (Hfit : Forall2 (fun n t => n <= Qfloor t) [2; 2; 2] (table Shape "mMR")).
  { repeat constructor; apply Z.leb_le; vm_compute; reflexivity. }
  exact (toPetMmr_pads_to_whole_target no_builtins resize_blank cube_world 0
           cube_volume cube_voxels float32 "mMR" [2; 2; 2]
           resize_blank_contract eq_refl cube_volume_labeled eq_refl
           (or_introl eq_refl) Hns Hpos Hfit).
Defined.

(** C4 as stated fails twice.  A volume of 600 x 3 x 3 voxels resamples to
    148 planes, more than the 127 of the mMR grid: the pad widths are
    negative and [np.pad] raises.  And for the system "MR" the target shape
    is fractional, (257.9624, 717.6872, 717.6872); the arrays returned have
    its whole part (257, 717, 717), which is neither the target shape nor
    its rounding. *)
Lemma toPetMmr_oversize_raises_and_MR_is_floored :
  new_shape_of no_builtins [600; 3; 3] (table Res "mMR") = Ok [148; 1; 1] /\
  fst (toPetMmr no_builtins resize_blank 0 true float32 "mMR" long_world)
  = Raise (ValueError "index can't contain negative values") /\
  table Shape "MR" = [257.96240; 717.68720; 717.68720]%Q /\
  map Np.rint (table Shape "MR") = [258; 718; 718] /\
  exists w',
    toPetMmr no_builtins resize_blank 0 true float32 "MR" cube_world
    = (Ok [5; 6; 7; 8]%nat, w') /\
    forall r, In r [5; 6; 7; 8]%nat ->
              exists b, nth_error (heap w') r = Some b /\
                        shape b = [257; 717; 717].
Proof.
  split; [vm_compute; reflexivity |].
  split; [vm_compute; reflexivity |].
  split; [vm_compute; reflexivity |].
  split; [vm_compute; reflexivity |].
  assert (Hns : new_shape_of no_builtins (shape cube_volume) (table Res "MR")
                = Ok [5; 5; 5]) by (vm_compute; reflexivity).
  assert (Hfit : Forall2 (fun n t => n <= Qfloor t) [5; 5; 5] (table Shape "MR")).
  { repeat constructor; apply Z.leb_le; vm_compute; reflexivity. }
  assert (Hpos : Forall (fun n => 0 < n) [5; 5; 5]) by (repeat constructor).
  destruct (toPetMmr_padded_run no_builtins resize_blank cube_world 0
              cube_volume cube_voxels float32 "MR" [5; 5; 5]
              resize_blank_contract eq_refl cube_volume_labeled eq_refl
              (or_intror (or_introl eq_refl)) Hns Hpos Hfit)
    as (w' & Hrun & Hshapes).
  exists w'. split; [exact Hrun |].
  intros r Hr. destruct (Hshapes r Hr) as (b & Hb & Hs & _).
  exists b. split; [exact Hb | exact Hs].
Qed.

(** A volume of one voxel resamples to the empty shape (0, 0, 0): the case
    of which the assumption on [resize] says nothing. *)
Example one_voxel_resamples_to_nothing :
  new_shape_of no_builtins [1; 1; 1] (table Res "mMR") = Ok [0; 0; 0] /\
  resize_blank marrow_volume [0; 0; 0] = Raise (ValueError "empty image").
Proof. split; vm_compute; reflexivity. Qed.

(** * The further properties on small inputs *)

Lemma stray_volume_labeled : labeled stray_volume stray_voxels.
Proof.
  unfold labeled. repeat split; try reflexivity.
  unfold stray_voxels. repeat constructor; lia.
Qed.

Lemma long_volume_labeled : labeled long_volume (repeat 48 (Z.to_nat 5400)).
Proof.
  unfold labeled. repeat split; try reflexivity.
  apply Forall_forall. intros x Hx. apply repeat_spec in Hx. subst x. lia.
Qed.

Lemma blank_bytes_items : Z.of_nat (List.length blank_bytes) / 2 = 362 * 434 * 362.
Proof.
  unfold blank_bytes. rewrite repeat_length. rewrite Z2Nat.id by lia. reflexivity.
Qed.

Lemma blank_file_getRaw :
  getRaw blank_files "subject04_crisp_v.rawb" demo_world
  = (Returned 1%nat, blank_world).
Proof.
  exact (getRaw_whole_file blank_files "subject04_crisp_v.rawb" demo_world
           blank_bytes eq_refl blank_bytes_items).
Qed.

Example uint16_items_little_endian :
  Nd.uint16_items [Byte.x30; Byte.x00; Byte.x70; Byte.x00; Byte.xb0] = [48; 112] /\
  Nd.uint16_items [Byte.x01; Byte.x02] = [513].
Proof. split; reflexivity. Qed.

Example getRaw_missing_file :
  getRaw no_files "subject04_crisp_v.rawb" demo_world
  = (Failed FileNotFoundError "subject04_crisp_v.rawb", demo_world).
Proof. reflexivity. Qed.

Example getRaw_short_file :
  getRaw short_files "subject04_crisp_v.rawb" demo_world
  = (Raised (ValueError
               "cannot reshape array of size 2 into shape (362,434,362)"),
     demo_world).
Proof. vm_compute. reflexivity. Qed.

Example matify_demo :
  exists w',
    matify 0 float32 None demo_world = (Ok 1%nat, w') /\
    nth_error (heap w') 1
    = Some (mkarr [3; 2; 1] float32
                  (Floats (map inject_Z [0; 112; 32; 176; 48; 160]))).
Proof. eexists. split; vm_compute; reflexivity. Qed.

Example matify_repeated_axis :
  fst (matify 0 float32 (Some [0; 1; -2]) demo_world)
  = Raise (ValueError "repeated axis in transpose") /\
  fst (matify 0 float32 (Some [0; 1; 3]) demo_world)
  = Raise (ValueError "axis 3 is out of bounds for array of dimension 3") /\
  fst (matify 0 float32 (Some [0; 1]) demo_world)
  = Raise (ValueError "axes don't match array").
Proof. repeat split; vm_compute; reflexivity. Qed.

Lemma painted_volume_is_table_witness :
  exists w',
    paint no_builtins "T1" T1 0 demo_world = (Ok 1%nat, w') /\
    nth_error (heap w') 1
    = Some (mkarr [1; 2; 3] uint16 (Ints [0; 106; 154; 48; 48; 48])) /\
    nth_error (heap w') 0 = Some demo_volume.
Proof.
  apply (painted_volume_is_table no_builtins "T1" T1 demo_world 0 demo_volume
           demo_voxels).
  - right. left. reflexivity.
  - reflexivity.
  - exact demo_volume_labeled.
Defined.

Lemma off_code_voxel_is_blank_but_attenuates_witness :
  (forall attr, In attr ("bone" :: Body.Act_labels) ->
     exists m, indices no_builtins Act stray_volume attr = Ok m /\
               nth_error (bits m) 0 = Some false) /\
  (forall tag P, is_profile P ->
     exists ys w',
       paint no_builtins tag P 0 stray_world = (Ok 1%nat, w') /\
       nth_error (heap w') 1 = Some (mkarr [1; 1; 2] uint16 (Ints ys)) /\
       nth_error ys 0 = Some 0) /\
  (forall dt, is_float dt = true ->
     exists ys w',
       build_muMap no_builtins 0 dt stray_world = (Ok 1%nat, w') /\
       nth_error (heap w') 1 = Some (mkarr [1; 1; 2] dt (Floats ys)) /\
       nth_error ys 0 = Some mu_tissue_1_cm).
Proof.
  apply (off_code_voxel_is_blank_but_attenuates no_builtins stray_world 0
           stray_volume stray_voxels 0 113).
  - reflexivity.
  - exact stray_volume_labeled.
  - reflexivity.
  - intros H. vm_compute in H.
    repeat (destruct H as [H | H]; [discriminate H |]). exact H.
Defined.

Lemma bone_mask_ignores_Act_bone_witness :
  getattr no_builtins Act "bone" = Ok (PyInt 240) /\
  exists m,
    indices no_builtins Act demo_volume "bone" = Ok m /\
    forall i v, nth_error demo_voxels i = Some v ->
      nth_error (bits m) i = Some ((v =? 112) || (v =? 176) || (v =? 160)) /\
      (v = 240 -> nth_error (bits m) i = Some false).
Proof.
  apply (bone_mask_ignores_Act_bone no_builtins demo_volume demo_voxels).
  exact demo_volume_labeled.
Defined.

Lemma muMap_of_integer_dtype_is_zero_witness :
  exists w',
    build_muMap no_builtins 0 uint16 demo_world = (Ok 1%nat, w') /\
    nth_error (heap w') 1
    = Some (mkarr [1; 2; 3] uint16 (Ints [0; 0; 0; 0; 0; 0])).
Proof.
  apply (muMap_of_integer_dtype_is_zero no_builtins demo_world 0 demo_volume
           demo_voxels uint16).
  - reflexivity.
  - exact demo_volume_labeled.
  - reflexivity.
Defined.

Lemma toPetMmr_unpadded_has_resized_shape_witness :
  exists w' cs,
    toPetMmr no_builtins resize_blank 0 false float32 "mMR" long_world
    = (Ok [5; 6; 7; 8]%nat, w') /\
    Forall2 (fun ref c => nth_error (heap w') ref = Some c /\
                          shape c = [148; 1; 1] /\ dtype_of c = float32)
            [5; 6; 7; 8]%nat cs /\
    Forall2 (fun b c => exists r, resize_blank b [148; 1; 1] = Ok r /\
                                  c = Np.astype r float32)
            (stage_arrays float32 long_volume (repeat 48 (Z.to_nat 5400))) cs.
Proof.
  apply (toPetMmr_unpadded_has_resized_shape no_builtins resize_blank long_world
           0 long_volume (repeat 48 (Z.to_nat 5400)) float32 "mMR" [148; 1; 1]).
  - exact resize_blank_contract.
  - reflexivity.
  - exact long_volume_labeled.
  - reflexivity.
  - left. reflexivity.
  - vm_compute. reflexivity.
  - repeat constructor.
Defined.

Lemma toPetMmr_raises_when_resized_exceeds_target_witness :
  exists e w' ext,
    toPetMmr no_builtins resize_blank 0 true float32 "mMR" long_world
    = (Raise e, w') /\
    heap w' = heap long_world ++ ext /\ List.length ext = 4%nat /\
    rng w' = rng long_world /\
    (List.length (shape long_volume) = 3%nat ->
     Forall (fun n => 0 < n) [148; 1; 1] ->
     e = ValueError "index can't contain negative values").
Proof.
  apply (toPetMmr_raises_when_resized_exceeds_target no_builtins resize_blank
           long_world 0 long_volume (repeat 48 (Z.to_nat 5400)) float32 "mMR"
           [148; 1; 1]).
  - exact resize_blank_contract.
  - reflexivity.
  - exact long_volume_labeled.
  - left. reflexivity.
  - vm_compute. reflexivity.
  - apply Exists_cons_hd. vm_compute. reflexivity.
Defined.

Lemma toPetMmr_unknown_system_raises_witness :
  toPetMmr no_builtins resize_blank 0 true float32 "PET" demo_world
  = (Raise (AttributeError "PET"), demo_world).
Proof.
  apply (toPetMmr_unknown_system_raises no_builtins resize_blank demo_world 0
           true float32 "PET"); reflexivity.
Defined.

Lemma noise_draws_one_value_per_voxel_witness :
  let out := noise gaussian_delta 0 (1 # 10) true 1 demo_world in
  rng (snd out) = (fun i => rng demo_world (i + 6)%nat) /\
  journal (snd out) = journal demo_world /\
  forall r, (r < 1)%nat ->
            nth_error (heap (snd out)) r = nth_error (heap demo_world) r.
Proof.
  apply (noise_draws_one_value_per_voxel gaussian_delta demo_world 0 demo_volume
           (1 # 10) true 1); reflexivity.
Defined.

Lemma noise_keeps_zero_and_sign_witness :
  exists ys w',
    noise gaussian_delta 0 (1 # 10) true 1 demo_world = (Ok 1%nat, w') /\
    nth_error (heap w') 1 = Some (mkarr [1; 2; 3] float64 (Floats ys)) /\
    forall i x, nth_error (map inject_Z demo_voxels) i = Some x ->
      exists y,
        nth_error ys i = Some y /\
        ((x == 0)%Q -> (y == 0)%Q) /\
        ((1 # 10 <= 1)%Q -> (0 <= x)%Q -> (0 <= y)%Q) /\
        ((1 # 10 <= 1)%Q -> (x <= 0)%Q -> (y <= 0)%Q).
Proof.
  apply (noise_keeps_zero_and_sign gaussian_delta demo_world 0 demo_volume
           (1 # 10) true 1 gaussian_delta_mean);
    try reflexivity.
  intros k. unfold unit_interval. simpl. split; discriminate.
Defined.

Lemma matify_reverses_the_axes_witness :
  exists c w',
    matify 0 float32 None demo_world = (Ok 1%nat, w') /\
    nth_error (heap w') 1 = Some c /\
    nth_error (heap w') 0 = Some demo_volume /\
    shape c = [3; 2; 1] /\ dtype_of c = float32 /\
    forall i j k, 0 <= i < 1 -> 0 <= j < 2 -> 0 <= k < 3 ->
                  item c [k; j; i]
                  = item (Np.astype demo_volume float32) [i; j; k].
Proof.
  apply (matify_reverses_the_axes demo_world 0 demo_volume float32 1 2 3);
    reflexivity.
Defined.

Lemma matify_twice_is_astype_witness :
  exists w1 w2,
    matify 0 float32 None demo_world = (Ok 1%nat, w1) /\
    matify 1 float32 None w1 = (Ok 2%nat, w2) /\
    nth_error (heap w2) 2 = Some (Np.astype demo_volume float32) /\
    nth_error (heap w2) 0 = Some demo_volume.
Proof.
  apply (matify_twice_is_astype demo_world 0 demo_volume float32 1 2 3);
    try reflexivity; lia.
Defined.

Lemma matify_returns_exactly_for_a_permutation_witness :
  let ndim := 3 in
  let axis := fun ax => if ax <? 0 then ax + ndim else ax in
  ((exists r w', matify 0 float32 (Some [2; -3; 1]) demo_world = (Ok r, w')) <->
   (List.length [2; -3; 1] = List.length (shape demo_volume) /\
    Forall (fun ax => - ndim <= ax < ndim) [2; -3; 1] /\
    NoDup (map axis [2; -3; 1]))) /\
  (forall r w', matify 0 float32 (Some [2; -3; 1]) demo_world = (Ok r, w') ->
     r = 1%nat /\
     nth_error (heap w') 0 = Some demo_volume /\
     exists c,
       nth_error (heap w') r = Some c /\
       shape c = [3; 1; 2] /\
       dtype_of c = float32).
Proof.
  apply (matify_returns_exactly_for_a_permutation demo_world 0 demo_volume
           float32 [2; -3; 1]).
  reflexivity.
Defined.

Lemma getRaw_volume_passes_toPetMmr_witness :
  getRaw blank_files "subject04_crisp_v.rawb" demo_world
  = (Returned 1%nat, blank_world) /\
  exists w2,
    toPetMmr no_builtins resize_blank 1 true float32 "mMR" blank_world
    = (Ok [6; 7; 8; 9]%nat, w2) /\
    forall q, In q [6; 7; 8; 9]%nat ->
              exists b, nth_error (heap w2) q = Some b /\
                        shape b = [127; 344; 344] /\ dtype_of b = float32.
Proof.
  split; [exact blank_file_getRaw |].
  apply (getRaw_volume_passes_toPetMmr no_builtins resize_blank blank_files
           "subject04_crisp_v.rawb" demo_world 1 blank_world true float32 "mMR").
  - exact resize_blank_contract.
  - exact blank_file_getRaw.
  - left. reflexivity.
Defined.
